(** * PDF editor suite: the document transformation pipeline

    A shallow embedding of [packages/shared/src/pdf-operations.ts] and of the
    [pdf:compress] handler of [packages/electron-app/src/main/index.ts],
    together with the part of the pdf-lib document object these functions
    call, and the statements of the specification settled against them. *)

From Stdlib Require Import ZArith QArith Qround Qabs Qpower Qreduction Qcanon.
From Stdlib Require Import Lia Lqa Ascii.
From stdpp Require Import base tactics option list list_numbers strings.

Local Open Scope Z_scope.

(* ===================================================================== *)
(** * Double precision numbers *)
(* ===================================================================== *)

(** JavaScript numbers are IEEE 754 binary64 values, and every arithmetic
    operation gives the representable value nearest to the exact result,
    a tie going to the even significand.  Finite numbers are kept as
    rationals; [nearest] is that rounding, subnormal numbers included.
    The sign of zero is not modelled. *)
Module Double.

(** [2^z] *)
Definition pow2 (z : Z) : Q := (2 ^ z)%Q.

(** For [q > 0], the [e] with [2^e <= q < 2^(e+1)]. *)
Definition exponent (q : Q) : Z :=
  let k := Z.log2 (Qnum q) - Z.log2 (Zpos (Qden q)) in
  if Qle_bool (pow2 k) q then k else k - 1.

(** The integer nearest to [q], the even one of two that are as near. *)
Definition nearestEven (q : Q) : Z :=
  let below := Qfloor q in
  match (q - inject_Z below ?= 1 # 2)%Q with
  | Lt => below
  | Gt => below + 1
  | Eq => if Z.even below then below else below + 1
  end.

(** Representable numbers around [q > 0] are the multiples of
    [2^(spacing q)]: 53 significant bits, and no exponent below that of
    the subnormal numbers. *)
Definition spacing (q : Q) : Z := Z.max (exponent q - 52) (-1074).

Definition magnitude (q : Q) : Q :=
  let t := spacing q in
  Qred (inject_Z (nearestEven (q / pow2 t)) * pow2 t).

(** The multiple of the spacing nearest to [q], in lowest terms.  It can
    lie beyond the largest finite number; what becomes of it then is the
    caller's business. *)
Definition nearest (q : Q) : Q :=
  match (q ?= 0)%Q with
  | Eq => 0%Q
  | Gt => magnitude q
  | Lt => (- magnitude (- q))%Q
  end.

(** [a + b], [a - b] and [a / b] on numbers whose result stays finite:
    page coordinates and mouse positions. *)
Definition add (a b : Q) : Q := nearest (a + b).
Definition sub (a b : Q) : Q := nearest (a - b).
Definition div (a b : Q) : Q := nearest (a / b).

End Double.

(* ===================================================================== *)
(** * The JavaScript runtime, as far as the code relies on it *)
(* ===================================================================== *)

Module JS.

(** What a [throw] carries: an [Error] instance with its [message], or any
    other value (the [error instanceof Error] test tells them apart). *)
Inductive Thrown : Type :=
| ErrorObject (message : string)
| NonError.

(** An [async] function either resolves with a value or rejects with what
    was thrown; [try]/[catch] inspects which. *)
Inductive Result (A : Type) : Type :=
| Resolved (value : A)
| Rejected (error : Thrown).
Arguments Resolved {A} value.
Arguments Rejected {A} error.

Definition bind {A B} (m : Result A) (k : A -> Result B) : Result B :=
  match m with
  | Rejected error => Rejected error
  | Resolved value => k value
  end.

(** [error instanceof Error ? error.message : fallback] *)
Definition messageOr (fallback : string) (error : Thrown) : string :=
  match error with
  | ErrorObject message => message
  | NonError => fallback
  end.

(** [array[i]] for a number [i] that is an integer: [undefined] (here
    [None]) outside [0 .. length-1], negative indices included. *)
Definition index {A} (array : list A) (i : Z) : option A :=
  if decide (0 <= i) then array !! Z.to_nat i else None.

(** [array.includes(x)] on an array of integers. *)
Definition includes (array : list Z) (x : Z) : bool :=
  bool_decide (x ∈ array).

(** ** Strings that are taken apart

    A string is a sequence of UTF-16 code units.  A text the code only
    hands on is kept as a [string]; the one it takes apart with [split]
    and [trim], the keywords entry, is kept as the list of its code
    units. *)
Definition CodeUnits : Type := list Z.

(** The code units of a text of code units below 256. *)
Fixpoint unitsOf (s : string) : CodeUnits :=
  match s with
  | EmptyString => []
  | String c rest => Z.of_nat (Ascii.nat_of_ascii c) :: unitsOf rest
  end.

(** [pieces.join(separator)] *)
Fixpoint join (separator : CodeUnits) (pieces : list CodeUnits) : CodeUnits :=
  match pieces with
  | [] => []
  | piece :: rest =>
      match rest with
      | [] => piece
      | _ => piece ++ separator ++ join separator rest
      end
  end.

(** [s.split(separator)] for a separator of one code unit: the pieces
    between the separators, one piece more than there are separators; the
    empty string gives one empty piece. *)
Fixpoint split (separator : Z) (s : CodeUnits) : list CodeUnits :=
  match s with
  | [] => [[]]
  | c :: rest =>
      if decide (c = separator)
      then [] :: split separator rest
      else match split separator rest with
           | piece :: pieces => (c :: piece) :: pieces
           | [] => [[c]]
           end
  end.

(** The code units [trim] strips: the white space and the line
    terminators of the language.  These are tab, line feed, vertical tab,
    form feed, carriage return, space, no-break space, the Ogham space
    mark, the spaces U+2000 to U+200A, line and paragraph separator, the
    narrow no-break space, the medium mathematical space, the ideographic
    space and the byte order mark. *)
Definition whiteSpace : list Z :=
  [9; 10; 11; 12; 13; 32; 160; 5760] ++ seqZ 8192 11 ++
  [8232; 8233; 8239; 8287; 12288; 65279].

Definition isWhiteSpace (c : Z) : bool := bool_decide (c ∈ whiteSpace).

Fixpoint trimStart (s : CodeUnits) : CodeUnits :=
  match s with
  | [] => []
  | c :: rest => if isWhiteSpace c then trimStart rest else s
  end.

Definition trimEnd (s : CodeUnits) : CodeUnits :=
  reverse (trimStart (reverse s)).

(** [s.trim()] *)
Definition trim (s : CodeUnits) : CodeUnits := trimEnd (trimStart s).

(** ** Numbers

    Sizes and percentages are JavaScript numbers: a finite value, kept as
    a rational, or one of the three special values, which a division by a
    zero size produces.  The result of an operation on finite values is
    rounded to the nearest double, and is infinite when that lies beyond
    the largest finite double.  The sign of zero is not modelled. *)
Inductive Num : Type :=
| Finite (q : Q)
| PosInf
| NegInf
| NaN.

(** A length or a small integer literal: below [2^53], and so a double. *)
Definition ofNat (n : nat) : Num := Finite (inject_Z (Z.of_nat n)).
Definition ofZ (z : Z) : Num := Finite (inject_Z z).

Definition sign (q : Q) : comparison := (Qnum q ?= 0)%Z.

(** The double for the exact result [q] of an operation. *)
Definition finite (q : Q) : Num :=
  let rounded := Double.nearest q in
  if Qle_bool (Double.pow2 1024) rounded then PosInf
  else if Qle_bool rounded (- Double.pow2 1024) then NegInf
  else Finite rounded.

(** [a / b] *)
Definition div (a b : Num) : Num :=
  match a, b with
  | NaN, _ | _, NaN => NaN
  | Finite x, Finite y =>
      match sign y, sign x with
      | Eq, Eq => NaN
      | Eq, Gt => PosInf
      | Eq, Lt => NegInf
      | _, _ => finite (x / y)
      end
  | Finite _, (PosInf | NegInf) => Finite 0
  | (PosInf | NegInf), (PosInf | NegInf) => NaN
  | PosInf, Finite y => match sign y with Lt => NegInf | _ => PosInf end
  | NegInf, Finite y => match sign y with Lt => PosInf | _ => NegInf end
  end.

(** [a - b] *)
Definition sub (a b : Num) : Num :=
  match a, b with
  | NaN, _ | _, NaN => NaN
  | Finite x, Finite y => finite (x - y)
  | Finite _, PosInf => NegInf
  | Finite _, NegInf => PosInf
  | PosInf, PosInf | NegInf, NegInf => NaN
  | PosInf, _ => PosInf
  | NegInf, _ => NegInf
  end.

(** [a * b] *)
Definition mul (a b : Num) : Num :=
  match a, b with
  | NaN, _ | _, NaN => NaN
  | Finite x, Finite y => finite (x * y)
  | Finite x, PosInf | PosInf, Finite x =>
      match sign x with Eq => NaN | Gt => PosInf | Lt => NegInf end
  | Finite x, NegInf | NegInf, Finite x =>
      match sign x with Eq => NaN | Gt => NegInf | Lt => PosInf end
  | PosInf, PosInf | NegInf, NegInf => PosInf
  | PosInf, NegInf | NegInf, PosInf => NegInf
  end.

(** [Math.round]: the nearest integer, a tie going up.  The integer is a
    double whenever the argument is one. *)
Definition round (a : Num) : Num :=
  match a with
  | Finite x => Finite (inject_Z (Qfloor (x + (1 # 2))))
  | other => other
  end.

(** [Math.max(a, b)]: [NaN] as soon as one argument is. *)
Definition max (a b : Num) : Num :=
  match a, b with
  | NaN, _ | _, NaN => NaN
  | PosInf, _ | _, PosInf => PosInf
  | NegInf, other | other, NegInf => other
  | Finite x, Finite y => if Qle_bool x y then Finite y else Finite x
  end.

(** [a < b] *)
Definition lt (a b : Num) : bool :=
  match a, b with
  | NaN, _ | _, NaN => false
  | Finite x, Finite y => negb (Qle_bool y x)
  | NegInf, (Finite _ | PosInf) => true
  | Finite _, PosInf => true
  | _, _ => false
  end.

End JS.

Import JS.

Notation "'let*' x ':=' m 'in' k" := (JS.bind m (fun x => k))
  (at level 10, x name, m at level 100, k at level 200, only parsing).

(* ===================================================================== *)
(** * pdf-lib: the document object the operations drive *)
(* ===================================================================== *)

Module PdfLib.

(** [rgb(r, g, b)] *)
Record Color : Type := rgb { red : Q; green : Q; blue : Q }.

(** One call of a drawing method of [PDFPage], with the options the caller
    passed ([None] for an option that was left out). *)
Inductive DrawCall : Type :=
| DrawRectangle (x y width height : Q)
                (color borderColor : option Color) (borderWidth : option Q)
                (opacity : Q)
| DrawLine (startX startY endX endY : Q) (thickness : Q)
           (color : Color) (opacity : Q)
| DrawText (text : string) (x y : Q) (size : Q)
           (color : Color) (opacity : Q).

(** A page: its size, its rotation, and the drawing calls baked into its
    content so far. *)
Record PDFPage : Type := mkPage {
  width : Q;
  height : Q;
  rotation : Z;
  content : list DrawCall
}.

Record PDFField : Type := mkField {
  fieldName : string;
  widgetPage : Z
}.

(** A document: the page array, the information dictionary, and the
    interactive form. *)
Record PDFDocument : Type := mkDocument {
  pages : list PDFPage;
  title : option string;
  author : option string;
  subject : option string;
  keywords : option CodeUnits;
  creator : option string;
  producer : option string;
  creationDate : option Z;
  modificationDate : option Z;
  fields : list PDFField
}.

(** The options of [save]; [None] is an option the caller left out. *)
Record SaveOptions : Type := mkSaveOptions {
  useObjectStreams : option bool;
  addDefaultPage : option bool;
  objectsPerTick : option Z
}.

Definition noOptions : SaveOptions := mkSaveOptions None None None.

(** What this development does not look into: the byte-level reader and
    writer, the clock, the argument checks of the drawing methods, and the
    form machinery.  A byte buffer is opaque here, the code only ever asks
    for its [length]. *)
Class Library : Type := {
  Uint8Array : Type;
  byteLength : Uint8Array -> nat;
  (** the parser behind [PDFDocument.load]; it rejects malformed input *)
  parse : Uint8Array -> Result PDFDocument;
  (** the writer behind [save], with or without object streams; it is
      taken to produce bytes for every document *)
  serialize : bool -> PDFDocument -> Uint8Array;
  (** [new Date()] at the time of the call *)
  now : Z;
  (** the checks a drawing method runs on its arguments before it draws
      (colour channels and opacity in range, encodable text): [Some] is
      the error it throws *)
  checkDraw : DrawCall -> option Thrown;
  (** [doc.getForm()]: [Some] is what it throws when the catalog holds no
      usable form.  A document without a form is given an empty one, and
      the form handed out is kept by the document from then on. *)
  getForm : PDFDocument -> option Thrown;
  (** [form.getFields()] *)
  getFields : PDFDocument -> Result (list PDFField);
  (** [form.flatten()], which draws the fields onto the pages and removes
      them: the pages and fields as the call leaves them, and what it
      threw if it did not finish *)
  flattenForm :
    list PDFPage -> list PDFField ->
    list PDFPage * list PDFField * option Thrown;
  (** [form.updateFieldAppearances()], which redraws the fields that need
      it: [Some] is the error it throws.  Pages and fields stay as they
      are. *)
  updateFieldAppearances : PDFDocument -> option Thrown
}.

Section Document.
Context `{lib : Library}.

Definition producerName : string :=
  "pdf-lib (https://github.com/Hopding/pdf-lib)".

(** The refresh of the information dictionary that [load] and [create]
    perform unless [updateMetadata] is switched off: producer and
    modification date are overwritten, creator and creation date are
    filled in when the dictionary has no such entry; an entry that is
    there is kept, also an empty one. *)
Definition updateInfoDict (doc : PDFDocument) : PDFDocument :=
  mkDocument (pages doc) (title doc) (author doc) (subject doc)
    (keywords doc)
    (match creator doc with None => Some producerName | set => set end)
    (Some producerName)
    (match creationDate doc with None => Some now | set => set end)
    (Some now)
    (fields doc).

(** [PDFDocument.load(bytes, { ignoreEncryption: true, updateMetadata })].
    Every call of the code passes [ignoreEncryption: true], so an
    encrypted document loads like any other. *)
Definition load (bytes : Uint8Array) (updateMetadata : bool)
  : Result PDFDocument :=
  let* doc := parse bytes in
  Resolved (if updateMetadata then updateInfoDict doc else doc).

(** [PDFDocument.create()] *)
Definition create : PDFDocument :=
  updateInfoDict
    (mkDocument [] None None None None None None None None []).

Definition getPages (doc : PDFDocument) : list PDFPage := pages doc.

Definition getPageCount (doc : PDFDocument) : Z :=
  Z.of_nat (length (pages doc)).

(** [addPage(page)]: the page goes to the end. *)
Definition addPage (doc : PDFDocument) (page : PDFPage) : PDFDocument :=
  mkDocument (pages doc ++ [page]) (title doc) (author doc) (subject doc)
    (keywords doc) (creator doc) (producer doc) (creationDate doc)
    (modificationDate doc) (fields doc).

(** The page object at position [i] is replaced by its mutated state. *)
Definition setPage (doc : PDFDocument) (i : nat) (page : PDFPage)
  : PDFDocument :=
  mkDocument (<[i := page]> (pages doc)) (title doc) (author doc)
    (subject doc) (keywords doc) (creator doc) (producer doc)
    (creationDate doc) (modificationDate doc) (fields doc).

(** Reading [.node] of a source page that does not exist. *)
Definition missingPage : Thrown :=
  ErrorObject "Cannot read properties of undefined (reading 'node')".

(** [copyPages(srcDoc, indices)]: the source pages at [indices], copied
    one after the other; an index with no page under it throws. *)
Fixpoint copyPages (srcDoc : PDFDocument) (indices : list Z)
  : Result (list PDFPage) :=
  match indices with
  | [] => Resolved []
  | i :: rest =>
      match JS.index (getPages srcDoc) i with
      | None => Rejected missingPage
      | Some srcPage =>
          let* copied := copyPages srcDoc rest in
          Resolved (srcPage :: copied)
      end
  end.

(** The page [addPage()] makes when it is given none: a blank A4. *)
Definition blankPage : PDFPage :=
  mkPage (59528 # 100) (84189 # 100) 0 [].

(** [save(options)]: a document without pages first receives a blank
    page unless [addDefaultPage] is false, then the writer runs, with
    object streams unless [useObjectStreams] is false.
    [objectsPerTick] only paces the writer. *)
Definition prepareForSave (doc : PDFDocument) (options : SaveOptions)
  : PDFDocument :=
  if default true (addDefaultPage options) && (getPageCount doc =? 0)
  then addPage doc blankPage
  else doc.

Definition save (doc : PDFDocument) (options : SaveOptions) : Uint8Array :=
  serialize (default true (useObjectStreams options))
            (prepareForSave doc options).

(** [save(options)] on a document whose form [getForm] has handed out:
    before the writer runs, the appearances of the fields are brought up
    to date (the option [updateFieldAppearances], which no call of the
    code passes, is on by default), and what that throws is thrown by
    [save]. *)
Definition saveWithForm (doc : PDFDocument) (options : SaveOptions)
  : Result Uint8Array :=
  match updateFieldAppearances (prepareForSave doc options) with
  | Some error => Rejected error
  | None => Resolved (save doc options)
  end.

Definition setTitle (doc : PDFDocument) (text : string) : PDFDocument :=
  mkDocument (pages doc) (Some text) (author doc) (subject doc)
    (keywords doc) (creator doc) (producer doc) (creationDate doc)
    (modificationDate doc) (fields doc).

Definition setAuthor (doc : PDFDocument) (text : string) : PDFDocument :=
  mkDocument (pages doc) (title doc) (Some text) (subject doc)
    (keywords doc) (creator doc) (producer doc) (creationDate doc)
    (modificationDate doc) (fields doc).

Definition setSubject (doc : PDFDocument) (text : string) : PDFDocument :=
  mkDocument (pages doc) (title doc) (author doc) (Some text)
    (keywords doc) (creator doc) (producer doc) (creationDate doc)
    (modificationDate doc) (fields doc).

(** [setKeywords(words)] stores the words joined by single spaces. *)
Definition setKeywords (doc : PDFDocument) (words : list CodeUnits)
  : PDFDocument :=
  mkDocument (pages doc) (title doc) (author doc) (subject doc)
    (Some (JS.join [32] words)) (creator doc) (producer doc)
    (creationDate doc) (modificationDate doc) (fields doc).

Definition setProducer (doc : PDFDocument) (text : string) : PDFDocument :=
  mkDocument (pages doc) (title doc) (author doc) (subject doc)
    (keywords doc) (creator doc) (Some text) (creationDate doc)
    (modificationDate doc) (fields doc).

Definition setCreator (doc : PDFDocument) (text : string) : PDFDocument :=
  mkDocument (pages doc) (title doc) (author doc) (subject doc)
    (keywords doc) (Some text) (producer doc) (creationDate doc)
    (modificationDate doc) (fields doc).

(** [doc.getForm().flatten()], as far as the document is concerned. *)
Definition flatten (doc : PDFDocument) : PDFDocument :=
  let '(flatPages, flatFields, _) := flattenForm (pages doc) (fields doc) in
  mkDocument flatPages (title doc) (author doc) (subject doc)
    (keywords doc) (creator doc) (producer doc) (creationDate doc)
    (modificationDate doc) flatFields.

(** A drawing method: once its arguments pass the checks, the call is
    appended to the page content. *)
Definition draw (page : PDFPage) (call : DrawCall) : Result PDFPage :=
  match checkDraw call with
  | Some error => Rejected error
  | None =>
      Resolved (mkPage (width page) (height page) (rotation page)
                       (content page ++ [call]))
  end.

End Document.

End PdfLib.

Import PdfLib.

(* ===================================================================== *)
(** * packages/shared/src/types.ts *)
(* ===================================================================== *)

Inductive AnnotationType : Type :=
| highlight
| underline
| strikeout
| freeform
| text
| rectangle
| arrow.

Module Rect.
Record t : Type := make { x : Q; y : Q; width : Q; height : Q }.
End Rect.

Module Point.
Record t : Type := make { x : Q; y : Q }.
End Point.

Module Annotation.
Record t : Type := make {
  id : string;
  type : AnnotationType;
  pageIndex : Z;
  rect : Rect.t;
  color : string;
  opacity : Q;
  createdAt : Z;
  updatedAt : Z;
  content : option string;
  points : option (list Point.t)
}.
End Annotation.

Module MergeSource.
Record t `{Library} : Type := make {
  id : string;
  fileName : string;
  bytes : Uint8Array;
  pageCount : Z;
  selectedPages : list Z
}.
Arguments make {_} id fileName bytes pageCount selectedPages.
End MergeSource.

Module MergeResult.
Record t `{Library} : Type := make {
  success : bool;
  bytes : option Uint8Array;
  error : option string
}.
Arguments make {_} success bytes error.
End MergeResult.

Inductive CompressionLevel : Type :=
| Level25
| Level50
| Level75.

Definition levelValue (level : CompressionLevel) : Z :=
  match level with
  | Level25 => 25
  | Level50 => 50
  | Level75 => 75
  end.

Module CompressionResult.
Record t `{Library} : Type := make {
  success : bool;
  bytes : option Uint8Array;
  originalSize : nat;
  compressedSize : nat;
  reductionPercent : JS.Num;
  error : option string
}.
Arguments make {_} success bytes originalSize compressedSize
  reductionPercent error.
End CompressionResult.

(** [packages/shared/src/utils.ts] is not among the sources at hand.  Its
    [hexToRgb] is taken as it is called: from the colour string of an
    annotation to the three channels, or a throw. *)
Class Utils : Type := {
  hexToRgb : string -> Result Color
}.

(* ===================================================================== *)
(** * packages/shared/src/pdf-operations.ts *)
(* ===================================================================== *)

Section PdfOperations.
Context `{lib : Library} `{utils : Utils}.

(** [Array.from({ length: n }, (_, i) => i)] *)
Definition range (n : Z) : list Z := seqZ 0 n.

(** [for (const page of copiedPages) doc.addPage(page)] *)
Definition addPages (doc : PDFDocument) (copiedPages : list PDFPage)
  : PDFDocument :=
  fold_left addPage copiedPages doc.

(** The page selection of one merge source, once its document is loaded. *)
Definition pagesToCopy (source : MergeSource.t) (sourcePdf : PDFDocument)
  : list Z :=
  if (0 <? length (MergeSource.selectedPages source))%nat
  then MergeSource.selectedPages source
  else range (getPageCount sourcePdf).

(** The loop of [mergePdfs] over its sources. *)
Fixpoint mergeSources (mergedPdf : PDFDocument) (sources : list MergeSource.t)
  : Result PDFDocument :=
  match sources with
  | [] => Resolved mergedPdf
  | source :: rest =>
      let* sourcePdf := load (MergeSource.bytes source) true in
      let* copiedPages := copyPages sourcePdf (pagesToCopy source sourcePdf) in
      mergeSources (addPages mergedPdf copiedPages) rest
  end.

Definition mergePdfs (sources : list MergeSource.t) : MergeResult.t :=
  match
    (let* mergedPdf := mergeSources create sources in
     Resolved (save mergedPdf noOptions))
  with
  | Resolved mergedBytes =>
      MergeResult.make true (Some mergedBytes) None
  | Rejected error =>
      MergeResult.make false None
        (Some (JS.messageOr "Unknown error during merge" error))
  end.

Definition reorderPages (pdfBytes : Uint8Array) (newOrder : list Z)
  : Result Uint8Array :=
  let* sourcePdf := load pdfBytes true in
  let reorderedPdf := create in
  let* copiedPages := copyPages sourcePdf newOrder in
  Resolved (save (addPages reorderedPdf copiedPages) noOptions).

Definition extractPages (pdfBytes : Uint8Array) (pageIndices : list Z)
  : Result Uint8Array :=
  let* sourcePdf := load pdfBytes true in
  let extractedPdf := create in
  let* copiedPages := copyPages sourcePdf pageIndices in
  Resolved (save (addPages extractedPdf copiedPages) noOptions).

Definition deletePages (pdfBytes : Uint8Array) (pageIndicesToDelete : list Z)
  : Result Uint8Array :=
  let* sourcePdf := load pdfBytes true in
  let pageCount := getPageCount sourcePdf in
  let pagesToKeep :=
    filter (fun i => negb (JS.includes pageIndicesToDelete i) = true)
           (range pageCount) in
  extractPages pdfBytes pagesToKeep.

Definition drawHighlight (page : PDFPage) (annotation : Annotation.t)
    (pageHeight : Q) (color : Color) : Result PDFPage :=
  let rect := Annotation.rect annotation in
  draw page
    (DrawRectangle
       (Rect.x rect)
       (Double.sub (Double.sub pageHeight (Rect.y rect)) (Rect.height rect))
       (Rect.width rect)
       (Rect.height rect)
       (Some (rgb (red color) (green color) (blue color)))
       None None
       (Annotation.opacity annotation)).

Definition drawUnderline (page : PDFPage) (annotation : Annotation.t)
    (pageHeight : Q) (color : Color) : Result PDFPage :=
  let rect := Annotation.rect annotation in
  let y := Double.sub (Double.sub pageHeight (Rect.y rect)) (Rect.height rect) in
  draw page
    (DrawLine
       (Rect.x rect) y
       (Double.add (Rect.x rect) (Rect.width rect)) y
       2
       (rgb (red color) (green color) (blue color))
       (Annotation.opacity annotation)).

Definition drawStrikeout (page : PDFPage) (annotation : Annotation.t)
    (pageHeight : Q) (color : Color) : Result PDFPage :=
  let rect := Annotation.rect annotation in
  let y := Double.sub (Double.sub pageHeight (Rect.y rect))
                      (Double.div (Rect.height rect) 2) in
  draw page
    (DrawLine
       (Rect.x rect) y
       (Double.add (Rect.x rect) (Rect.width rect)) y
       2
       (rgb (red color) (green color) (blue color))
       (Annotation.opacity annotation)).

Definition drawRectangle (page : PDFPage) (annotation : Annotation.t)
    (pageHeight : Q) (color : Color) : Result PDFPage :=
  let rect := Annotation.rect annotation in
  draw page
    (DrawRectangle
       (Rect.x rect)
       (Double.sub (Double.sub pageHeight (Rect.y rect)) (Rect.height rect))
       (Rect.width rect)
       (Rect.height rect)
       None
       (Some (rgb (red color) (green color) (blue color)))
       (Some 2%Q)
       (Annotation.opacity annotation)).

Definition drawTextAnnotation (_pdfDoc : PDFDocument) (page : PDFPage)
    (annotation : Annotation.t) (pageHeight : Q) (color : Color)
  : Result PDFPage :=
  let rect := Annotation.rect annotation in
  match Annotation.content annotation with
  | None | Some EmptyString => Resolved page
  | Some content =>
      draw page
        (DrawText content
           (Rect.x rect)
           (Double.sub (Double.sub pageHeight (Rect.y rect)) (Rect.height rect))
           12
           (rgb (red color) (green color) (blue color))
           (Annotation.opacity annotation))
  end.

(** The body of the loop of [applyAnnotations] once the page is found. *)
Definition bake (pdfDoc : PDFDocument) (page : PDFPage)
    (annotation : Annotation.t) : Result PDFPage :=
  let pageHeight := PdfLib.height page in
  let* color := hexToRgb (Annotation.color annotation) in
  match Annotation.type annotation with
  | highlight => drawHighlight page annotation pageHeight color
  | underline => drawUnderline page annotation pageHeight color
  | strikeout => drawStrikeout page annotation pageHeight color
  | rectangle => drawRectangle page annotation pageHeight color
  | text => drawTextAnnotation pdfDoc page annotation pageHeight color
  | freeform | arrow => Resolved page
  end.

(** The loop of [applyAnnotations].  The page objects are those of the
    document: what a drawing method does to one is seen by [save]. *)
Fixpoint bakeAll (pdfDoc : PDFDocument) (annotations : list Annotation.t)
  : Result PDFDocument :=
  match annotations with
  | [] => Resolved pdfDoc
  | annotation :: rest =>
      match JS.index (getPages pdfDoc) (Annotation.pageIndex annotation) with
      | None => bakeAll pdfDoc rest
      | Some page =>
          let* drawn := bake pdfDoc page annotation in
          bakeAll
            (setPage pdfDoc (Z.to_nat (Annotation.pageIndex annotation)) drawn)
            rest
      end
  end.

Definition applyAnnotations (pdfBytes : Uint8Array)
    (annotations : list Annotation.t) : Result Uint8Array :=
  let* pdfDoc := load pdfBytes true in
  let* baked := bakeAll pdfDoc annotations in
  Resolved (save baked noOptions).

(** [Math.max(0, Math.round((1 - compressedSize / originalSize) * 100))] *)
Definition reduction (originalSize compressedSize : nat) : JS.Num :=
  let reductionPercent :=
    JS.round
      (JS.mul
         (JS.sub (JS.ofZ 1) (JS.div (JS.ofNat compressedSize)
                                    (JS.ofNat originalSize)))
         (JS.ofZ 100)) in
  JS.max (JS.ofZ 0) reductionPercent.

(** The metadata block of [compressPdf], run when [level >= 50]. *)
Definition stripMetadata (pdfDoc : PDFDocument) : PDFDocument :=
  let pdfDoc := setTitle pdfDoc "" in
  let pdfDoc := setAuthor pdfDoc "" in
  let pdfDoc := setSubject pdfDoc "" in
  let pdfDoc := setKeywords pdfDoc [] in
  let pdfDoc := setProducer pdfDoc "" in
  setCreator pdfDoc "".

(** The form block of [compressPdf], run when [level >= 75]: whatever is
    thrown inside is dropped, the document stays as the calls left it.
    With the document comes whether [getForm] has handed out the form. *)
Definition flattenIfAny (pdfDoc : PDFDocument) : PDFDocument * bool :=
  match getForm pdfDoc with
  | Some _ => (pdfDoc, false)
  | None =>
      match getFields pdfDoc with
      | Rejected _ => (pdfDoc, true)
      | Resolved formFields =>
          if (0 <? length formFields)%nat
          then (flatten pdfDoc, true)
          else (pdfDoc, true)
      end
  end.

(** The [try] block of [compressPdf], up to the saved bytes. *)
Definition compressedBytesOf (pdfBytes : Uint8Array) (level : CompressionLevel)
  : Result Uint8Array :=
  let* pdfDoc := load pdfBytes (levelValue level <? 50) in
  let pdfDoc := if 50 <=? levelValue level then stripMetadata pdfDoc else pdfDoc in
  let '(pdfDoc, formObtained) :=
    if 75 <=? levelValue level then flattenIfAny pdfDoc else (pdfDoc, false) in
  let options :=
    mkSaveOptions (Some true) (Some false)
      (Some (if 50 <=? levelValue level then 100 else 50)) in
  if formObtained : bool
  then saveWithForm pdfDoc options
  else Resolved (save pdfDoc options).

Definition compressPdf (pdfBytes : Uint8Array) (level : CompressionLevel)
  : Result CompressionResult.t :=
  let originalSize := byteLength pdfBytes in
  match compressedBytesOf pdfBytes level with
  | Resolved compressedBytes =>
      let compressedSize := byteLength compressedBytes in
      Resolved
        (CompressionResult.make true (Some compressedBytes)
           originalSize compressedSize
           (reduction originalSize compressedSize) None)
  | Rejected error =>
      Resolved
        (CompressionResult.make false None originalSize originalSize
           (JS.ofZ 0)
           (Some (JS.messageOr "Unknown error during compression" error)))
  end.

End PdfOperations.

(* ===================================================================== *)
(** * Node: file system and child processes *)
(* ===================================================================== *)

Module Node.

(** The calls the handler makes into [fs/promises], [child_process] and
    the console, in the order it makes them. *)
Inductive SysCall `{Library} : Type :=
| Mkdtemp (prefix : string)
| WriteFile (path : string) (data : Uint8Array)
| ExecFile (file : string) (args : list string)
| ReadFile (path : string)
| Rm (path : string)
| ConsoleError (error : Thrown).

(** How the machine answers each call.  The handler makes no call twice
    with the same arguments, so an answer per call describes a run. *)
Class Machine `{Library} : Type := {
  tmpdir : string;
  join : string -> string -> string;
  mkdtemp : string -> Result string;
  writeFile : string -> Uint8Array -> Result unit;
  execFile : string -> list string -> Result unit;
  readFile : string -> Result Uint8Array;
  rm : string -> Result unit
}.

(** A computation that makes calls: from the calls made so far to its
    outcome and the calls made after it. *)
Definition Action `{Library} (A : Type) : Type :=
  list SysCall -> Result A * list SysCall.

Definition pure `{Library} {A} (a : A) : Action A :=
  fun calls => (Resolved a, calls).

Definition andThen `{Library} {A B} (m : Action A) (k : A -> Action B)
  : Action B :=
  fun calls =>
    match m calls with
    | (Resolved a, calls') => k a calls'
    | (Rejected error, calls') => (Rejected error, calls')
    end.

Definition sys `{Library} {A} (call : SysCall) (answer : Result A)
  : Action A :=
  fun calls => (answer, calls ++ [call]).

End Node.

Import Node.

Notation "'await' x ':=' m 'in' k" := (Node.andThen m (fun x => k))
  (at level 10, x name, m at level 100, k at level 200, only parsing).

(* ===================================================================== *)
(** * packages/electron-app/src/main/index.ts: the [pdf:compress] handler *)
(* ===================================================================== *)

Section CompressHandler.
Context `{lib : Library} `{machine : !Machine}.

(** [settingsMap] *)
Definition settingsMap (level : CompressionLevel) : string :=
  match level with
  | Level75 => "/screen"
  | Level50 => "/ebook"
  | Level25 => "/printer"
  end.

Definition gsArgs (pdfsetting outputPath inputPath : string) : list string :=
  [ "-sDEVICE=pdfwrite";
    "-dCompatibilityLevel=1.4";
    "-dPDFSETTINGS=" +:+ pdfsetting;
    "-dNOPAUSE";
    "-dQUIET";
    "-dBATCH";
    "-sOutputFile=" +:+ outputPath;
    inputPath ].

Definition gsPaths : list string :=
  [ "/opt/homebrew/bin/gs";
    "/usr/local/bin/gs";
    "/usr/bin/gs";
    "gs" ].

(** The search for Ghostscript: the first candidate whose version check
    runs is adopted, [gsPath] keeps its initial value when none does. *)
Fixpoint findGs (paths : list string) (gsPath : string) : Action string :=
  match paths with
  | [] => pure gsPath
  | path :: rest =>
      fun calls =>
        match sys (ExecFile path ["--version"])
                  (execFile path ["--version"]) calls with
        | (Resolved _, calls') => (Resolved path, calls')
        | (Rejected _, calls') => findGs rest gsPath calls'
        end
  end.

(** The [try] block from the second statement on, [tempDir] being set. *)
Definition compressIn (tempDir : string) (bytes : Uint8Array)
    (level : CompressionLevel) : Action Uint8Array :=
  let inputPath := join tempDir "input.pdf" in
  let outputPath := join tempDir "output.pdf" in
  await _ := sys (WriteFile inputPath bytes) (writeFile inputPath bytes) in
  let pdfsetting := settingsMap level in
  let args := gsArgs pdfsetting outputPath inputPath in
  await gsPath := findGs gsPaths "gs" in
  await _ := sys (ExecFile gsPath args) (execFile gsPath args) in
  await compressedBuffer := sys (ReadFile outputPath) (readFile outputPath) in
  pure compressedBuffer.

(** The whole [try] block: the value [tempDir] is left with, and either
    the bytes read back or what was thrown. *)
Definition attempt (bytes : Uint8Array) (level : CompressionLevel)
    (calls : list SysCall)
  : option string * Result Uint8Array * list SysCall :=
  let prefix := join tmpdir "pdf-compress-" in
  match sys (Mkdtemp prefix) (mkdtemp prefix) calls with
  | (Rejected error, calls') => (None, Rejected error, calls')
  | (Resolved tempDir, calls') =>
      let '(outcome, calls'') := compressIn tempDir bytes level calls' in
      (Some tempDir, outcome, calls'')
  end.

(** The [finally] block: a failing removal is ignored. *)
Definition cleanup (tempDir : option string) (calls : list SysCall)
  : list SysCall :=
  match tempDir with
  | Some dir => snd (sys (Rm dir) (rm dir) calls)
  | None => calls
  end.

Definition compressHandler (bytes : Uint8Array) (level : CompressionLevel)
  : Action CompressionResult.t :=
  fun calls =>
    let originalSize := byteLength bytes in
    let '(tempDir, outcome, calls') := attempt bytes level calls in
    match outcome with
    | Resolved compressedBytes =>
        let compressedSize := byteLength compressedBytes in
        (Resolved
           (CompressionResult.make true (Some compressedBytes)
              originalSize compressedSize
              (reduction originalSize compressedSize) None),
         cleanup tempDir calls')
    | Rejected error =>
        (Resolved
           (CompressionResult.make false None originalSize originalSize
              (JS.ofZ 0)
              (Some (JS.messageOr
                 "Failed to compress PDF. Make sure Ghostscript is installed."
                 error))),
         cleanup tempDir (calls' ++ [ConsoleError error]))
    end.

End CompressHandler.

(* ===================================================================== *)
(** * The rest of packages/shared: document info, rotation, empty
      documents *)
(* ===================================================================== *)

Module PdfPageInfo.
Record t : Type := make {
  pageIndex : Z;
  width : Q;
  height : Q;
  rotation : Z
}.
End PdfPageInfo.

Module PdfDocumentInfo.
Record t : Type := make {
  title : option string;
  author : option string;
  subject : option string;
  keywords : option (list CodeUnits);
  creator : option string;
  producer : option string;
  creationDate : option Z;
  modificationDate : option Z;
  pageCount : Z;
  pages : list PdfPageInfo.t
}.
End PdfDocumentInfo.

(** [rotationDegrees: 0 | 90 | 180 | 270] *)
Inductive RotationDegrees : Type :=
| Degrees0
| Degrees90
| Degrees180
| Degrees270.

Definition degreesValue (rotationDegrees : RotationDegrees) : Z :=
  match rotationDegrees with
  | Degrees0 => 0
  | Degrees90 => 90
  | Degrees180 => 180
  | Degrees270 => 270
  end.

Module Text.

(** A file path, kept as a [string].  [s.split(separator)]: the pieces
    between the separators, one piece more than there are separators; the
    empty string gives one empty piece. *)
Fixpoint split (separator : Ascii.ascii) (s : string) : list string :=
  match s with
  | EmptyString => [EmptyString]
  | String c rest =>
      if bool_decide (c = separator)
      then EmptyString :: split separator rest
      else match split separator rest with
           | piece :: pieces => String c piece :: pieces
           | [] => [String c EmptyString]
           end
  end.

(** The number of code units of [s] equal to [c]. *)
Fixpoint count (c : Ascii.ascii) (s : string) : nat :=
  match s with
  | EmptyString => 0
  | String d rest => (if bool_decide (d = c) then 1 else 0) + count c rest
  end.

(** [c] is a code unit of [s]. *)
Fixpoint occurs (c : Ascii.ascii) (s : string) : Prop :=
  match s with
  | EmptyString => False
  | String d rest => d = c \/ occurs c rest
  end.

(** [array.pop()] on a non-mutated copy: the last element. *)
Definition pop (pieces : list string) : option string := last pieces.

End Text.

(** What [getPage(index)] or the method called on its result throws when
    [index] is the index of no page (the library's range check, or the
    access to a page that is not there). *)
Class PageAccess : Type := {
  noSuchPage : Z -> Z -> Thrown
}.

Section MoreOperations.
Context `{lib : Library} `{access : PageAccess}.

(** [doc.getPage(index)], used for the page to work on. *)
Definition getPage (doc : PDFDocument) (index : Z) : Result PDFPage :=
  match JS.index (getPages doc) index with
  | Some page => Resolved page
  | None => Rejected (noSuchPage index (getPageCount doc))
  end.

(** [page.setRotation(degrees(angle))] *)
Definition setRotation (page : PDFPage) (angle : Z) : PDFPage :=
  mkPage (PdfLib.width page) (PdfLib.height page) angle (PdfLib.content page).

(** [doc.addPage([width, height])]: a new blank page of that size. *)
Definition addBlankPage (doc : PDFDocument) (width height : Q) : PDFDocument :=
  addPage doc (mkPage width height 0 []).

Definition loadPdfInfo (bytes : Uint8Array) : Result PdfDocumentInfo.t :=
  let* pdfDoc := load bytes true in
  let pages := getPages pdfDoc in
  let pageInfos :=
    imap (fun index page =>
            PdfPageInfo.make (Z.of_nat index) (PdfLib.width page)
              (PdfLib.height page) (PdfLib.rotation page))
         pages in
  Resolved
    (PdfDocumentInfo.make
       (PdfLib.title pdfDoc)
       (PdfLib.author pdfDoc)
       (PdfLib.subject pdfDoc)
       (option_map (fun text => map JS.trim (JS.split 44 text))
                   (PdfLib.keywords pdfDoc))
       (PdfLib.creator pdfDoc)
       (PdfLib.producer pdfDoc)
       (PdfLib.creationDate pdfDoc)
       (PdfLib.modificationDate pdfDoc)
       (getPageCount pdfDoc)
       pageInfos).

Definition rotatePage (pdfBytes : Uint8Array) (pageIndex : Z)
    (rotationDegrees : RotationDegrees) : Result Uint8Array :=
  let* pdfDoc := load pdfBytes true in
  let* page := getPage pdfDoc pageIndex in
  let rotated := setRotation page (degreesValue rotationDegrees) in
  Resolved (save (setPage pdfDoc (Z.to_nat pageIndex) rotated) noOptions).

(** [createEmptyPdf(width = 612, height = 792)]: [None] is an argument
    left out. *)
Definition createEmptyPdf (width height : option Q) : Uint8Array :=
  let width := default 612%Q width in
  let height := default 792%Q height in
  let pdfDoc := create in
  let pdfDoc := addBlankPage pdfDoc width height in
  save pdfDoc noOptions.

End MoreOperations.

(* ===================================================================== *)
(** * packages/electron-app/src/main/index.ts: the other handlers *)
(* ===================================================================== *)

(** [{ success, data?, error? }], the answer of most handlers. *)
Module IpcResult.
Record t (A : Type) : Type := make {
  success : bool;
  data : option A;
  error : option string
}.
Arguments make {A} success data error.
Arguments success {A} _.
Arguments data {A} _.
Arguments error {A} _.
End IpcResult.

Module OpenDialogReturn.
Record t : Type := make { canceled : bool; filePaths : list string }.
End OpenDialogReturn.

Module SaveDialogReturn.
Record t : Type := make { canceled : bool; filePath : option string }.
End SaveDialogReturn.

(** What the user does with the dialog a handler shows; a dialog that
    cannot be shown rejects. *)
Class Desktop : Type := {
  showOpenDialog : Result OpenDialogReturn.t;
  showSaveDialog : Result SaveDialogReturn.t
}.

Section IpcHandlers.
Context `{lib : Library} `{utils : Utils} `{access : PageAccess}
        `{machine : !Machine} `{desktop : Desktop}.

(** [try { return { success: true, data: await f() } }
     catch (error) { return { success: false, error: ... } }] *)
Definition reply {A} (fallback : string) (outcome : Result A) : IpcResult.t A :=
  match outcome with
  | Resolved data => IpcResult.make true (Some data) None
  | Rejected error =>
      IpcResult.make false None (Some (JS.messageOr fallback error))
  end.

(** [dialog:openPdf] and [dialog:savePdf] have no [try]: a rejection goes
    to the caller. *)
Definition dialogOpenPdf : Result OpenDialogReturn.t := showOpenDialog.
Definition dialogSavePdf : Result SaveDialogReturn.t := showSaveDialog.

(** [pdf:read] *)
Definition pdfRead (filePath : string) (calls : list SysCall)
  : IpcResult.t Uint8Array * list SysCall :=
  let '(outcome, calls') := sys (ReadFile filePath) (readFile filePath) calls in
  (reply "Failed to read file" outcome, calls').

(** [pdf:write]: [{ success: true }] carries no data. *)
Definition pdfWrite (filePath : string) (data : Uint8Array)
    (calls : list SysCall) : IpcResult.t unit * list SysCall :=
  let '(outcome, calls') :=
    sys (WriteFile filePath data) (writeFile filePath data) calls in
  (match outcome with
   | Resolved _ => IpcResult.make true None None
   | Rejected error =>
       IpcResult.make false None
         (Some (JS.messageOr "Failed to write file" error))
   end,
   calls').

(** [pdf:getInfo] *)
Definition pdfGetInfo (bytes : Uint8Array) : IpcResult.t PdfDocumentInfo.t :=
  reply "Failed to load PDF info" (loadPdfInfo bytes).

(** [pdf:merge]: [mergePdfs] has caught everything already. *)
Definition pdfMerge (sources : list MergeSource.t) : MergeResult.t :=
  mergePdfs sources.

(** [pdf:applyAnnotations] *)
Definition pdfApplyAnnotations (bytes : Uint8Array)
    (annotations : list Annotation.t) : IpcResult.t Uint8Array :=
  reply "Failed to apply annotations" (applyAnnotations bytes annotations).

(** [pdf:reorderPages] *)
Definition pdfReorderPages (bytes : Uint8Array) (newOrder : list Z)
  : IpcResult.t Uint8Array :=
  reply "Failed to reorder pages" (reorderPages bytes newOrder).

(** [pdf:extractPages] *)
Definition pdfExtractPages (bytes : Uint8Array) (pageIndices : list Z)
  : IpcResult.t Uint8Array :=
  reply "Failed to extract pages" (extractPages bytes pageIndices).

(** [pdf:deletePages] *)
Definition pdfDeletePages (bytes : Uint8Array) (pageIndices : list Z)
  : IpcResult.t Uint8Array :=
  reply "Failed to delete pages" (deletePages bytes pageIndices).

End IpcHandlers.

(* ===================================================================== *)
(** * packages/electron-app/src/renderer/store/index.ts *)
(* ===================================================================== *)

Inductive ToolType : Type :=
| ToolSelect
| ToolHighlight
| ToolUnderline
| ToolStrikeout
| ToolText
| ToolDraw
| ToolEraser.

Module EditorTool.
Record t : Type := make {
  type : ToolType;
  color : option string;
  strokeWidth : option Q
}.
End EditorTool.

Module ViewportState.
Record t : Type := make {
  scale : Q;
  scrollX : Q;
  scrollY : Q;
  currentPage : Z
}.
(** [Partial<ViewportState>] *)
Record partial : Type := makePartial {
  newScale : option Q;
  newScrollX : option Q;
  newScrollY : option Q;
  newCurrentPage : option Z
}.
End ViewportState.

Module MergePageItem.
Record t : Type := make {
  id : string;
  sourceId : string;
  sourceFileName : string;
  pageIndex : Z;
  thumbnailDataUrl : option string
}.
End MergePageItem.

Module CurrentPdf.
Record t `{Library} : Type := make {
  fileName : string;
  filePath : string;
  bytes : Uint8Array;
  info : PdfDocumentInfo.t
}.
Arguments make {_} fileName filePath bytes info.
End CurrentPdf.

Module EditorState.
Record t `{Library} : Type := make {
  currentPdf : option CurrentPdf.t;
  annotations : list Annotation.t;
  currentTool : EditorTool.t;
  viewport : ViewportState.t;
  thumbnails : list string;
  mergeSources : list MergeSource.t;
  mergePages : list MergePageItem.t;
  isLoading : bool;
  error : option string
}.
Arguments make {_} currentPdf annotations currentTool viewport thumbnails
  mergeSources mergePages isLoading error.
End EditorState.

Section Store.
Context `{lib : Library} `{utils : Utils} `{access : PageAccess}
        `{machine : !Machine} `{desktop : Desktop}.

Definition initialViewport : ViewportState.t :=
  ViewportState.make 1 0 0 0.

Definition initialState : EditorState.t :=
  EditorState.make None [] (EditorTool.make ToolSelect None None)
    initialViewport [] [] [] false None.

(** [set({ isLoading, error })] and the like: the named entries change, the
    others stay. *)
Definition setLoadingError (state : EditorState.t) (loading : bool)
    (error : option string) : EditorState.t :=
  EditorState.make (EditorState.currentPdf state) (EditorState.annotations state)
    (EditorState.currentTool state) (EditorState.viewport state)
    (EditorState.thumbnails state) (EditorState.mergeSources state)
    (EditorState.mergePages state) loading error.

Definition setLoading (state : EditorState.t) (loading : bool) : EditorState.t :=
  setLoadingError state loading (EditorState.error state).

Definition setAnnotations (state : EditorState.t)
    (annotations : list Annotation.t) : EditorState.t :=
  EditorState.make (EditorState.currentPdf state) annotations
    (EditorState.currentTool state) (EditorState.viewport state)
    (EditorState.thumbnails state) (EditorState.mergeSources state)
    (EditorState.mergePages state) (EditorState.isLoading state)
    (EditorState.error state).

Definition setMerge (state : EditorState.t) (sources : list MergeSource.t)
    (pages : list MergePageItem.t) : EditorState.t :=
  EditorState.make (EditorState.currentPdf state) (EditorState.annotations state)
    (EditorState.currentTool state) (EditorState.viewport state)
    (EditorState.thumbnails state) sources pages
    (EditorState.isLoading state) (EditorState.error state).

(** [a || b] on strings that may be missing. *)
Definition orElse (text : option string) (fallback : string) : string :=
  match text with
  | None | Some EmptyString => fallback
  | Some given => given
  end.

(** [setViewport]: [{ ...state.viewport, ...viewport }] *)
Definition setViewport (state : EditorState.t) (change : ViewportState.partial)
  : EditorState.t :=
  let old := EditorState.viewport state in
  EditorState.make (EditorState.currentPdf state) (EditorState.annotations state)
    (EditorState.currentTool state)
    (ViewportState.make
       (default (ViewportState.scale old) (ViewportState.newScale change))
       (default (ViewportState.scrollX old) (ViewportState.newScrollX change))
       (default (ViewportState.scrollY old) (ViewportState.newScrollY change))
       (default (ViewportState.currentPage old)
                (ViewportState.newCurrentPage change)))
    (EditorState.thumbnails state) (EditorState.mergeSources state)
    (EditorState.mergePages state) (EditorState.isLoading state)
    (EditorState.error state).

Definition closePdf (state : EditorState.t) : EditorState.t :=
  EditorState.make None [] (EditorState.currentTool state) initialViewport []
    (EditorState.mergeSources state) (EditorState.mergePages state)
    (EditorState.isLoading state) (EditorState.error state).

(** [deleteAnnotation] *)
Definition deleteAnnotation (state : EditorState.t) (id : string)
  : EditorState.t :=
  setAnnotations state
    (filter (fun ann => Annotation.id ann <> id) (EditorState.annotations state)).

(** [addMergeSource]; [generated k] is what [generateId()] returned for the
    page at position [k] of the selection. *)
Definition addMergeSource (generated : nat -> string) (state : EditorState.t)
    (source : MergeSource.t) : EditorState.t :=
  let newMergePages :=
    imap (fun k pageIndex =>
            MergePageItem.make (generated k) (MergeSource.id source)
              (MergeSource.fileName source) pageIndex None)
         (MergeSource.selectedPages source) in
  setMerge state
    (EditorState.mergeSources state ++ [source])
    (EditorState.mergePages state ++ newMergePages).

Definition removeMergeSource (state : EditorState.t) (id : string)
  : EditorState.t :=
  setMerge state
    (filter (fun s => MergeSource.id s <> id) (EditorState.mergeSources state))
    (filter (fun p => MergePageItem.sourceId p <> id)
            (EditorState.mergePages state)).

Definition reorderMergePages (state : EditorState.t)
    (pages : list MergePageItem.t) : EditorState.t :=
  setMerge state (EditorState.mergeSources state) pages.

Definition clearMerge (state : EditorState.t) : EditorState.t :=
  setMerge state [] [].

(** The sources [executeMerge] sends: each with the pages the page list
    holds for it, in the order of the page list. *)
Definition orderedSources (mergeSources : list MergeSource.t)
    (mergePages : list MergePageItem.t) : list MergeSource.t :=
  map (fun source =>
         MergeSource.make (MergeSource.id source) (MergeSource.fileName source)
           (MergeSource.bytes source) (MergeSource.pageCount source)
           (map MergePageItem.pageIndex
              (filter (fun p => MergePageItem.sourceId p = MergeSource.id source)
                      mergePages)))
      mergeSources.

(** The end of [executeMerge] and of [compressPdf]: ask where to save,
    write there unless the dialog was cancelled, stop loading; a dialog
    that rejects lands in the [catch]. *)
Definition saveResult (fallback : string) (state : EditorState.t)
    (bytes : Uint8Array) (calls : list SysCall)
  : EditorState.t * list SysCall :=
  match dialogSavePdf with
  | Rejected error =>
      (setLoadingError state false (Some (JS.messageOr fallback error)), calls)
  | Resolved saveResult =>
      match SaveDialogReturn.canceled saveResult,
            SaveDialogReturn.filePath saveResult with
      | false, Some (String c rest) =>
          let '(_, calls') := pdfWrite (String c rest) bytes calls in
          (setLoadingError state false None, calls')
      | _, _ => (setLoadingError state false None, calls)
      end
  end.

Definition executeMerge (state : EditorState.t) (calls : list SysCall)
  : EditorState.t * list SysCall :=
  let mergeSources := EditorState.mergeSources state in
  let mergePages := EditorState.mergePages state in
  match mergeSources with
  | [] => (state, calls)
  | _ =>
      let result := pdfMerge (orderedSources mergeSources mergePages) in
      match MergeResult.success result, MergeResult.bytes result with
      | true, Some bytes => saveResult "Failed to merge PDFs" state bytes calls
      | _, _ =>
          (setLoadingError state false
             (Some (orElse (MergeResult.error result) "Merge failed")),
           calls)
      end
  end.

(** [compressPdf] of the store. *)
Definition storeCompressPdf (state : EditorState.t) (level : CompressionLevel)
    (calls : list SysCall) : EditorState.t * list SysCall :=
  match EditorState.currentPdf state with
  | None => (state, calls)
  | Some currentPdf =>
      match compressHandler (CurrentPdf.bytes currentPdf) level calls with
      | (Rejected error, calls') =>
          (setLoadingError state false
             (Some (JS.messageOr "Failed to compress PDF" error)),
           calls')
      | (Resolved result, calls') =>
          match CompressionResult.success result,
                CompressionResult.bytes result with
          | true, Some bytes =>
              saveResult "Failed to compress PDF" state bytes calls'
          | _, _ =>
              (setLoadingError state false
                 (Some (orElse (CompressionResult.error result)
                               "Compression failed")),
               calls')
          end
      end
  end.

Definition savePdf (state : EditorState.t) (calls : list SysCall)
  : EditorState.t * list SysCall :=
  match EditorState.currentPdf state with
  | None => (state, calls)
  | Some currentPdf =>
      match dialogSavePdf with
      | Rejected error =>
          (setLoadingError state false
             (Some (JS.messageOr "Failed to save PDF" error)),
           calls)
      | Resolved result =>
          match SaveDialogReturn.canceled result,
                SaveDialogReturn.filePath result with
          | false, Some (String c rest) =>
              let annotations := EditorState.annotations state in
              let bytesToSave :=
                if (0 <? length annotations)%nat
                then
                  let annotatedResult :=
                    pdfApplyAnnotations (CurrentPdf.bytes currentPdf)
                      annotations in
                  match IpcResult.success annotatedResult,
                        IpcResult.data annotatedResult with
                  | true, Some data => data
                  | _, _ => CurrentPdf.bytes currentPdf
                  end
                else CurrentPdf.bytes currentPdf in
              let '(_, calls') := pdfWrite (String c rest) bytesToSave calls in
              (setLoadingError state false None, calls')
          | _, _ => (setLoadingError state false None, calls)
          end
      end
  end.

(** [filePath.split('/').pop() || 'document.pdf'] *)
Definition fileNameOf (filePath : string) : string :=
  orElse (Text.pop (Text.split "/"%char filePath)) "document.pdf".

Definition openPdf (state : EditorState.t) (calls : list SysCall)
  : EditorState.t * list SysCall :=
  match dialogOpenPdf with
  | Rejected error =>
      (setLoadingError state false
         (Some (JS.messageOr "Failed to open PDF" error)),
       calls)
  | Resolved result =>
      match OpenDialogReturn.canceled result,
            OpenDialogReturn.filePaths result with
      | false, filePath :: _ =>
          let '(readResult, calls') := pdfRead filePath calls in
          match IpcResult.success readResult, IpcResult.data readResult with
          | true, Some bytes =>
              let infoResult := pdfGetInfo bytes in
              match IpcResult.success infoResult, IpcResult.data infoResult with
              | true, Some info =>
                  (EditorState.make
                     (Some (CurrentPdf.make (fileNameOf filePath) filePath
                              bytes info))
                     [] (EditorState.currentTool state) initialViewport
                     (EditorState.thumbnails state)
                     (EditorState.mergeSources state)
                     (EditorState.mergePages state) false None,
                   calls')
              | _, _ =>
                  (setLoadingError state false
                     (Some (orElse (IpcResult.error infoResult)
                                   "Failed to get PDF info")),
                   calls')
              end
          | _, _ =>
              (setLoadingError state false
                 (Some (orElse (IpcResult.error readResult)
                               "Failed to read PDF")),
               calls')
          end
      | _, _ => (setLoadingError state false None, calls)
      end
  end.

End Store.

(* ===================================================================== *)
(** * The toolbar and the annotation layer *)
(* ===================================================================== *)

Section Components.

(** [Math.min] and [Math.max] on finite numbers. *)
Definition mathMin (a b : Q) : Q := if Qle_bool a b then a else b.
Definition mathMax (a b : Q) : Q := if Qle_bool a b then b else a.
(** [Math.abs] *)
Definition mathAbs (a : Q) : Q := if Qle_bool 0 a then a else (- a)%Q.

(** [handleZoomIn] and [handleZoomOut] of the toolbar: the scale they
    pass to [setViewport].  The scale starts at 1 and moves by quarters,
    which doubles add and subtract without rounding. *)
Definition zoomIn (scale : Q) : Q := mathMin (scale + (1 # 4)) 3.
Definition zoomOut (scale : Q) : Q := mathMax (scale - (1 # 4)) (1 # 4).

(** The rectangle [handleMouseMove] keeps while the mouse is dragged from
    [startPoint] to [coords]; the two differences are rounded as any
    subtraction of doubles is. *)
Definition dragRect (startPoint coords : Point.t) : Rect.t :=
  Rect.make
    (mathMin (Point.x startPoint) (Point.x coords))
    (mathMin (Point.y startPoint) (Point.y coords))
    (mathAbs (Double.sub (Point.x coords) (Point.x startPoint)))
    (mathAbs (Double.sub (Point.y coords) (Point.y startPoint))).

End Components.

(* ===================================================================== *)
(** * A small library and machine to run the operations on *)
(* ===================================================================== *)

Module Sample.

(** A buffer is either what the writer produced for a document, or other
    bytes, which do not parse. *)
Inductive Buffer : Type :=
| Written (objectStreams : bool) (doc : PDFDocument)
| Other (size : nat).

Definition size (buffer : Buffer) : nat :=
  match buffer with
  | Written objectStreams doc =>
      (if objectStreams then 300 else 400) + 150 * length (pages doc)
  | Other size => size
  end%nat.

Definition inUnit (q : Q) : bool := Qle_bool 0 q && Qle_bool q 1.

Definition colorOk (c : Color) : bool :=
  inUnit (red c) && inUnit (green c) && inUnit (blue c).

Definition check (call : DrawCall) : option Thrown :=
  let ok :=
    match call with
    | DrawRectangle _ _ _ _ color borderColor _ opacity =>
        from_option colorOk true color
        && from_option colorOk true borderColor
        && inUnit opacity
    | DrawLine _ _ _ _ _ color opacity => colorOk color && inUnit opacity
    | DrawText _ _ _ _ color opacity => colorOk color && inUnit opacity
    end in
  if ok then None else Some (ErrorObject "value out of range").

(** Flattening takes the fields one by one; a field whose widget sits on
    no page stops it, the fields before it being gone already. *)
Fixpoint flattenFields (pageCount : Z) (remaining : list PDFField)
  : list PDFField * option Thrown :=
  match remaining with
  | [] => ([], None)
  | field :: rest =>
      if bool_decide (0 <= widgetPage field < pageCount)
      then flattenFields pageCount rest
      else (remaining, Some (ErrorObject "Could not find page for widget"))
  end.

Definition flatten (pages : list PDFPage) (fields : list PDFField)
  : list PDFPage * list PDFField * option Thrown :=
  let '(kept, thrown) := flattenFields (Z.of_nat (length pages)) fields in
  (pages, kept, thrown).

#[export] Instance library : Library := {|
  Uint8Array := Buffer;
  byteLength := size;
  parse buffer :=
    match buffer with
    | Written _ doc => Resolved doc
    | Other _ => Rejected (ErrorObject "Failed to parse PDF document")
    end;
  serialize := Written;
  now := 1767225600;
  checkDraw := check;
  getForm _ := None;
  getFields doc := Resolved (fields doc);
  flattenForm := flatten;
  updateFieldAppearances _ := None
|}.

(** The same library with a form machinery that cannot redraw a field. *)
Definition stale : Library := {|
  Uint8Array := Buffer;
  byteLength := size;
  parse buffer :=
    match buffer with
    | Written _ doc => Resolved doc
    | Other _ => Rejected (ErrorObject "Failed to parse PDF document")
    end;
  serialize := Written;
  now := 1767225600;
  checkDraw := check;
  getForm _ := None;
  getFields doc := Resolved (fields doc);
  flattenForm := flatten;
  updateFieldAppearances doc :=
    match fields doc with
    | [] => None
    | _ => Some (ErrorObject "WinAnsi cannot encode the field text")
    end
|}.

(** Colours written [#rrggbb] with the digits 0 and f only; anything else
    is black. *)
Definition channel (digits : string) : Q :=
  if bool_decide (digits = "ff") then 1 else 0.

#[export] Instance utils : Utils := {|
  hexToRgb hex :=
    Resolved (rgb (channel (String.substring 1 2 hex))
                  (channel (String.substring 3 2 hex))
                  (channel (String.substring 5 2 hex)))
|}.

(** A machine without Ghostscript: every attempt to start it fails. *)
Definition bare : Machine := {|
  tmpdir := "/tmp";
  join dir name := dir +:+ "/" +:+ name;
  mkdtemp prefix := Resolved (prefix +:+ "a1b2c3");
  writeFile _ _ := Resolved tt;
  execFile file _ := Rejected (ErrorObject ("spawn " +:+ file +:+ " ENOENT"));
  readFile _ :=
    Rejected (ErrorObject "ENOENT: no such file or directory");
  rm _ := Resolved tt
|}.

(** A machine with Ghostscript under [/usr/bin], which leaves [output]
    in the output file. *)
Definition equipped (output : Buffer) : Machine := {|
  tmpdir := "/tmp";
  join dir name := dir +:+ "/" +:+ name;
  mkdtemp prefix := Resolved (prefix +:+ "a1b2c3");
  writeFile _ _ := Resolved tt;
  execFile file _ :=
    if bool_decide (file = "/usr/bin/gs") then Resolved tt
    else Rejected (ErrorObject ("spawn " +:+ file +:+ " ENOENT"));
  readFile _ := Resolved output;
  rm _ := Resolved tt
|}.


Definition letter (marks : list DrawCall) : PDFPage :=
  mkPage 612 792 0 marks.

Definition mark (label : string) : DrawCall :=
  DrawText label 72 720 12 (rgb 0 0 0) 1.

(** Three Letter pages, told apart by a label drawn on each. *)
Definition report : PDFDocument :=
  mkDocument [letter [mark "one"]; letter [mark "two"]; letter [mark "three"]]
    (Some "Report") (Some "A. Writer") None None
    (Some "Editor") (Some "Acme PDF") (Some 1700000000) (Some 1700000000)
    [].

Definition memo : PDFDocument :=
  mkDocument [letter [mark "memo-1"]; letter [mark "memo-2"]]
    (Some "Memo") None None None None None None None
    [mkField "name" 0; mkField "signature" 7].

(** The report with the keywords entry [" alpha, beta gamma ,,"]. *)
Definition tagged : PDFDocument :=
  setKeywords report
    [JS.unitsOf " alpha,"; JS.unitsOf "beta gamma"; JS.unitsOf ",,"].

Definition reportBytes : Buffer := Written false report.
Definition memoBytes : Buffer := Written false memo.

(** A yellow highlight on the first page, 10 from the left and 20 from the
    top, 100 wide and 30 high. *)
Definition marker (type : AnnotationType) (pageIndex : Z) : Annotation.t :=
  Annotation.make "n1" type pageIndex (Rect.make 10 20 100 30)
    "#ffff00" (1 # 2) 1767225600 1767225600 (Some "note") None.

(** Pages 1 and 3 of the report, then page 2 of the memo. *)
Definition sourceA : MergeSource.t :=
  MergeSource.make "a" "report.pdf" reportBytes 3 [0; 2].
Definition sourceB : MergeSource.t :=
  MergeSource.make "b" "memo.pdf" memoBytes 2 [1].
(** A source that asks for a sixth page of the memo. *)
Definition sourceC : MergeSource.t :=
  MergeSource.make "c" "memo.pdf" memoBytes 2 [0; 5].

#[export] Instance access : PageAccess := {|
  noSuchPage index count := ErrorObject "index out of range"
|}.

(** Colours must be [#] and six more characters; anything else throws. *)
Definition strict : Utils := {|
  hexToRgb hex :=
    if bool_decide (String.length hex = 7%nat)
    then Resolved (rgb (channel (String.substring 1 2 hex))
                       (channel (String.substring 3 2 hex))
                       (channel (String.substring 5 2 hex)))
    else Rejected (ErrorObject "Invalid hex color")
|}.

(** The user picks [path] in every dialog. *)
Definition picking (path : string) : Desktop := {|
  showOpenDialog := Resolved (OpenDialogReturn.make false [path]);
  showSaveDialog := Resolved (SaveDialogReturn.make false (Some path))
|}.

(** A machine whose disk is full: nothing can be written; [content] is
    what every file reads as. *)
Definition readOnly (content : Buffer) : Machine := {|
  tmpdir := "/tmp";
  join dir name := dir +:+ "/" +:+ name;
  mkdtemp prefix := Rejected (ErrorObject "ENOSPC: no space left on device");
  writeFile _ _ := Rejected (ErrorObject "ENOSPC: no space left on device");
  execFile file _ := Rejected (ErrorObject ("spawn " +:+ file +:+ " ENOENT"));
  readFile _ := Resolved content;
  rm _ := Resolved tt
|}.

Definition item (id sourceId : string) (pageIndex : Z) : MergePageItem.t :=
  MergePageItem.make id sourceId "file.pdf" pageIndex None.

(** The report is open, with two annotations of which the second has a
    colour [strict] refuses. *)
Definition editing : EditorState.t :=
  EditorState.make
    (Some (CurrentPdf.make "report.pdf" "/home/user/report.pdf" reportBytes
             (PdfDocumentInfo.make None None None None None None None None 3 [])))
    [marker highlight 0;
     Annotation.make "n2" freeform 1 (Rect.make 0 0 10 10) "red" 1 0 0 None None]
    (EditorTool.make ToolHighlight None None)
    (ViewportState.make 1 0 0 0) [] [] [] false None.

(** Both sources are listed, the page list interleaves them. *)
Definition merging : EditorState.t :=
  EditorState.make None [] (EditorTool.make ToolSelect None None)
    (ViewportState.make 1 0 0 0) []
    [sourceA; sourceB]
    [item "p1" "a" 0; item "p2" "b" 1; item "p3" "a" 2]
    false None.

End Sample.

#[local] Existing Instance Sample.library | 100.
#[local] Existing Instance Sample.utils | 100.
#[local] Existing Instance Sample.access | 100.

(* ===================================================================== *)
(** * Vocabulary of the statements *)
(* ===================================================================== *)

Section Vocabulary.
Context `{lib : Library}.

(** [i] is the index of a page of [doc]. *)
Definition inRange (doc : PDFDocument) (i : Z) : Prop :=
  0 <= i < getPageCount doc.

#[global] Instance inRange_dec (doc : PDFDocument) (i : Z)
  : Decision (inRange doc i) :=
  and_dec (decide (0 <= i)) (decide (i < getPageCount doc)).

(** The pages of [doc] found under [indices], in the order of [indices]. *)
Definition pagesAt (doc : PDFDocument) (indices : list Z) : list PDFPage :=
  omap (JS.index (pages doc)) indices.

(** The selection of a merge source as the specification words it: the
    listed pages, or every page in ascending order when none is listed. *)
Definition resolved (selectedPages : list Z) (doc : PDFDocument) : list Z :=
  match selectedPages with
  | [] => seqZ 0 (getPageCount doc)
  | _ => selectedPages
  end.

(** The complement of [indices] among the page indices of [doc], ascending. *)
Definition complement (doc : PDFDocument) (indices : list Z) : list Z :=
  filter (fun i => i ∉ indices) (seqZ 0 (getPageCount doc)).

(** A fresh document holding [newPages]. *)
Definition fresh (newPages : list PDFPage) : PDFDocument :=
  mkDocument newPages None None None None
    (Some producerName) (Some producerName) (Some now) (Some now) [].

(** What a page set operation writes for the pages it selected: these
    pages, or the blank page of [save] when it selected none. *)
Definition written (selected : list PDFPage) : Uint8Array :=
  serialize true
    (fresh (match selected with [] => [blankPage] | _ => selected end)).

(** Strictly ascending. *)
Definition ascending (indices : list Z) : Prop :=
  forall (i j : nat) (a b : Z),
    indices !! i = Some a -> indices !! j = Some b -> (i < j)%nat -> a < b.


(** The most a rounding to the nearest double moves [q]: one part in
    [2^53] of it, or half the distance of subnormal numbers. *)
Definition roundingOf (q : Q) : Q :=
  (Qabs q * Double.pow2 (-53) + Double.pow2 (-1075))%Q.


(** An integer of less than 50 bits, as sizes given in whole points
    are. *)
Definition whole (q : Q) : Prop :=
  exists n : Z, Z.abs n < 2 ^ 50 /\ (q == inject_Z n)%Q.

(** The percentage of the specification for sizes [original > 0], before
    and after it is rounded and kept from going below 0:
    [(1 - compressed/original) * 100]. *)
Definition exactPercent (original compressed : nat) : Q :=
  ((1 - inject_Z (Z.of_nat compressed) / inject_Z (Z.of_nat original)) * 100)%Q.

Definition percent (original compressed : nat) : Z :=
  Z.max 0 (Qfloor (exactPercent original compressed + (1 # 2))%Q).

(** The same for a value that is [offset] away from the exact one. *)
Definition percentNear (offset : Q) (original compressed : nat) : Z :=
  Z.max 0 (Qfloor (exactPercent original compressed + offset + (1 # 2))%Q).

(** How far the three rounded operations of the code can take the value
    from the exact one: less than [2^-44]. *)
Definition slack : Q := Double.pow2 (-44).

(** An [Error] that says something. *)
Definition described (error : Thrown) : Prop :=
  error <> ErrorObject "".

(** The result the two compression passes give for a failure [error] on
    [bytes], up to the text that stands in for a missing message. *)
Definition failedWith (fallback : string) (bytes : Uint8Array)
    (error : Thrown) : CompressionResult.t :=
  CompressionResult.make false None (byteLength bytes) (byteLength bytes)
    (JS.ofZ 0) (Some (JS.messageOr fallback error)).

(** What the code makes of the percentage a result reports: the
    expression of the source on doubles; never below 0; for a file that
    is not empty an integer, the percentage of the specification for a
    value within [slack] of the exact one, hence that percentage or a
    neighbour of it; and 0 when nothing was gained. *)
Definition accounted (result : CompressionResult.t) : Prop :=
  let original := CompressionResult.originalSize result in
  let compressed := CompressionResult.compressedSize result in
  let reported := CompressionResult.reductionPercent result in
  reported =
    JS.max (JS.ofZ 0)
      (JS.round
         (JS.mul (JS.sub (JS.ofZ 1)
                         (JS.div (JS.ofNat compressed) (JS.ofNat original)))
                 (JS.ofZ 100))) /\
  JS.lt reported (JS.ofZ 0) = false /\
  ((0 < original)%nat ->
   exists k : Z,
     reported = JS.ofZ k /\
     percentNear (- slack) original compressed <= k /\
     k <= percentNear slack original compressed /\
     Z.abs (k - percent original compressed) <= 1) /\
  ((original <= compressed)%nat -> (0 < compressed)%nat ->
   reported = JS.ofZ 0).

(** The six entries of the information dictionary that [compressPdf]
    blanks. *)
Definition blanked (doc : PDFDocument) : Prop :=
  title doc = Some "" /\ author doc = Some "" /\ subject doc = Some "" /\
  keywords doc = Some [] /\ producer doc = Some "" /\ creator doc = Some "".

End Vocabulary.

Section MoreVocabulary.
Context `{lib : Library}.

(** The writer and the parser agree: what was written parses back. *)
Definition readsBack : Prop :=
  forall (objectStreams : bool) (doc : PDFDocument),
    parse (serialize objectStreams doc) = Resolved doc.

(** The entries of [first] found under the indices [second]. *)
Definition composed (first second : list Z) : list Z :=
  omap (JS.index first) second.

(** [page] with [calls] drawn after what it held. *)
Definition drawnOn (page : PDFPage) (calls : list DrawCall) : PDFPage :=
  mkPage (PdfLib.width page) (PdfLib.height page) (PdfLib.rotation page)
    (PdfLib.content page ++ calls).

(** The ids of the listed merge sources. *)
Definition sourceIds (sources : list MergeSource.t) : list string :=
  map MergeSource.id sources.

(** The pages the page list holds for the source [id], in its order. *)
Definition pagesOf (id : string) (mergePages : list MergePageItem.t)
  : list Z :=
  map MergePageItem.pageIndex
    (filter (fun p => MergePageItem.sourceId p = id) mergePages).

(** The merge state as the store builds it when pages are not dragged:
    sources have distinct ids, every page of the list belongs to a listed
    source, and the list holds for each source its selection. *)
Definition mergeKept (state : EditorState.t) : Prop :=
  NoDup (sourceIds (EditorState.mergeSources state)) /\
  (forall p, p ∈ EditorState.mergePages state ->
     MergePageItem.sourceId p ∈ sourceIds (EditorState.mergeSources state)) /\
  (forall source, source ∈ EditorState.mergeSources state ->
     pagesOf (MergeSource.id source) (EditorState.mergePages state) =
     MergeSource.selectedPages source).

(** A page as source id and page index: what is sent for the sources, in
    the order [mergePdfs] takes it, and what the page list shows. *)
Definition sent (sources : list MergeSource.t) : list (string * Z) :=
  flat_map (fun source =>
              map (fun i => (MergeSource.id source, i))
                  (MergeSource.selectedPages source))
           sources.

Definition listed (mergePages : list MergePageItem.t) : list (string * Z) :=
  map (fun p => (MergePageItem.sourceId p, MergePageItem.pageIndex p))
      mergePages.

(** The version check of a Ghostscript candidate. *)
Definition probe (path : string) : SysCall := ExecFile path ["--version"].

(** A call that works on files or runs a program; making or removing a
    directory and writing to the console are not. *)
Definition fileWork (call : SysCall) : Prop :=
  match call with
  | WriteFile _ _ | ExecFile _ _ | ReadFile _ => True
  | Mkdtemp _ | Rm _ | ConsoleError _ => False
  end.

(** A code unit that [trim] strips. *)
Definition white (c : Z) : Prop := c ∈ JS.whiteSpace.

(** [word] is [piece] without the white space at its two ends: what was
    taken off is white space only, and what is left neither starts nor
    ends with white space. *)
Definition trimmedOf (piece word : CodeUnits) : Prop :=
  exists before after,
    piece = before ++ word ++ after /\
    Forall white before /\ Forall white after /\
    (forall c, head word = Some c -> ~ white c) /\
    (forall c, last word = Some c -> ~ white c).

End MoreVocabulary.

(* ===================================================================== *)
(** * Rounding to the nearest double *)
(* ===================================================================== *)

Section Rounding.
Import Double.

Lemma pow2_positive (z : Z) : (0 < pow2 z)%Q.
Proof. by apply Qpower_0_lt. Qed.

Lemma pow2_plus (a b : Z) : (pow2 (a + b) == pow2 a * pow2 b)%Q.
Proof. by apply Qpower_plus. Qed.

Lemma pow2_le (a b : Z) : a <= b -> (pow2 a <= pow2 b)%Q.
Proof. intros Hle. by apply Qpower_le_compat_l. Qed.

Lemma pow2_lt_inv (a b : Z) : (pow2 a < pow2 b)%Q -> a < b.
Proof. intros Hlt. by apply (Qpower_lt_compat_l_inv 2). Qed.

Lemma pow2_integer (z : Z) : 0 <= z -> (pow2 z == inject_Z (2 ^ z))%Q.
Proof. intros Hz. symmetry. by apply (Zpower_Qpower 2). Qed.

Lemma pow2_succ (z : Z) : (pow2 (z + 1) == 2 * pow2 z)%Q.
Proof. rewrite pow2_plus. change (pow2 1) with 2%Q. ring. Qed.

Lemma pow2_pred (z : Z) : (pow2 (z - 1) == pow2 z / 2)%Q.
Proof.
  pose proof (pow2_succ (z - 1)) as Hsucc.
  replace (z - 1 + 1) with z in Hsucc by lia. rewrite Hsucc. field.
Qed.

(** The binade of a positive rational. *)
Lemma exponent_bracket (q : Q) :
  (0 < q)%Q -> (pow2 (exponent q) <= q)%Q /\ (q < pow2 (exponent q + 1))%Q.
Proof.
  destruct q as [n d]. intros Hpos.
  assert (0 < n) as Hn.
  { unfold Qlt in Hpos. simpl in Hpos. lia. }
  unfold exponent. simpl Qnum. simpl Qden.
  set (a := Z.log2 n). set (b := Z.log2 (Z.pos d)).
  destruct (Z.log2_spec n Hn) as [Hna Hna'].
  destruct (Z.log2_spec (Z.pos d) ltac:(lia)) as [Hdb Hdb'].
  fold a in Hna, Hna'. fold b in Hdb, Hdb'.
  assert (0 <= a) as Ha by apply Z.log2_nonneg.
  assert (0 <= b) as Hb by apply Z.log2_nonneg.
  assert (n # d == inject_Z n / inject_Z (Z.pos d))%Q as Hq.
  { rewrite Qmake_Qdiv. reflexivity. }
  assert (0 < inject_Z (Z.pos d))%Q as Hd by (unfold Qlt; simpl; lia).
  assert (pow2 a <= inject_Z n)%Q as Hn1.
  { rewrite pow2_integer by done. by rewrite <- Zle_Qle. }
  assert (inject_Z n < pow2 (a + 1))%Q as Hn2.
  { rewrite pow2_integer by lia. rewrite <- Zlt_Qlt.
    by replace (a + 1) with (Z.succ a) by lia. }
  assert (pow2 b <= inject_Z (Z.pos d))%Q as Hd1.
  { rewrite pow2_integer by done. by rewrite <- Zle_Qle. }
  assert (inject_Z (Z.pos d) < pow2 (b + 1))%Q as Hd2.
  { rewrite pow2_integer by lia. rewrite <- Zlt_Qlt.
    by replace (b + 1) with (Z.succ b) by lia. }
  pose proof (pow2_positive (a - b)) as Hk.
  pose proof (pow2_positive b) as Hpb.
  assert (pow2 a == pow2 (a - b) * pow2 b)%Q as Hsplit.
  { rewrite <- pow2_plus. by replace (a - b + b) with a by lia. }
  assert (pow2 (a - b - 1 + 1) == pow2 (a - b))%Q as Hsame.
  { by replace (a - b - 1 + 1) with (a - b) by lia. }
  assert (n # d < pow2 (a - b + 1))%Q as Hupper.
  { rewrite Hq. apply Qlt_shift_div_r; [done|].
    rewrite pow2_succ.
    apply Qlt_le_trans with (pow2 (a + 1)); [done|].
    rewrite pow2_succ, Hsplit.
    rewrite <- !Qmult_assoc. apply Qmult_le_l; [done|].
    apply Qmult_le_l; [done|]. done. }
  assert (pow2 (a - b - 1) <= n # d)%Q as Hlower.
  { rewrite Hq. apply Qle_shift_div_l; [done|].
    apply Qle_trans with (pow2 a); [|done].
    rewrite pow2_pred, Hsplit.
    apply Qle_trans with (pow2 (a - b) / 2 * pow2 (b + 1))%Q.
    - apply Qmult_le_l; [|by apply Qlt_le_weak].
      apply Qlt_shift_div_l; [done|]. by rewrite Qmult_0_l.
    - rewrite pow2_succ. apply Qle_lteq. right. field. }
  destruct (Qle_bool (pow2 (a - b)) (n # d)) eqn:Hcase.
  - apply Qle_bool_iff in Hcase. by split.
  - split; [done|]. rewrite Hsame.
    apply Qnot_le_lt. intros Hle. apply Qle_bool_iff in Hle. congruence.
Qed.


Lemma exponent_le (q : Q) (k : Z) :
  (0 < q)%Q -> (q <= pow2 k)%Q -> exponent q <= k.
Proof.
  intros Hpos Hle. destruct (exponent_bracket q Hpos) as [Hlow _].
  apply (Qpower_le_compat_l_inv 2); [|done].
  by apply Qle_trans with q.
Qed.

Lemma exponent_ge (q : Q) (k : Z) :
  (pow2 k <= q)%Q -> k <= exponent q.
Proof.
  intros Hle.
  assert (0 < q)%Q as Hpos.
  { apply Qlt_le_trans with (pow2 k); [apply pow2_positive|done]. }
  destruct (exponent_bracket q Hpos) as [_ Hhigh].
  assert (k < exponent q + 1); [|lia].
  apply pow2_lt_inv. by apply Qle_lt_trans with q.
Qed.

(** Rounding to the nearest integer. *)
Lemma nearestEven_close (q : Q) :
  (Qabs (inject_Z (nearestEven q) - q) <= 1 # 2)%Q.
Proof.
  unfold nearestEven.
  pose proof (Qfloor_le q) as Hlow. pose proof (Qlt_floor q) as Hhigh.
  rewrite inject_Z_plus in Hhigh. change (inject_Z 1) with 1%Q in Hhigh.
  apply Qabs_Qle_condition.
  destruct (q - inject_Z (Qfloor q) ?= 1 # 2)%Q eqn:Hcase.
  - apply Qeq_alt in Hcase.
    destruct (Z.even (Qfloor q)); rewrite ?inject_Z_plus;
      change (inject_Z 1) with 1%Q; split; lra.
  - apply Qlt_alt in Hcase. split; lra.
  - apply Qgt_alt in Hcase. rewrite inject_Z_plus.
    change (inject_Z 1) with 1%Q. split; lra.
Qed.

Lemma nearestEven_least (q : Q) (n : Z) :
  (inject_Z n <= q)%Q -> n <= nearestEven q.
Proof.
  intros Hle. apply Qfloor_resp_le in Hle. rewrite Qfloor_Z in Hle.
  unfold nearestEven.
  destruct (q - inject_Z (Qfloor q) ?= 1 # 2)%Q; [destruct (Z.even _)| |]; lia.
Qed.

Lemma nearestEven_most (q : Q) (n : Z) :
  (q <= inject_Z n)%Q -> nearestEven q <= n.
Proof.
  intros Hle. unfold nearestEven.
  pose proof (Qfloor_le q) as Hlow.
  assert (Qfloor q <= n) as Hfloor.
  { apply Qfloor_resp_le in Hle. by rewrite Qfloor_Z in Hle. }
  destruct (Z.eq_dec (Qfloor q) n) as [Hsame|Hless].
  - assert ((q - inject_Z (Qfloor q) ?= 1 # 2)%Q = Lt) as ->; [|lia].
    apply -> Qlt_alt. rewrite Hsame. lra.
  - destruct (q - inject_Z (Qfloor q) ?= 1 # 2)%Q; [destruct (Z.even _)| |]; lia.
Qed.

Lemma nearestEven_integer (n : Z) : nearestEven (inject_Z n) = n.
Proof.
  apply Z.le_antisymm.
  - apply nearestEven_most. apply Qle_refl.
  - apply nearestEven_least. apply Qle_refl.
Qed.

Lemma nearestEven_proper (p q : Q) : (p == q)%Q -> nearestEven p = nearestEven q.
Proof.
  intros Hsame. unfold nearestEven.
  assert (Qfloor p = Qfloor q) as -> by by rewrite Hsame.
  assert ((p - inject_Z (Qfloor q) ?= 1 # 2) = (q - inject_Z (Qfloor q) ?= 1 # 2))%Q
    as -> by by rewrite Hsame.
  done.
Qed.

(** The rounded magnitude of a positive rational. *)
Lemma magnitude_value (q : Q) :
  (magnitude q ==
   inject_Z (nearestEven (q / pow2 (spacing q))) * pow2 (spacing q))%Q.
Proof. unfold magnitude. apply Qred_correct. Qed.

Lemma magnitude_close (q : Q) :
  (Qabs (magnitude q - q) <= pow2 (spacing q - 1))%Q.
Proof.
  rewrite magnitude_value. set (t := spacing q).
  pose proof (pow2_positive t) as Ht.
  pose proof (nearestEven_close (q / pow2 t)) as Hclose.
  set (m := inject_Z (nearestEven (q / pow2 t))) in *.
  assert (m * pow2 t - q == (m - q / pow2 t) * pow2 t)%Q as -> by (field; lra).
  rewrite Qabs_Qmult, (Qabs_pos (pow2 t)) by lra.
  rewrite pow2_pred.
  apply Qle_trans with ((1 # 2) * pow2 t)%Q.
  - by apply Qmult_le_compat_r; [|lra].
  - apply Qle_lteq. right. field.
Qed.

Lemma magnitude_nonnegative (q : Q) : (0 < q)%Q -> (0 <= magnitude q)%Q.
Proof.
  intros Hpos. rewrite magnitude_value.
  pose proof (pow2_positive (spacing q)) as Ht.
  apply Qmult_le_0_compat; [|lra].
  change 0%Q with (inject_Z 0). rewrite <- Zle_Qle.
  apply nearestEven_least. change (inject_Z 0) with 0%Q.
  apply Qle_shift_div_l; [done|]. lra.
Qed.

Lemma magnitude_least (q : Q) (k : Z) :
  -1074 <= k -> (pow2 k <= q)%Q -> (pow2 k <= magnitude q)%Q.
Proof.
  intros Hk Hle. pose proof (exponent_ge q k Hle) as He.
  assert (0 < q)%Q as Hpos.
  { apply Qlt_le_trans with (pow2 k); [apply pow2_positive|done]. }
  destruct (exponent_bracket q Hpos) as [Hlow _].
  rewrite magnitude_value. set (t := spacing q).
  assert (t <= exponent q) as Ht by (unfold t, spacing; lia).
  pose proof (pow2_positive t) as Hpt.
  apply Qle_trans with (pow2 (exponent q)); [by apply pow2_le|].
  assert (pow2 (exponent q) == inject_Z (2 ^ (exponent q - t)) * pow2 t)%Q as ->.
  { rewrite <- pow2_integer by lia. rewrite <- pow2_plus.
    by replace (exponent q - t + t) with (exponent q) by lia. }
  apply Qmult_le_compat_r; [|lra].
  rewrite <- Zle_Qle. apply nearestEven_least.
  apply Qle_shift_div_l; [done|].
  rewrite <- pow2_integer by lia. rewrite <- pow2_plus.
  by replace (exponent q - t + t) with (exponent q) by lia.
Qed.

Lemma magnitude_most (q : Q) (k : Z) :
  -1022 <= k -> (0 < q)%Q -> (q <= pow2 k)%Q -> (magnitude q <= pow2 k)%Q.
Proof.
  intros Hk Hpos Hle. pose proof (exponent_le q k Hpos Hle) as He.
  rewrite magnitude_value. set (t := spacing q).
  assert (t <= k) as Ht by (unfold t, spacing; lia).
  pose proof (pow2_positive t) as Hpt.
  assert (pow2 k == inject_Z (2 ^ (k - t)) * pow2 t)%Q as Hsplit.
  { rewrite <- pow2_integer by lia. rewrite <- pow2_plus.
    by replace (k - t + t) with k by lia. }
  rewrite Hsplit.
  apply Qmult_le_compat_r; [|lra].
  rewrite <- Zle_Qle. apply nearestEven_most.
  apply Qle_shift_div_r; [done|]. by rewrite <- Hsplit.
Qed.

Lemma magnitude_close_below (q : Q) (k : Z) :
  -1022 <= k -> (0 < q)%Q -> (q <= pow2 k)%Q ->
  (Qabs (magnitude q - q) <= pow2 (k - 53))%Q.
Proof.
  intros Hk Hpos Hle. pose proof (exponent_le q k Hpos Hle) as He.
  apply Qle_trans with (pow2 (spacing q - 1)); [apply magnitude_close|].
  apply pow2_le. unfold spacing. lia.
Qed.

Lemma magnitude_exact (j s : Z) :
  0 < j < 2 ^ 53 -> -1074 <= s ->
  magnitude (inject_Z j * pow2 s) = Qred (inject_Z j * pow2 s).
Proof.
  intros [Hlow Hhigh] Hs. set (q := (inject_Z j * pow2 s)%Q).
  pose proof (pow2_positive s) as Hps.
  assert (0 < inject_Z j)%Q as Hj by (change 0%Q with (inject_Z 0); by rewrite <- Zlt_Qlt).
  assert (0 < q)%Q as Hpos by (unfold q; nra).
  destruct (exponent_bracket q Hpos) as [Hbelow _].
  unfold magnitude. apply Qred_complete. set (t := spacing q).
  assert (exponent q - s < 53) as He.
  { apply Z.lt_sub_lt_add_r. apply pow2_lt_inv.
    apply Qle_lt_trans with q; [done|]. unfold q.
    rewrite pow2_plus. apply Qmult_lt_compat_r; [done|].
    rewrite pow2_integer by lia. by rewrite <- Zlt_Qlt. }
  assert (t <= s) as Ht by (unfold t, spacing; lia).
  pose proof (pow2_positive t) as Hpt.
  assert (q / pow2 t == inject_Z (j * 2 ^ (s - t)))%Q as Hwhole.
  { unfold q. rewrite inject_Z_mult, <- pow2_integer by lia.
    assert (pow2 s == pow2 (s - t) * pow2 t)%Q as ->.
    { rewrite <- pow2_plus. by replace (s - t + t) with s by lia. }
    field. lra. }
  rewrite (nearestEven_proper _ _ Hwhole), nearestEven_integer.
  rewrite <- Hwhole. field. lra.
Qed.

(** Rounding of any rational. *)
Lemma nearest_zero : nearest 0 = 0%Q.
Proof. done. Qed.

Lemma nearest_positive (q : Q) : (0 < q)%Q -> nearest q = magnitude q.
Proof.
  intros Hpos. unfold nearest.
  assert ((q ?= 0)%Q = Gt) as -> by by apply -> Qgt_alt.
  done.
Qed.

Lemma nearest_negative (q : Q) : (q < 0)%Q -> nearest q = (- magnitude (- q))%Q.
Proof.
  intros Hneg. unfold nearest.
  assert ((q ?= 0)%Q = Lt) as -> by by apply -> Qlt_alt.
  done.
Qed.

Lemma nearest_cases (q : Q) :
  (q == 0 /\ nearest q = 0)%Q \/
  ((0 < q)%Q /\ nearest q = magnitude q) \/
  ((q < 0)%Q /\ nearest q = (- magnitude (- q))%Q).
Proof.
  unfold nearest. destruct (q ?= 0)%Q eqn:Hcase.
  - left. split; [by apply Qeq_alt|done].
  - right; right. split; [by apply Qlt_alt|done].
  - right; left. split; [by apply Qgt_alt|done].
Qed.

Lemma nearest_sign (q : Q) :
  ((0 <= q)%Q -> (0 <= nearest q)%Q) /\ ((q <= 0)%Q -> (nearest q <= 0)%Q).
Proof.
  destruct (nearest_cases q) as [[Hq ->]|[[Hq ->]|[Hq ->]]].
  - split; intros _; lra.
  - pose proof (magnitude_nonnegative q Hq). split; intros ?; lra.
  - pose proof (magnitude_nonnegative (- q) ltac:(lra)). split; intros ?; lra.
Qed.

Lemma nearest_close (q : Q) (k : Z) :
  -1022 <= k -> (Qabs q <= pow2 k)%Q ->
  (Qabs (nearest q - q) <= pow2 (k - 53))%Q /\ (Qabs (nearest q) <= pow2 k)%Q.
Proof.
  intros Hk Hle. apply Qabs_Qle_condition in Hle as [Hlow Hhigh].
  pose proof (pow2_positive (k - 53)) as Hp. pose proof (pow2_positive k) as Hpk.
  destruct (nearest_cases q) as [[Hq ->]|[[Hq ->]|[Hq ->]]].
  - split; apply Qabs_Qle_condition; split; lra.
  - pose proof (magnitude_close_below q k Hk Hq Hhigh) as Hclose.
    pose proof (magnitude_most q k Hk Hq Hhigh).
    pose proof (magnitude_nonnegative q Hq).
    split; [done|]. apply Qabs_Qle_condition. split; lra.
  - pose proof (magnitude_close_below (- q) k Hk ltac:(lra) ltac:(lra)) as Hclose.
    pose proof (magnitude_most (- q) k Hk ltac:(lra) ltac:(lra)).
    pose proof (magnitude_nonnegative (- q) ltac:(lra)).
    apply Qabs_Qle_condition in Hclose as [? ?].
    split; apply Qabs_Qle_condition; split; lra.
Qed.

Lemma nearest_least (q : Q) (k : Z) :
  -1074 <= k -> (pow2 k <= q)%Q -> (pow2 k <= nearest q)%Q.
Proof.
  intros Hk Hle. pose proof (pow2_positive k).
  rewrite nearest_positive by lra. by apply magnitude_least.
Qed.

Lemma exponent_proper (p q : Q) :
  (0 < p)%Q -> (p == q)%Q -> exponent p = exponent q.
Proof.
  intros Hpos Hsame.
  destruct (exponent_bracket p Hpos) as [Hp Hp'].
  destruct (exponent_bracket q ltac:(lra)) as [Hq Hq'].
  assert (exponent p < exponent q + 1).
  { apply pow2_lt_inv. lra. }
  assert (exponent q < exponent p + 1).
  { apply pow2_lt_inv. lra. }
  lia.
Qed.

Lemma magnitude_proper (p q : Q) :
  (0 < p)%Q -> (p == q)%Q -> magnitude p = magnitude q.
Proof.
  intros Hpos Hsame. unfold magnitude, spacing.
  rewrite (exponent_proper p q Hpos Hsame).
  apply Qred_complete.
  rewrite (nearestEven_proper (p / pow2 (Z.max (exponent q - 52) (-1074)))
             (q / pow2 (Z.max (exponent q - 52) (-1074)))); [done|].
  by rewrite Hsame.
Qed.

Lemma nearest_proper (p q : Q) : (p == q)%Q -> nearest p = nearest q.
Proof.
  intros Hsame.
  destruct (nearest_cases p) as [[Hp ->]|[[Hp ->]|[Hp ->]]].
  - unfold nearest. assert ((q ?= 0)%Q = Eq) as ->; [|done].
    apply -> Qeq_alt. lra.
  - rewrite nearest_positive by lra. by apply magnitude_proper.
  - rewrite nearest_negative by lra.
    f_equal. apply magnitude_proper; lra.
Qed.

Lemma nearest_exact (j s : Z) :
  Z.abs j < 2 ^ 53 -> -1074 <= s ->
  nearest (inject_Z j * pow2 s) = Qred (inject_Z j * pow2 s).
Proof.
  intros Hj Hs. pose proof (pow2_positive s) as Hps.
  destruct (Z.lt_trichotomy j 0) as [Hneg|[->|Hpos]].
  - assert (inject_Z j < 0)%Q as Hq
      by (change 0%Q with (inject_Z 0); by rewrite <- Zlt_Qlt).
    rewrite nearest_negative by nra.
    assert (- (inject_Z j * pow2 s) == inject_Z (- j) * pow2 s)%Q as Hopp
      by (rewrite inject_Z_opp; ring).
    assert (0 < - (inject_Z j * pow2 s))%Q as Hpositive by nra.
    rewrite (magnitude_proper _ _ Hpositive Hopp).
    rewrite magnitude_exact by lia.
    rewrite <- Qred_opp. apply Qred_complete. rewrite inject_Z_opp. ring.
  - by rewrite (nearest_proper _ 0) by ring.
  - assert (0 < inject_Z j)%Q as Hq
      by (change 0%Q with (inject_Z 0); by rewrite <- Zlt_Qlt).
    rewrite nearest_positive by nra. apply magnitude_exact; lia.
Qed.

Lemma nearest_integer (n : Z) :
  Z.abs n < 2 ^ 53 -> nearest (inject_Z n) = inject_Z n.
Proof.
  intros Hn.
  rewrite (nearest_proper _ (inject_Z n * pow2 0)) by (change (pow2 0) with 1%Q; ring).
  rewrite nearest_exact by lia.
  rewrite (Qred_complete _ (inject_Z n)) by (change (pow2 0) with 1%Q; ring).
  apply Qred_identity. simpl. apply Z.gcd_1_r.
Qed.


Lemma nearest_opp (q : Q) : nearest (- q) = (- nearest q)%Q.
Proof.
  destruct (nearest_cases q) as [[Hq ->]|[[Hq ->]|[Hq ->]]].
  - assert (- q == 0)%Q as Hopp by (rewrite Hq; reflexivity).
    by rewrite (nearest_proper (- q) 0 Hopp).
  - rewrite nearest_negative by lra. f_equal. apply magnitude_proper; lra.
  - rewrite nearest_positive by lra.
    destruct (magnitude (- q)) as [n d]. unfold Qopp. simpl.
    by rewrite Z.opp_involutive.
Qed.

Lemma magnitude_rounding (q : Q) :
  (0 < q)%Q ->
  (Qabs (magnitude q - q) <= q * pow2 (-53) + pow2 (-1075))%Q.
Proof.
  intros Hpos. destruct (exponent_bracket q Hpos) as [Hlow _].
  apply Qle_trans with (pow2 (spacing q - 1)); [apply magnitude_close|].
  pose proof (pow2_positive (-53)) as H53.
  pose proof (pow2_positive (-1075)) as H1075.
  pose proof (pow2_positive (exponent q)) as He.
  unfold spacing.
  destruct (Z.max_spec (exponent q - 52) (-1074)) as [[_ ->]|[_ ->]].
  - change (-1074 - 1) with (-1075). nra.
  - replace (exponent q - 52 - 1) with (exponent q + -53) by lia.
    rewrite pow2_plus. nra.
Qed.

Lemma nearest_rounding (q : Q) :
  (Qabs (nearest q - q) <= Qabs q * pow2 (-53) + pow2 (-1075))%Q.
Proof.
  pose proof (pow2_positive (-53)) as H53.
  pose proof (pow2_positive (-1075)) as H1075.
  destruct (nearest_cases q) as [[Hq ->]|[[Hq ->]|[Hq ->]]].
  - pose proof (Qabs_nonneg q).
    assert (Qabs (0 - q) == 0)%Q as ->; [|nra].
    rewrite Hq. reflexivity.
  - rewrite (Qabs_pos q) by lra. by apply magnitude_rounding.
  - rewrite (Qabs_neg q) by lra.
    pose proof (magnitude_rounding (- q) ltac:(lra)) as Hclose.
    assert (- magnitude (- q) - q == - (magnitude (- q) - - q))%Q as -> by ring.
    by rewrite Qabs_opp.
Qed.

End Rounding.

(* ===================================================================== *)
(** * Page set operations *)
(* ===================================================================== *)

Section PageSets.
Context `{lib : Library}.

Lemma index_in_range (doc : PDFDocument) (i : Z) :
  inRange doc i -> is_Some (JS.index (pages doc) i).
Proof.
  unfold inRange, getPageCount, JS.index. intros [Hlo Hhi].
  rewrite decide_True by done.
  apply lookup_lt_is_Some. lia.
Qed.

Lemma index_out_of_range (doc : PDFDocument) (i : Z) :
  ~ inRange doc i -> JS.index (pages doc) i = None.
Proof.
  unfold inRange, getPageCount, JS.index. intros Hout.
  destruct (decide (0 <= i)) as [Hlo|]; [|done].
  apply lookup_ge_None. lia.
Qed.

Lemma copyPages_in_range (doc : PDFDocument) (indices : list Z) :
  Forall (inRange doc) indices ->
  copyPages doc indices = Resolved (pagesAt doc indices).
Proof.
  induction 1 as [|i rest Hi _ IH]; [done|].
  destruct (index_in_range _ _ Hi) as [page Hpage].
  unfold pagesAt in *. simpl. unfold getPages. rewrite Hpage, IH. done.
Qed.

Lemma copyPages_out_of_range (doc : PDFDocument) (indices : list Z) :
  Exists (fun i => ~ inRange doc i) indices ->
  copyPages doc indices = Rejected missingPage.
Proof.
  induction 1 as [i rest Hi|i rest _ IH]; simpl; unfold getPages.
  - rewrite (index_out_of_range _ _ Hi). done.
  - destruct (JS.index (pages doc) i); [|done]. rewrite IH. done.
Qed.

Lemma copyPages_loaded (doc : PDFDocument) (indices : list Z) :
  copyPages (updateInfoDict doc) indices = copyPages doc indices.
Proof.
  induction indices as [|i rest IH]; [done|].
  simpl. unfold getPages. simpl. by rewrite IH.
Qed.

Lemma length_pagesAt (doc : PDFDocument) (indices : list Z) :
  Forall (inRange doc) indices ->
  length (pagesAt doc indices) = length indices.
Proof.
  induction 1 as [|i rest Hi _ IH]; [done|].
  destruct (index_in_range _ _ Hi) as [page Hpage].
  unfold pagesAt in *. cbn. rewrite Hpage. cbn. by f_equal.
Qed.

Lemma addPages_pages (doc : PDFDocument) (copied : list PDFPage) :
  addPages doc copied =
  mkDocument (pages doc ++ copied) (title doc) (author doc) (subject doc)
    (keywords doc) (creator doc) (producer doc) (creationDate doc)
    (modificationDate doc) (fields doc).
Proof.
  revert doc. induction copied as [|page rest IH]; intros doc.
  - unfold addPages. simpl. rewrite app_nil_r. by destruct doc.
  - change (addPages doc (page :: rest))
      with (addPages (addPage doc page) rest).
    rewrite IH. simpl. by rewrite <- app_assoc.
Qed.

Lemma addPages_fresh (before copied : list PDFPage) :
  addPages (fresh before) copied = fresh (before ++ copied).
Proof. by rewrite addPages_pages. Qed.

Lemma create_fresh : create = fresh [].
Proof. done. Qed.

Lemma save_fresh (selected : list PDFPage) :
  save (fresh selected) noOptions = written selected.
Proof.
  unfold save, written, prepareForSave. simpl.
  destruct selected as [|page rest]; [done|].
  unfold getPageCount. simpl. done.
Qed.

Lemma load_parsed (bytes : Uint8Array) (doc : PDFDocument) (update : bool) :
  parse bytes = Resolved doc ->
  load bytes update = Resolved (if update then updateInfoDict doc else doc).
Proof. intros Hdoc. unfold load. by rewrite Hdoc. Qed.

Lemma pagesToCopy_resolved (source : MergeSource.t) (doc : PDFDocument) :
  pagesToCopy source (updateInfoDict doc) =
  resolved (MergeSource.selectedPages source) doc.
Proof.
  unfold pagesToCopy, resolved.
  by destruct (MergeSource.selectedPages source).
Qed.

Lemma range_in_range (doc : PDFDocument) :
  Forall (inRange doc) (seqZ 0 (getPageCount doc)).
Proof. apply Forall_seqZ. unfold inRange. lia. Qed.

Lemma resolved_in_range (selectedPages : list Z) (doc : PDFDocument) :
  Forall (inRange doc) selectedPages ->
  Forall (inRange doc) (resolved selectedPages doc).
Proof.
  intros Hvalid. destruct selectedPages; [apply range_in_range|done].
Qed.

Lemma ascending_seqZ (m n : Z) : ascending (seqZ m n).
Proof.
  intros i j a b Ha Hb Hij.
  apply lookup_seqZ in Ha as [-> _]. apply lookup_seqZ in Hb as [-> _]. lia.
Qed.

Lemma ascending_cons_inv (a : Z) (l : list Z) :
  ascending (a :: l) -> ascending l /\ Forall (fun b => a < b) l.
Proof.
  intros Hasc. split.
  - intros i j x y Hx Hy Hij. apply (Hasc (S i) (S j)); [done..|lia].
  - apply Forall_lookup. intros i b Hb. apply (Hasc 0%nat (S i)); [done..|lia].
Qed.

Lemma ascending_cons (a : Z) (l : list Z) :
  ascending l -> Forall (fun b => a < b) l -> ascending (a :: l).
Proof.
  intros Hasc Hall i j x y Hx Hy Hij.
  destruct j as [|j]; [lia|]. simpl in Hy.
  destruct i as [|i]; simpl in Hx.
  - injection Hx as <-. by eapply Forall_lookup_1 in Hall.
  - apply (Hasc i j); [done..|lia].
Qed.

Lemma ascending_filter (P : Z -> Prop) `{!forall i, Decision (P i)}
    (l : list Z) :
  ascending l -> ascending (filter P l).
Proof.
  induction l as [|a l IH]; [done|].
  intros [Hasc Hall]%ascending_cons_inv.
  rewrite filter_cons. destruct (decide (P a)); [|by apply IH].
  apply ascending_cons; [by apply IH|].
  apply Forall_forall. intros b [_ Hb]%list_elem_of_filter.
  by eapply Forall_forall in Hall.
Qed.

Lemma pagesAt_lookup (doc : PDFDocument) (indices : list Z) (k : nat) :
  Forall (inRange doc) indices ->
  pagesAt doc indices !! k = indices !! k ≫= JS.index (pages doc).
Proof.
  intros Hvalid. revert k.
  induction Hvalid as [|i rest Hi _ IH]; intros k; [done|].
  destruct (index_in_range _ _ Hi) as [page Hpage].
  unfold pagesAt in *. cbn. rewrite Hpage. cbn.
  destruct k as [|k]; cbn; [done|apply IH].
Qed.

Lemma mergeSources_selected (sources : list MergeSource.t)
    (docs : list PDFDocument) (before : list PDFPage) :
  Forall2 (fun source doc =>
             parse (MergeSource.bytes source) = Resolved doc /\
             Forall (inRange doc) (MergeSource.selectedPages source))
          sources docs ->
  mergeSources (fresh before) sources =
  Resolved
    (fresh (before ++
            concat (zip_with pagesAt docs
                      (zip_with (fun source doc =>
                                   resolved (MergeSource.selectedPages source) doc)
                                sources docs)))).
Proof.
  intros Hall. revert before.
  induction Hall as [|source doc sources docs [Hdoc Hvalid] _ IH]; intros before.
  - simpl. by rewrite app_nil_r.
  - simpl. rewrite (load_parsed _ _ _ Hdoc). simpl.
    rewrite pagesToCopy_resolved.
    rewrite copyPages_loaded, copyPages_in_range by by apply resolved_in_range.
    simpl. rewrite addPages_fresh, IH. by rewrite <- app_assoc.
Qed.

Lemma mergeSources_out_of_range (sources : list MergeSource.t)
    (mergedPdf : PDFDocument) (source : MergeSource.t) (doc : PDFDocument)
    (i : Z) :
  source ∈ sources ->
  parse (MergeSource.bytes source) = Resolved doc ->
  i ∈ resolved (MergeSource.selectedPages source) doc ->
  ~ inRange doc i ->
  exists error, mergeSources mergedPdf sources = Rejected error.
Proof.
  intros Hin Hdoc Hi Hout. revert mergedPdf.
  induction sources as [|first rest IH]; intros mergedPdf.
  { by apply elem_of_nil in Hin. }
  simpl. apply elem_of_cons in Hin as [<-|Hin].
  - rewrite (load_parsed _ _ _ Hdoc). simpl. rewrite pagesToCopy_resolved.
    rewrite copyPages_loaded, copyPages_out_of_range; [by eexists|].
    apply Exists_exists. by exists i.
  - destruct (load (MergeSource.bytes first) true) as [firstPdf|error];
      [|by eexists].
    simpl. destruct (copyPages firstPdf _) as [copied|error]; [|by eexists].
    simpl. by apply IH.
Qed.

Lemma extractPages_in_range (bytes : Uint8Array) (doc : PDFDocument)
    (indices : list Z) :
  parse bytes = Resolved doc ->
  Forall (inRange doc) indices ->
  extractPages bytes indices = Resolved (written (pagesAt doc indices)).
Proof.
  intros Hdoc Hvalid. unfold extractPages.
  rewrite (load_parsed _ _ _ Hdoc). simpl.
  rewrite copyPages_loaded, copyPages_in_range by done. simpl.
  by rewrite create_fresh, addPages_fresh, save_fresh.
Qed.

Lemma extractPages_out_of_range (bytes : Uint8Array) (doc : PDFDocument)
    (indices : list Z) :
  parse bytes = Resolved doc ->
  Exists (fun i => ~ inRange doc i) indices ->
  extractPages bytes indices = Rejected missingPage.
Proof.
  intros Hdoc Hout. unfold extractPages.
  rewrite (load_parsed _ _ _ Hdoc). simpl.
  by rewrite copyPages_loaded, copyPages_out_of_range.
Qed.

Lemma reorderPages_is_extractPages (bytes : Uint8Array) (order : list Z) :
  reorderPages bytes order = extractPages bytes order.
Proof. done. Qed.

Lemma deletePages_complement (bytes : Uint8Array) (doc : PDFDocument)
    (toDelete : list Z) :
  parse bytes = Resolved doc ->
  deletePages bytes toDelete = extractPages bytes (complement doc toDelete).
Proof.
  intros Hdoc. unfold deletePages.
  rewrite (load_parsed _ _ _ Hdoc). simpl. f_equal.
  apply list_filter_iff. intros i. unfold JS.includes.
  rewrite negb_true_iff, bool_decide_eq_false. done.
Qed.

Lemma filter_agree (P R : Z -> Prop) `{!forall i, Decision (P i)}
    `{!forall i, Decision (R i)} (l : list Z) :
  (forall i, i ∈ l -> P i <-> R i) -> filter P l = filter R l.
Proof.
  induction l as [|a l IH]; intros Hagree; [done|].
  rewrite !filter_cons.
  rewrite IH by (intros i Hi; apply Hagree; by right).
  destruct (decide (P a)) as [HP|HP], (decide (R a)) as [HR|HR]; try done;
    exfalso; apply (Hagree a) in HP || apply (Hagree a) in HR;
    done || by left.
Qed.

Lemma elem_of_complement (doc : PDFDocument) (indices : list Z) (i : Z) :
  i ∈ complement doc indices <-> inRange doc i /\ i ∉ indices.
Proof.
  unfold complement, inRange.
  rewrite list_elem_of_filter, elem_of_seqZ. intuition lia.
Qed.

Lemma complement_in_range (doc : PDFDocument) (indices : list Z) :
  Forall (inRange doc) (complement doc indices).
Proof. apply Forall_forall. by intros i [? _]%elem_of_complement. Qed.

Lemma complement_ascending (doc : PDFDocument) (indices : list Z) :
  ascending (complement doc indices).
Proof. apply ascending_filter, ascending_seqZ. Qed.

(** C1, as the code has it.  When every source loads and lists only pages
    its document has, [mergePdfs] succeeds and the pages it hands to [save]
    are the selected pages of the first source in the order of its list
    (all its pages in ascending order when the list is empty), then those
    of the second, and so on; their number is the sum of the lengths of the
    resolved selections.  The bytes returned are the writer's output for
    these pages, or for the one blank page [save] adds when no page at all
    was selected. *)
Theorem mergePdfs_selected_pages (sources : list MergeSource.t)
    (docs : list PDFDocument) :
  Forall2 (fun source doc =>
             parse (MergeSource.bytes source) = Resolved doc /\
             Forall (inRange doc) (MergeSource.selectedPages source))
          sources docs ->
  let selections :=
    zip_with (fun source doc => resolved (MergeSource.selectedPages source) doc)
             sources docs in
  let merged := concat (zip_with pagesAt docs selections) in
  length merged = sum_list (length <$> selections) /\
  mergePdfs sources = MergeResult.make true (Some (written merged)) None.
Proof.
  intros Hall selections merged. split.
  - subst merged selections. clear -Hall.
    induction Hall as [|source doc sources docs [_ Hvalid] _ IH]; [done|].
    simpl. rewrite length_app, IH.
    by rewrite length_pagesAt by by apply resolved_in_range.
  - unfold mergePdfs. rewrite create_fresh.
    rewrite (mergeSources_selected _ _ _ Hall). simpl.
    by rewrite save_fresh.
Qed.

(** C2, as the code has it.  For a document that loads and a list [S] of
    indices of its pages, [deletePages] is [extractPages] on the ascending
    list [K] of the page indices that are not in [S]; the two operations
    select the pages under [K] and under [S], no index is in both lists and
    every page index is in one of them.  Each writes the pages it selected,
    or the blank page of [save] when it selected none. *)
Theorem deletePages_extracts_complement (bytes : Uint8Array)
    (doc : PDFDocument) (S : list Z) :
  parse bytes = Resolved doc ->
  Forall (inRange doc) S ->
  let K := complement doc S in
  ascending K /\
  (forall i, i ∈ K <-> inRange doc i /\ i ∉ S) /\
  deletePages bytes S = extractPages bytes K /\
  deletePages bytes S = Resolved (written (pagesAt doc K)) /\
  extractPages bytes S = Resolved (written (pagesAt doc S)) /\
  (forall i, ~ (i ∈ K /\ i ∈ S)) /\
  (forall i, inRange doc i <-> i ∈ K \/ i ∈ S).
Proof.
  intros Hdoc Hvalid K. subst K.
  split; [apply complement_ascending|].
  split; [apply elem_of_complement|].
  split; [by apply deletePages_complement|].
  split.
  { rewrite (deletePages_complement _ _ _ Hdoc).
    apply extractPages_in_range; [done|apply complement_in_range]. }
  split; [by apply extractPages_in_range|].
  split.
  - intros i [[_ Hnot]%elem_of_complement Hin]. done.
  - intros i. rewrite elem_of_complement. split.
    + intros Hi. destruct (decide (i ∈ S)); [by right|by left].
    + intros [[Hi _]|Hi]; [done|]. by eapply Forall_forall in Hvalid.
Qed.

(** C5.  A page set operation whose resolved selection holds an index that
    is no page index of its source document returns no document:
    [mergePdfs] answers with a failure that carries a message and no bytes,
    [reorderPages], [extractPages] and [deletePages] reject. *)
Theorem out_of_range_selection_fails :
  (forall (sources : list MergeSource.t) (source : MergeSource.t)
          (doc : PDFDocument) (i : Z),
      source ∈ sources ->
      parse (MergeSource.bytes source) = Resolved doc ->
      i ∈ resolved (MergeSource.selectedPages source) doc ->
      ~ inRange doc i ->
      exists message,
        mergePdfs sources = MergeResult.make false None (Some message)) /\
  (forall (bytes : Uint8Array) (doc : PDFDocument) (newOrder : list Z) (i : Z),
      parse bytes = Resolved doc -> i ∈ newOrder -> ~ inRange doc i ->
      exists error, reorderPages bytes newOrder = Rejected error) /\
  (forall (bytes : Uint8Array) (doc : PDFDocument) (indices : list Z) (i : Z),
      parse bytes = Resolved doc -> i ∈ indices -> ~ inRange doc i ->
      exists error, extractPages bytes indices = Rejected error) /\
  (forall (bytes : Uint8Array) (doc : PDFDocument) (toDelete : list Z) (i : Z),
      parse bytes = Resolved doc ->
      i ∈ complement doc toDelete -> ~ inRange doc i ->
      exists error, deletePages bytes toDelete = Rejected error).
Proof.
  assert (Hextract : forall bytes doc indices i,
             parse bytes = Resolved doc -> i ∈ indices -> ~ inRange doc i ->
             exists error, extractPages bytes indices = Rejected error).
  { intros bytes doc indices i Hdoc Hi Hout. exists missingPage.
    apply (extractPages_out_of_range _ doc); [done|].
    apply Exists_exists. by exists i. }
  repeat split.
  - intros sources source doc i Hin Hdoc Hi Hout. unfold mergePdfs.
    destruct (mergeSources_out_of_range sources create source doc i)
      as [error ->]; [done..|].
    simpl. by eexists.
  - intros bytes doc newOrder. rewrite reorderPages_is_extractPages.
    apply Hextract.
  - apply Hextract.
  - intros bytes doc toDelete i Hdoc Hi Hout.
    rewrite (deletePages_complement _ _ _ Hdoc). by eapply Hextract.
Qed.

(** C9, as the code has it.  For a document that loads and any list [D],
    [deletePages] does not fail: the list [K] it keeps holds page indices
    only, in ascending order, exactly those not in [D]; entries of [D] that
    are no page index change nothing; it writes the pages under [K], or the
    blank page of [save] when [D] names every page. *)
Theorem deletePages_any_list (bytes : Uint8Array) (doc : PDFDocument)
    (D : list Z) :
  parse bytes = Resolved doc ->
  let K := complement doc D in
  Forall (inRange doc) K /\
  ascending K /\
  (forall i, i ∈ K <-> inRange doc i /\ i ∉ D) /\
  K = complement doc (filter (inRange doc) D) /\
  deletePages bytes D = Resolved (written (pagesAt doc K)).
Proof.
  intros Hdoc K. subst K.
  split; [apply complement_in_range|].
  split; [apply complement_ascending|].
  split; [apply elem_of_complement|].
  split.
  - unfold complement. apply filter_agree.
    intros i Hi%elem_of_seqZ. rewrite list_elem_of_filter.
    unfold inRange. intuition lia.
  - rewrite (deletePages_complement _ _ _ Hdoc).
    apply extractPages_in_range; [done|apply complement_in_range].
Qed.

End PageSets.

Lemma mergePdfs_selected_pages_example :
  length [Sample.letter [Sample.mark "one"]; Sample.letter [Sample.mark "three"];
          Sample.letter [Sample.mark "memo-2"]] = 3%nat /\
  mergePdfs (lib := Sample.library) [Sample.sourceA; Sample.sourceB] =
  @MergeResult.make Sample.library true
    (Some (Sample.Written true
             (fresh [Sample.letter [Sample.mark "one"];
                     Sample.letter [Sample.mark "three"];
                     Sample.letter [Sample.mark "memo-2"]])))
    None.
Proof.
  apply (mergePdfs_selected_pages (lib := Sample.library)
           [Sample.sourceA; Sample.sourceB] [Sample.report; Sample.memo]).
  repeat constructor; unfold inRange; cbn; lia.
Defined.

(** C1 as worded fails when nothing is selected: merging no source at all
    writes a document of one page, the sum of the selection lengths being 0. *)
Lemma mergePdfs_without_sources :
  mergePdfs (lib := Sample.library) [] =
    @MergeResult.make Sample.library true (Some (Sample.Written true (fresh [blankPage]))) None
  /\ length (pages (fresh (lib := Sample.library) [blankPage])) = 1%nat
  /\ sum_list (length <$> @nil (list Z)) = 0%nat.
Proof. done. Qed.

Lemma deletePages_extracts_complement_example :
  let K := complement Sample.report [1] in
  ascending K /\
  (forall i, i ∈ K <-> inRange Sample.report i /\ i ∉ [1]) /\
  deletePages Sample.reportBytes [1] = extractPages Sample.reportBytes K /\
  deletePages Sample.reportBytes [1] =
    Resolved (written (pagesAt Sample.report K)) /\
  extractPages Sample.reportBytes [1] =
    Resolved (written (pagesAt Sample.report [1])) /\
  (forall i, ~ (i ∈ K /\ i ∈ [1])) /\
  (forall i, inRange Sample.report i <-> i ∈ K \/ i ∈ [1]).
Proof.
  apply (deletePages_extracts_complement (lib := Sample.library)
           Sample.reportBytes Sample.report [1]).
  - reflexivity.
  - repeat constructor; unfold inRange; cbn; lia.
Defined.

(** C2 as worded fails for the empty set: extracting no page of the report
    writes a document whose one page is blank and is no page of the report,
    while deleting no page writes all three. *)
Lemma extractPages_of_no_page :
  extractPages (lib := Sample.library) Sample.reportBytes [] =
    Resolved (Sample.Written true (fresh [blankPage]))
  /\ deletePages (lib := Sample.library) Sample.reportBytes [] =
    Resolved (Sample.Written true (fresh (pages Sample.report)))
  /\ blankPage ∉ pages Sample.report.
Proof.
  split; [done|]. split; [done|].
  intros Hin. unfold Sample.report in Hin. simpl in Hin.
  repeat (apply elem_of_cons in Hin as [Hin|Hin]; [discriminate Hin|]).
  by apply elem_of_nil in Hin.
Qed.

Lemma out_of_range_selection_fails_example :
  (exists message,
      mergePdfs [Sample.sourceA; Sample.sourceC; Sample.sourceB] =
      @MergeResult.make Sample.library false None (Some message)) /\
  (exists error, reorderPages Sample.reportBytes [2; 0; 3] = Rejected error).
Proof.
  destruct (out_of_range_selection_fails (lib := Sample.library))
    as (Hmerge & Hreorder & _ & _).
  split.
  - apply (Hmerge _ Sample.sourceC Sample.memo 5).
    + apply list_elem_of_In. cbn. tauto.
    + reflexivity.
    + apply list_elem_of_In. cbn. tauto.
    + intros [_ Hlt]. vm_compute in Hlt. discriminate Hlt.
  - apply (Hreorder _ Sample.report _ 3).
    + reflexivity.
    + apply list_elem_of_In. cbn. tauto.
    + intros [_ Hlt]. vm_compute in Hlt. discriminate Hlt.
Defined.

Lemma deletePages_any_list_example :
  let K := complement Sample.report [7; 1; -2] in
  Forall (inRange Sample.report) K /\
  ascending K /\
  (forall i, i ∈ K <-> inRange Sample.report i /\ i ∉ [7; 1; -2]) /\
  K = complement Sample.report (filter (inRange Sample.report) [7; 1; -2]) /\
  deletePages Sample.reportBytes [7; 1; -2] =
    Resolved (written (pagesAt Sample.report K)).
Proof.
  apply (deletePages_any_list (lib := Sample.library)
           Sample.reportBytes Sample.report [7; 1; -2]).
  reflexivity.
Defined.

(** C9 as worded fails where it promises a document of no page: deleting
    every page of the report writes a document of one page, the blank one. *)
Lemma deletePages_of_every_page :
  deletePages (lib := Sample.library) Sample.reportBytes [0; 1; 2] =
    Resolved (Sample.Written true (fresh [blankPage]))
  /\ length (pages (fresh (lib := Sample.library) [blankPage])) = 1%nat.
Proof. done. Qed.


(* ===================================================================== *)
(** * Annotation compositor *)
(* ===================================================================== *)

Section Annotations.
Context `{lib : Library} `{utils : Utils}.

Lemma getPageCount_setPage (doc : PDFDocument) (i : nat) (page : PDFPage) :
  getPageCount (setPage doc i page) = getPageCount doc.
Proof. unfold getPageCount, setPage. simpl. by rewrite length_insert. Qed.

Lemma inRange_setPage (doc : PDFDocument) (i : nat) (page : PDFPage) (k : Z) :
  inRange (setPage doc i page) k <-> inRange doc k.
Proof. unfold inRange. by rewrite getPageCount_setPage. Qed.

Lemma bakeAll_app (doc : PDFDocument) (first second : list Annotation.t) :
  bakeAll doc (first ++ second) =
  let* baked := bakeAll doc first in bakeAll baked second.
Proof.
  revert doc. induction first as [|annotation rest IH]; intros doc; [done|].
  simpl. destruct (JS.index _ _) as [page|]; [|apply IH].
  destruct (bake doc page annotation) as [drawn|error]; [|done].
  simpl. apply IH.
Qed.

Lemma bakeAll_skip (doc : PDFDocument) (before after : list Annotation.t)
    (stray : Annotation.t) :
  ~ inRange doc (Annotation.pageIndex stray) ->
  bakeAll doc (before ++ stray :: after) = bakeAll doc (before ++ after).
Proof.
  revert doc. induction before as [|annotation rest IH]; intros doc Hout.
  - simpl. unfold getPages. by rewrite (index_out_of_range _ _ Hout).
  - simpl. destruct (JS.index _ _) as [page|]; [|by apply IH].
    destruct (bake doc page annotation) as [drawn|error]; [|done].
    simpl. apply IH. by rewrite inRange_setPage.
Qed.

Lemma bakeAll_in_range_only (doc : PDFDocument)
    (annotations : list Annotation.t) :
  bakeAll doc annotations =
  bakeAll doc
    (filter (fun annotation => inRange doc (Annotation.pageIndex annotation))
            annotations).
Proof.
  revert doc. induction annotations as [|annotation rest IH]; intros doc; [done|].
  rewrite filter_cons.
  destruct (decide (inRange doc (Annotation.pageIndex annotation)))
    as [Hin|Hout].
  - simpl. destruct (JS.index _ _) as [page|]; [|apply IH].
    destruct (bake doc page annotation) as [drawn|error]; [|done].
    simpl. rewrite IH. f_equal. apply list_filter_iff.
    intros other. apply inRange_setPage.
  - simpl. unfold getPages. rewrite (index_out_of_range _ _ Hout). apply IH.
Qed.

(** C4.  An annotation whose [pageIndex] is the page count or more does not
    make [applyAnnotations] throw and leaves every page as it is: the
    result, failure included, is that of the list without it, so the other
    annotations are applied as before; on its own it gives back the loaded
    document, saved. *)
Theorem applyAnnotations_skips_stray (bytes : Uint8Array) (doc : PDFDocument)
    (before after : list Annotation.t) (stray : Annotation.t) :
  parse bytes = Resolved doc ->
  getPageCount doc <= Annotation.pageIndex stray ->
  applyAnnotations bytes (before ++ stray :: after) =
    applyAnnotations bytes (before ++ after) /\
  applyAnnotations bytes [stray] =
    Resolved (save (updateInfoDict doc) noOptions).
Proof.
  intros Hdoc Hstray.
  assert (Hout : ~ inRange (updateInfoDict doc) (Annotation.pageIndex stray)).
  { unfold inRange, getPageCount in *. simpl. lia. }
  pose proof (bakeAll_skip _ [] [] stray Hout) as Halone.
  cbn [app] in Halone.
  unfold applyAnnotations. rewrite (load_parsed _ _ _ Hdoc).
  cbn [JS.bind]. split.
  - by rewrite bakeAll_skip.
  - by rewrite Halone.
Qed.

(** C10.  [applyAnnotations] gives what it gives on the annotations whose
    [pageIndex] is a page index of the document: those with a negative
    index, like those with an index of the page count or more, are
    skipped. *)
Theorem applyAnnotations_valid_only (bytes : Uint8Array) (doc : PDFDocument)
    (annotations : list Annotation.t) :
  parse bytes = Resolved doc ->
  applyAnnotations bytes annotations =
  applyAnnotations bytes
    (filter (fun annotation => inRange doc (Annotation.pageIndex annotation))
            annotations).
Proof.
  intros Hdoc. unfold applyAnnotations.
  rewrite (load_parsed _ _ _ Hdoc). simpl.
  by rewrite bakeAll_in_range_only.
Qed.

Lemma inject_Z_minus (x y : Z) :
  inject_Z (x - y) = (inject_Z x - inject_Z y)%Q.
Proof. unfold Z.sub. by rewrite inject_Z_plus, inject_Z_opp. Qed.

Lemma nearest_whole (q : Q) (n : Z) :
  Z.abs n < 2 ^ 53 -> (q == inject_Z n)%Q -> Double.nearest q = inject_Z n.
Proof.
  intros Hn Hq. rewrite (nearest_proper q (inject_Z n) Hq).
  by apply nearest_integer.
Qed.



End Annotations.

Lemma applyAnnotations_skips_stray_example :
  applyAnnotations Sample.reportBytes
    ([Sample.marker underline 1] ++ Sample.marker highlight 3 ::
     [Sample.marker text 0]) =
  applyAnnotations Sample.reportBytes
    ([Sample.marker underline 1] ++ [Sample.marker text 0]) /\
  applyAnnotations Sample.reportBytes [Sample.marker highlight 3] =
    Resolved (save (updateInfoDict Sample.report) noOptions).
Proof.
  apply (applyAnnotations_skips_stray (lib := Sample.library)
           (utils := Sample.utils) Sample.reportBytes Sample.report).
  - reflexivity.
  - vm_compute. discriminate.
Defined.

Lemma applyAnnotations_valid_only_example :
  applyAnnotations Sample.reportBytes
    [Sample.marker highlight (-1); Sample.marker underline 2;
     Sample.marker rectangle 3] =
  applyAnnotations Sample.reportBytes
    (filter (fun annotation =>
               inRange Sample.report (Annotation.pageIndex annotation))
       [Sample.marker highlight (-1); Sample.marker underline 2;
        Sample.marker rectangle 3]).
Proof.
  apply (applyAnnotations_valid_only (lib := Sample.library)
           (utils := Sample.utils) Sample.reportBytes Sample.report).
  reflexivity.
Defined.


(* ===================================================================== *)
(** * Compression *)
(* ===================================================================== *)

Section Percentage.

Lemma sign_of_positive (n : nat) :
  (0 < n)%nat -> JS.sign (inject_Z (Z.of_nat n)) = Gt.
Proof. intros Hn. unfold JS.sign. simpl. apply Z.compare_gt_iff. lia. Qed.

Lemma max_zero_integer (z : Z) :
  JS.max (JS.ofZ 0) (JS.ofZ z) = JS.ofZ (Z.max 0 z).
Proof.
  unfold JS.max, JS.ofZ.
  destruct (Qle_bool (inject_Z 0) (inject_Z z)) eqn:Hle.
  - apply Qle_bool_iff in Hle. rewrite <- Zle_Qle in Hle.
    by rewrite Z.max_r.
  - assert (~ 0 <= z) as Hneg.
    { intros Hz. rewrite Zle_Qle in Hz. apply Qle_bool_iff in Hz. congruence. }
    rewrite Z.max_l by lia. done.
Qed.

Lemma max_zero_not_below (r : JS.Num) :
  JS.lt (JS.max (JS.ofZ 0) r) (JS.ofZ 0) = false.
Proof.
  destruct r as [y| | |]; try done.
  unfold JS.max, JS.ofZ. destruct (Qle_bool (inject_Z 0) y) eqn:Hle; [|done].
  unfold JS.lt. by rewrite Hle.
Qed.

(** What becomes of the exact result of an operation. *)
Lemma finite_cases (q : Q) :
  (JS.finite q = PosInf /\ (0 < q)%Q) \/
  (JS.finite q = NegInf /\ (q < 0)%Q) \/
  JS.finite q = Finite (Double.nearest q).
Proof.
  unfold JS.finite.
  pose proof (pow2_positive 1024) as Hlimit.
  destruct (nearest_sign q) as [Hup Hdown].
  destruct (Qle_bool (Double.pow2 1024) (Double.nearest q)) eqn:Hhigh.
  { left. split; [done|]. apply Qle_bool_iff in Hhigh.
    apply Qnot_le_lt. intros Hq. specialize (Hdown Hq). lra. }
  destruct (Qle_bool (Double.nearest q) (- Double.pow2 1024)) eqn:Hlow.
  { right; left. split; [done|]. apply Qle_bool_iff in Hlow.
    apply Qnot_le_lt. intros Hq. specialize (Hup Hq). lra. }
  by right; right.
Qed.

Lemma finite_close (q : Q) (k : Z) :
  -1022 <= k <= 1023 -> (Qabs q <= Double.pow2 k)%Q ->
  JS.finite q = Finite (Double.nearest q) /\
  (Qabs (Double.nearest q - q) <= Double.pow2 (k - 53))%Q /\
  (Qabs (Double.nearest q) <= Double.pow2 k)%Q.
Proof.
  intros Hk Hle.
  destruct (nearest_close q k ltac:(lia) Hle) as [Hclose Hsize].
  split; [|done].
  assert (Double.pow2 k < Double.pow2 1024)%Q as Hlimit.
  { apply Qpower_lt_compat_l; [lia|done]. }
  apply Qabs_Qle_condition in Hsize as [Hlow Hhigh].
  unfold JS.finite.
  destruct (Qle_bool (Double.pow2 1024) (Double.nearest q)) eqn:Hover.
  { apply Qle_bool_iff in Hover. lra. }
  destruct (Qle_bool (Double.nearest q) (- Double.pow2 1024)) eqn:Hunder.
  { apply Qle_bool_iff in Hunder. lra. }
  done.
Qed.

Lemma floor_near (y z : Q) :
  (Qabs (y - z) < 1)%Q -> Z.abs (Qfloor y - Qfloor z) <= 1.
Proof.
  intros Hnear. apply Qabs_Qlt_condition in Hnear as [Hlow Hhigh].
  pose proof (Qfloor_le y) as Hy. pose proof (Qlt_floor y) as Hy'.
  pose proof (Qfloor_le z) as Hz. pose proof (Qlt_floor z) as Hz'.
  rewrite inject_Z_plus in Hy', Hz'. change (inject_Z 1) with 1%Q in Hy', Hz'.
  assert (Qfloor y < Qfloor z + 2).
  { rewrite Zlt_Qlt, inject_Z_plus. change (inject_Z 2) with 2%Q. lra. }
  assert (Qfloor z < Qfloor y + 2).
  { rewrite Zlt_Qlt, inject_Z_plus. change (inject_Z 2) with 2%Q. lra. }
  lia.
Qed.

Lemma ratio_of_sizes (original compressed : nat) :
  (0 < original)%nat ->
  let ratio :=
    (inject_Z (Z.of_nat compressed) / inject_Z (Z.of_nat original))%Q in
  (0 <= ratio)%Q /\
  ((compressed < original)%nat -> (ratio < 1)%Q) /\
  ((original <= compressed)%nat -> (1 <= ratio)%Q).
Proof.
  intros Hpos ratio.
  assert (0 < inject_Z (Z.of_nat original))%Q as Horiginal.
  { change 0%Q with (inject_Z 0). rewrite <- Zlt_Qlt. lia. }
  assert (0 <= inject_Z (Z.of_nat compressed))%Q as Hcompressed.
  { change 0%Q with (inject_Z 0). rewrite <- Zle_Qle. lia. }
  split; [|split].
  - apply Qle_shift_div_l; [done|]. lra.
  - intros Hless. apply Qlt_shift_div_r; [done|].
    rewrite Qmult_1_l, <- Zlt_Qlt. lia.
  - intros Hmore. apply Qle_shift_div_l; [done|].
    rewrite Qmult_1_l, <- Zle_Qle. lia.
Qed.

Lemma percent_of_no_gain (original compressed : nat) (offset : Q) :
  (0 < original)%nat -> (original <= compressed)%nat ->
  (offset < 1 # 2)%Q ->
  percentNear offset original compressed = 0.
Proof.
  intros Hpos Hle Hoffset. unfold percentNear, exactPercent.
  destruct (ratio_of_sizes original compressed Hpos) as (_ & _ & Hratio).
  specialize (Hratio Hle).
  set (ratio := (inject_Z (Z.of_nat compressed) / inject_Z (Z.of_nat original))%Q)
    in *.
  set (value := ((1 - ratio) * 100 + offset + (1 # 2))%Q).
  assert (value < inject_Z 1)%Q as Hvalue.
  { unfold value. change (inject_Z 1) with 1%Q. lra. }
  assert (Qfloor value < 1) as Hfloor.
  { rewrite Zlt_Qlt. eapply Qle_lt_trans; [apply Qfloor_le|exact Hvalue]. }
  lia.
Qed.

(** The percentage of a file that did not shrink. *)
Lemma reduction_of_no_gain (original compressed : nat) :
  (original <= compressed)%nat -> (0 < compressed)%nat ->
  reduction original compressed = JS.ofZ 0.
Proof.
  intros Hle Hsome. unfold reduction, JS.ofNat.
  destruct original as [|original].
  { unfold JS.div. rewrite (sign_of_positive _ Hsome). done. }
  destruct (ratio_of_sizes (S original) compressed ltac:(lia)) as (_ & _ & Hratio).
  specialize (Hratio Hle).
  unfold JS.div. rewrite (sign_of_positive (S original)) by lia.
  set (ratio := (inject_Z (Z.of_nat compressed) /
                 inject_Z (Z.of_nat (S original)))%Q) in *.
  assert (JS.sub (JS.ofZ 1) (JS.finite ratio) = NegInf \/
          exists r, JS.sub (JS.ofZ 1) (JS.finite ratio) = Finite r /\ (r <= 0)%Q)
    as Hsub.
  { destruct (finite_cases ratio) as [[-> _]|[[_ Hneg]| ->]];
      [by left|lra|].
    pose proof (nearest_least ratio 0 ltac:(lia) Hratio) as Hone.
    change (Double.pow2 0) with 1%Q in Hone.
    unfold JS.sub, JS.ofZ. change (inject_Z 1) with 1%Q.
    destruct (finite_cases (1 - Double.nearest ratio)) as [[_ Hpos]|[[-> _]| ->]];
      [lra|by left|].
    right. eexists. split; [done|]. apply nearest_sign. lra. }
  assert (JS.mul (JS.sub (JS.ofZ 1) (JS.finite ratio)) (JS.ofZ 100) = NegInf \/
          exists r, JS.mul (JS.sub (JS.ofZ 1) (JS.finite ratio)) (JS.ofZ 100) =
                    Finite r /\ (r <= 0)%Q)
    as Hmul.
  { destruct Hsub as [->|(r & -> & Hr)]; [by left|].
    unfold JS.mul, JS.ofZ. change (inject_Z 100) with 100%Q.
    destruct (finite_cases (r * 100)) as [[_ Hpos]|[[-> _]| ->]];
      [lra|by left|].
    right. eexists. split; [done|]. apply nearest_sign. lra. }
  destruct (sign (inject_Z (Z.of_nat compressed)));
    destruct Hmul as [->|(r & -> & Hr)]; try done.
  all: unfold JS.round; fold (JS.ofZ (Qfloor (r + (1 # 2)))).
  all: rewrite max_zero_integer; f_equal.
  all: assert (Qfloor (r + (1 # 2)) < 1); [|lia].
  all: rewrite Zlt_Qlt; change (inject_Z 1) with 1%Q.
  all: eapply Qle_lt_trans; [apply Qfloor_le|lra].
Qed.

(** The percentage of a file that shrank: the three roundings together
    move the value by less than [slack]. *)
Lemma reduction_of_gain (original compressed : nat) :
  (compressed < original)%nat ->
  exists value : Q,
    reduction original compressed =
      JS.ofZ (Z.max 0 (Qfloor (value + (1 # 2)))) /\
    (Qabs (value - exactPercent original compressed) <= slack)%Q.
Proof.
  intros Hless. unfold reduction, JS.ofNat, exactPercent.
  destruct (ratio_of_sizes original compressed ltac:(lia)) as (Hlow & Hhigh & _).
  specialize (Hhigh Hless).
  unfold JS.div. rewrite (sign_of_positive original) by lia.
  set (ratio := (inject_Z (Z.of_nat compressed) /
                 inject_Z (Z.of_nat original))%Q) in *.
  assert (Double.pow2 0 = 1%Q) as Hone by done.
  assert (Double.pow2 7 = 128%Q) as Hseven by done.
  assert (Double.pow2 (0 - 53) = 1 # 9007199254740992)%Q as Hfirst by done.
  assert (Double.pow2 (7 - 53) = 1 # 70368744177664)%Q as Hthird by done.
  assert (slack = 1 # 17592186044416)%Q as Hslack by done.
  destruct (finite_close ratio 0 ltac:(lia)) as (Hratio & Hclose1 & Hsize1).
  { rewrite Hone. apply Qabs_Qle_condition. split; lra. }
  rewrite Hone in Hsize1. rewrite Hfirst in Hclose1.
  apply Qabs_Qle_condition in Hclose1 as [? ?], Hsize1 as [? ?].
  destruct (nearest_sign ratio) as [Hpositive _]. specialize (Hpositive Hlow).
  set (first := Double.nearest ratio) in *.
  destruct (finite_close (1 - first) 0 ltac:(lia)) as (Hsub & Hclose2 & Hsize2).
  { rewrite Hone. apply Qabs_Qle_condition. split; lra. }
  rewrite Hone in Hsize2. rewrite Hfirst in Hclose2.
  apply Qabs_Qle_condition in Hclose2 as [? ?], Hsize2 as [? ?].
  destruct (nearest_sign (1 - first)) as [Hpositive2 _].
  specialize (Hpositive2 ltac:(lra)).
  set (second := Double.nearest (1 - first)) in *.
  destruct (finite_close (second * 100) 7 ltac:(lia)) as (Hmul & Hclose3 & Hsize3).
  { rewrite Hseven. apply Qabs_Qle_condition. split; lra. }
  rewrite Hthird in Hclose3.
  apply Qabs_Qle_condition in Hclose3 as [? ?].
  set (third := Double.nearest (second * 100)) in *.
  exists third. split.
  - assert (JS.mul (JS.sub (JS.ofZ 1) (JS.finite ratio)) (JS.ofZ 100) =
            Finite third) as Hvalue.
    { rewrite Hratio. unfold JS.sub, JS.ofZ. change (inject_Z 1) with 1%Q.
      rewrite Hsub. unfold JS.mul. change (inject_Z 100) with 100%Q.
      by rewrite Hmul. }
    destruct (sign (inject_Z (Z.of_nat compressed)));
      rewrite Hvalue; apply max_zero_integer.
  - rewrite Hslack. apply Qabs_Qle_condition. split; lra.
Qed.

Lemma reduction_accounted (original compressed : nat) :
  JS.lt (reduction original compressed) (JS.ofZ 0) = false /\
  ((0 < original)%nat ->
   exists k : Z,
     reduction original compressed = JS.ofZ k /\
     percentNear (- slack) original compressed <= k /\
     k <= percentNear slack original compressed /\
     Z.abs (k - percent original compressed) <= 1) /\
  ((original <= compressed)%nat -> (0 < compressed)%nat ->
   reduction original compressed = JS.ofZ 0).
Proof.
  assert (slack = 1 # 17592186044416)%Q as Hslack by done.
  split; [apply max_zero_not_below|]. split; [|apply reduction_of_no_gain].
  intros Hpos.
  destruct (decide (compressed < original)%nat) as [Hless|Hmore].
  - destruct (reduction_of_gain original compressed Hless)
      as (value & -> & Hclose).
    rewrite Hslack in Hclose. apply Qabs_Qle_condition in Hclose as [? ?].
    eexists. split; [done|]. unfold percentNear, percent. rewrite Hslack.
    set (exact := exactPercent original compressed) in *.
    assert (Qfloor (exact + - (1 # 17592186044416) + (1 # 2)) <=
            Qfloor (value + (1 # 2))) by (apply Qfloor_resp_le; lra).
    assert (Qfloor (value + (1 # 2)) <=
            Qfloor (exact + (1 # 17592186044416) + (1 # 2)))
      by (apply Qfloor_resp_le; lra).
    assert (Z.abs (Qfloor (value + (1 # 2)) - Qfloor (exact + (1 # 2))) <= 1).
    { apply floor_near. apply Qabs_Qlt_condition. split; lra. }
    lia.
  - rewrite reduction_of_no_gain by lia. exists 0. split; [done|].
    assert (percent original compressed = percentNear 0 original compressed)
      as ->.
    { unfold percent, percentNear. f_equal.
      apply Qfloor_comp. ring. }
    rewrite !percent_of_no_gain by (rewrite ?Hslack; lia || done).
    lia.
Qed.

End Percentage.

Section InProcess.
Context `{lib : Library}.


Lemma stripMetadata_blanked (doc : PDFDocument) :
  blanked (stripMetadata doc) /\
  pages (stripMetadata doc) = pages doc /\
  fields (stripMetadata doc) = fields doc.
Proof. done. Qed.

Lemma flatten_info (doc : PDFDocument) :
  title (flatten doc) = title doc /\ author (flatten doc) = author doc /\
  subject (flatten doc) = subject doc /\ keywords (flatten doc) = keywords doc /\
  producer (flatten doc) = producer doc /\ creator (flatten doc) = creator doc.
Proof.
  unfold flatten. by destruct (flattenForm _ _) as [[flatPages flatFields] thrown].
Qed.

Lemma flatten_form (doc : PDFDocument) :
  (pages (flatten doc), fields (flatten doc)) =
  fst (flattenForm (pages doc) (fields doc)).
Proof.
  unfold flatten. by destruct (flattenForm _ _) as [[flatPages flatFields] thrown].
Qed.

Lemma flattenIfAny_info (doc : PDFDocument) :
  let out := fst (flattenIfAny doc) in
  title out = title doc /\ author out = author doc /\
  subject out = subject doc /\ keywords out = keywords doc /\
  producer out = producer doc /\ creator out = creator doc.
Proof.
  unfold flattenIfAny. destruct (getForm doc) as [error|]; [done|].
  destruct (getFields doc) as [formFields|error]; [|done].
  destruct (0 <? length formFields)%nat; [apply flatten_info|done].
Qed.

(** The form is handed out unless [getForm] throws. *)
Lemma flattenIfAny_obtained (doc : PDFDocument) :
  snd (flattenIfAny doc) =
  match getForm doc with Some _ => false | None => true end.
Proof.
  unfold flattenIfAny. destruct (getForm doc) as [error|]; [done|].
  destruct (getFields doc) as [formFields|error]; [|done].
  by destruct (0 <? length formFields)%nat.
Qed.

Lemma flattenIfAny_form (doc : PDFDocument) :
  let out := fst (flattenIfAny doc) in
  match getForm doc, getFields doc with
  | None, Resolved (_ :: _) =>
      (pages out, fields out) = fst (flattenForm (pages doc) (fields doc))
  | _, _ => pages out = pages doc /\ fields out = fields doc
  end.
Proof.
  unfold flattenIfAny. destruct (getForm doc) as [error|].
  { by destruct (getFields doc) as [[|field rest]|]. }
  destruct (getFields doc) as [[|field rest]|error]; try done.
  simpl. apply flatten_form.
Qed.

(** The bytes the [try] block of [compressPdf] ends with for a document
    that loads.  Below level 75 the writer is all that is left after the
    load; at level 75 the document whose form was handed out has the
    appearances of its fields refreshed first, and what that throws ends
    the block. *)
Lemma compressedBytesOf_parsed (bytes : Uint8Array) (doc : PDFDocument)
    (level : CompressionLevel) :
  parse bytes = Resolved doc ->
  compressedBytesOf bytes level =
  match level with
  | Level25 => Resolved (serialize true (updateInfoDict doc))
  | Level50 => Resolved (serialize true (stripMetadata doc))
  | Level75 =>
      let out := fst (flattenIfAny (stripMetadata doc)) in
      match getForm (stripMetadata doc), updateFieldAppearances out with
      | None, Some error => Rejected error
      | _, _ => Resolved (serialize true out)
      end
  end.
Proof.
  intros Hdoc. unfold compressedBytesOf, load. rewrite Hdoc.
  destruct level; try done. cbn -[stripMetadata flattenIfAny].
  pose proof (flattenIfAny_obtained (stripMetadata doc)) as Hobtained.
  destruct (flattenIfAny (stripMetadata doc)) as [out obtained].
  simpl in Hobtained. subst obtained. cbn -[stripMetadata].
  destruct (getForm (stripMetadata doc)) as [thrown|]; [done|].
  unfold saveWithForm, save, prepareForSave. simpl.
  by destruct (updateFieldAppearances out).
Qed.

Lemma compressPdf_outcome (bytes : Uint8Array) (level : CompressionLevel) :
  match compressedBytesOf bytes level with
  | Resolved compressed =>
      compressPdf bytes level =
      Resolved
        (CompressionResult.make true (Some compressed)
           (byteLength bytes) (byteLength compressed)
           (reduction (byteLength bytes) (byteLength compressed)) None)
  | Rejected error =>
      compressPdf bytes level =
      Resolved (failedWith "Unknown error during compression" bytes error)
  end.
Proof. unfold compressPdf. by destruct (compressedBytesOf bytes level). Qed.

(** C8, as the code has it.  For a document that loads, [out] is the
    document the pass hands to the writer.  From level 50 on, title,
    author, subject, keywords, producer and creator of [out] are empty.
    At level 75 the form is flattened when [getForm] hands it out and it
    has fields, and the pages and the form stay as they were when there is
    no form to hand out, when it has no field or when its fields cannot
    be read; what the form calls throw is dropped.  At level 25 title,
    author, subject and keywords are those of the input, pages and form
    too, while the load, asked to update the metadata, has set the
    producer and the modification date and has filled in a creator and a
    creation date where the input had no such entry.  The pass succeeds
    with the written [out] below level 75, and at level 75 when [getForm]
    threw or when the refresh of the field appearances that the save runs
    on a form that was handed out goes through; when that refresh throws,
    the pass reports the failure. *)
Theorem compressPdf_in_process (bytes : Uint8Array) (doc : PDFDocument)
    (level : CompressionLevel) :
  parse bytes = Resolved doc ->
  exists out,
    (levelValue level < 75 \/
     (exists thrown, getForm (stripMetadata doc) = Some thrown) \/
     updateFieldAppearances out = None ->
     compressPdf bytes level =
       Resolved
         (CompressionResult.make true (Some (serialize true out))
            (byteLength bytes) (byteLength (serialize true out))
            (reduction (byteLength bytes) (byteLength (serialize true out)))
            None)) /\
    (forall error,
       75 <= levelValue level ->
       getForm (stripMetadata doc) = None ->
       updateFieldAppearances out = Some error ->
       compressPdf bytes level =
         Resolved (failedWith "Unknown error during compression" bytes error)) /\
    (50 <= levelValue level -> blanked out) /\
    (75 <= levelValue level ->
     match getForm (stripMetadata doc), getFields (stripMetadata doc) with
     | None, Resolved (_ :: _) =>
         (pages out, fields out) = fst (flattenForm (pages doc) (fields doc))
     | _, _ => pages out = pages doc /\ fields out = fields doc
     end) /\
    (levelValue level < 75 ->
     pages out = pages doc /\ fields out = fields doc) /\
    (levelValue level < 50 ->
     title out = title doc /\ author out = author doc /\
     subject out = subject doc /\ keywords out = keywords doc /\
     producer out = Some producerName /\
     creator out =
       match creator doc with None => Some producerName | given => given end /\
     modificationDate out = Some now /\
     creationDate out =
       match creationDate doc with None => Some now | given => given end).
Proof.
  intros Hdoc.
  pose proof (compressPdf_outcome bytes level) as Hresult.
  rewrite (compressedBytesOf_parsed _ _ _ Hdoc) in Hresult.
  destruct level.
  - exists (updateInfoDict doc). simpl. repeat split; try done; lia.
  - exists (stripMetadata doc). simpl. repeat split; try done; lia.
  - exists (fst (flattenIfAny (stripMetadata doc))).
    cbn zeta in Hresult.
    pose proof (flattenIfAny_info (stripMetadata doc)) as Hinfo.
    pose proof (flattenIfAny_form (stripMetadata doc)) as Hform.
    cbn zeta in Hinfo, Hform.
    set (out := fst (flattenIfAny (stripMetadata doc))) in *.
    split; [|split; [|split; [|split; [|split]]]].
    + intros [Hlevel|[[thrown Hthrown]|Hfresh]].
      * simpl in Hlevel. lia.
      * by rewrite Hthrown in Hresult.
      * rewrite Hfresh in Hresult.
        by destruct (getForm (stripMetadata doc)).
    + intros error _ Hform' Hstale.
      by rewrite Hform', Hstale in Hresult.
    + intros _. unfold blanked. by destruct_and!; repeat split; etrans.
    + intros _. exact Hform.
    + simpl. lia.
    + simpl. lia.
Qed.

End InProcess.

(** The memo at level 75, with a form machinery that redraws every field:
    the pass succeeds, the six entries are empty, the first field is
    flattened and the second, whose widget is on no page, stays. *)
Lemma compressPdf_in_process_example :
  exists out,
    compressPdf Sample.memoBytes Level75 =
      Resolved
        (CompressionResult.make true (Some (Sample.Written true out))
           700 600 (reduction 700 600) None) /\
    blanked out /\
    (pages out, fields out) = (pages Sample.memo, [mkField "signature" 7]).
Proof.
  destruct (compressPdf_in_process (lib := Sample.library)
              Sample.memoBytes Sample.memo Level75 eq_refl)
    as (out & Hsuccess & _ & Hblanked & Hform & _).
  specialize (Hform ltac:(done)). cbn in Hform.
  assert (length (pages out) = 2%nat) as Hpages
    by (by injection Hform as -> _).
  exists out. split; [|split; [by apply Hblanked|exact Hform]].
  rewrite Hsuccess by (right; right; reflexivity).
  cbn. by rewrite Hpages.
Defined.

(** C8 as worded fails at level 25 for the producer: the report comes in as
    produced by "Acme PDF" and goes out as produced by the library, with a
    new modification date. *)
Lemma compressPdf_light_sets_producer :
  exists out,
    compressPdf (lib := Sample.library) Sample.reportBytes Level25 =
      Resolved
        (@CompressionResult.make Sample.library true
           (Some (Sample.Written true out)) 850 750 (JS.ofZ 12) None) /\
    producer Sample.report = Some "Acme PDF" /\
    producer out = Some "pdf-lib (https://github.com/Hopding/pdf-lib)" /\
    modificationDate Sample.report = Some 1700000000 /\
    modificationDate out = Some 1767225600.
Proof. by eexists. Qed.

(** With a form machinery that cannot redraw the field the flattening
    left behind, the pass at level 75 fails on the memo, while the same
    pass at level 50, which does not touch the form, succeeds. *)
Lemma compressPdf_stale_form :
  compressPdf (lib := Sample.stale) Sample.memoBytes Level75 =
    Resolved
      (@CompressionResult.make Sample.stale false None 700 700 (JS.ofZ 0)
         (Some "WinAnsi cannot encode the field text")) /\
  CompressionResult.success
    (match compressPdf (lib := Sample.stale) Sample.memoBytes Level50 with
     | Resolved result => result
     | Rejected _ =>
         @CompressionResult.make Sample.stale false None 0 0 (JS.ofZ 0) None
     end) = true.
Proof. split; reflexivity. Qed.

Section Handler.
Context `{lib : Library} `{machine : !Machine}.

Lemma findGs_chooses (paths : list string) (gsPath : string)
    (calls : list SysCall) :
  exists path calls',
    findGs paths gsPath calls = (Resolved path, calls') /\
    (path = gsPath \/ path ∈ paths).
Proof.
  revert calls. induction paths as [|candidate rest IH]; intros calls.
  - exists gsPath, calls. by split; [|left].
  - simpl. destruct (execFile candidate ["--version"]) as [[]|error].
    + eexists _, _. split; [done|]. right. by left.
    + destruct (IH (calls ++ [ExecFile candidate ["--version"]]))
        as (path & calls' & -> & Hpath).
      eexists _, _. split; [done|]. destruct Hpath; [by left|right; by right].
Qed.

Lemma compressHandler_outcome (bytes : Uint8Array) (level : CompressionLevel)
    (calls : list SysCall) :
  match attempt bytes level calls with
  | (tempDir, Resolved compressed, calls') =>
      compressHandler bytes level calls =
      (Resolved
         (CompressionResult.make true (Some compressed)
            (byteLength bytes) (byteLength compressed)
            (reduction (byteLength bytes) (byteLength compressed)) None),
       cleanup tempDir calls')
  | (tempDir, Rejected error, calls') =>
      compressHandler bytes level calls =
      (Resolved
         (failedWith
            "Failed to compress PDF. Make sure Ghostscript is installed."
            bytes error),
       cleanup tempDir (calls' ++ [ConsoleError error]))
  end.
Proof.
  unfold compressHandler.
  by destruct (attempt bytes level calls) as [[tempDir [compressed|error]] calls'].
Qed.

(** Whatever happened in the [try] block, a directory that was made is
    removed last. *)
Lemma compressHandler_cleans_up (bytes : Uint8Array) (level : CompressionLevel)
    (calls : list SysCall) (tempDir : string) :
  mkdtemp (join tmpdir "pdf-compress-") = Resolved tempDir ->
  exists result calls',
    compressHandler bytes level calls = (Resolved result, calls' ++ [Rm tempDir]).
Proof.
  intros Hdir.
  pose proof (compressHandler_outcome bytes level calls) as Hresult.
  unfold attempt, sys in Hresult. rewrite Hdir in Hresult.
  destruct (compressIn tempDir bytes level _) as [[compressed|error] calls'];
    rewrite Hresult; by eexists _, _.
Qed.

(** No candidate answers the version check: plain [gs] is what is run. *)
Lemma findGs_none_found (paths : list string) (gsPath : string)
    (calls : list SysCall) :
  (forall path, path ∈ paths ->
     exists error, execFile path ["--version"] = Rejected error) ->
  exists calls', findGs paths gsPath calls = (Resolved gsPath, calls').
Proof.
  revert calls. induction paths as [|candidate rest IH]; intros calls Hnone.
  - by eexists.
  - simpl. destruct (Hnone candidate) as [error ->]; [by left|].
    apply IH. intros path Hpath. apply Hnone. by right.
Qed.



(** C7, as the code has it.  A result with [success] true, of either pass,
    reports [max(0, round((1 - compressedSize/originalSize) * 100))],
    worked out in doubles, for the sizes of the input and of the bytes it
    carries.  That value is never below 0.  When the input is not empty
    it is an integer: the rounded percentage of a value less than [2^-44]
    away from the exact one, which is the percentage of the specification
    or, where the exact value is that near to a half, its neighbour.  It
    is 0 when the output is not empty and not smaller than the input. *)
Theorem successful_compression_accounted (bytes : Uint8Array)
    (level : CompressionLevel) (calls : list SysCall)
    (result : CompressionResult.t) :
  (compressPdf bytes level = Resolved result \/
   exists calls', compressHandler bytes level calls = (Resolved result, calls')) ->
  CompressionResult.success result = true ->
  CompressionResult.originalSize result = byteLength bytes /\
  (exists compressed,
     CompressionResult.bytes result = Some compressed /\
     CompressionResult.compressedSize result = byteLength compressed) /\
  accounted result.
Proof.
  intros Hresult Hsuccess.
  assert (exists compressed,
    result = CompressionResult.make true (Some compressed)
               (byteLength bytes) (byteLength compressed)
               (reduction (byteLength bytes) (byteLength compressed)) None)
    as [compressed ->].
  { destruct Hresult as [Hpdf|[calls' Hgs]].
    - pose proof (compressPdf_outcome bytes level) as Hout.
      destruct (compressedBytesOf bytes level) as [compressed|error];
        rewrite Hout in Hpdf; injection Hpdf as <-; [by eexists|done].
    - pose proof (compressHandler_outcome bytes level calls) as Hout.
      destruct (attempt bytes level calls) as [[tempDir [compressed|error]] ?];
        rewrite Hout in Hgs; injection Hgs as <- _; [by eexists|done]. }
  split; [done|]. split; [by eexists|].
  unfold accounted. simpl. split; [done|]. apply reduction_accounted.
Qed.

End Handler.



Lemma successful_compression_accounted_example :
  CompressionResult.originalSize
    (@CompressionResult.make Sample.library true
       (Some (Sample.Written true Sample.memo)) 850 600 (JS.ofZ 29) None) =
  byteLength Sample.reportBytes /\
  (exists compressed,
     Some (Sample.Written true Sample.memo) = Some compressed /\
     600%nat = byteLength compressed) /\
  accounted
    (@CompressionResult.make Sample.library true
       (Some (Sample.Written true Sample.memo)) 850 600 (JS.ofZ 29) None).
Proof.
  apply (successful_compression_accounted (lib := Sample.library)
           (machine := Sample.equipped (Sample.Written true Sample.memo))
           Sample.reportBytes Level50 []).
  - right. eexists. reflexivity.
  - reflexivity.
Defined.

(** C7 as worded fails where the exact percentage ends in one half: for
    4000 bytes that Ghostscript brings down to 1700, the specification
    gives round(57.5) = 58, but in doubles 1 - 0.425 is
    0.575 less half a unit in the last place, its hundredfold is
    57.49999999999999, and the handler reports 57. *)
Lemma compression_reports_less :
  fst (compressHandler (machine := Sample.equipped (Sample.Other 1700))
         (Sample.Other 4000) Level50 []) =
  Resolved
    (@CompressionResult.make Sample.library true (Some (Sample.Other 1700))
       4000 1700 (JS.ofZ 57) None) /\
  (exactPercent 4000 1700 == 115 # 2)%Q /\
  percent 4000 1700 = 58.
Proof. split; [|split]; by vm_compute. Qed.

(* ===================================================================== *)
(** * Document info *)
(* ===================================================================== *)

Section TextFacts.

Lemma split_length (separator : Ascii.ascii) (s : string) :
  length (Text.split separator s) = S (Text.count separator s).
Proof.
  induction s as [|c rest IH]; [done|].
  simpl. destruct (bool_decide (c = separator)); simpl.
  - by rewrite IH.
  - destruct (Text.split separator rest) as [|piece pieces]; [done|].
    exact IH.
Qed.

Lemma split_pieces (separator : Ascii.ascii) (s : string) :
  Forall (fun piece => ~ Text.occurs separator piece) (Text.split separator s).
Proof.
  induction s as [|c rest IH]; simpl.
  - constructor; [by intros []|constructor].
  - destruct (bool_decide (c = separator)) eqn:Hc.
    + constructor; [by intros []|done].
    + apply bool_decide_eq_false in Hc.
      destruct (Text.split separator rest) as [|piece pieces].
      * constructor; [simpl; tauto|constructor].
      * inversion IH as [|? ? Hpiece Hpieces]; subst.
        constructor; [|done]. simpl. tauto.
Qed.

Lemma split_nonempty (separator : Z) (s : CodeUnits) :
  JS.split separator s <> [].
Proof.
  induction s as [|c rest IH]; [done|].
  simpl. destruct (decide (c = separator)); [done|].
  by destruct (JS.split separator rest).
Qed.

Lemma join_cons (separator piece : CodeUnits) (rest : list CodeUnits) :
  rest <> [] ->
  JS.join separator (piece :: rest) = piece ++ separator ++ JS.join separator rest.
Proof. by destruct rest. Qed.

(** Joining the pieces with the separator gives the string back. *)
Lemma join_split (separator : Z) (s : CodeUnits) :
  JS.join [separator] (JS.split separator s) = s.
Proof.
  induction s as [|c rest IH]; [done|].
  pose proof (split_nonempty separator rest) as Hsome.
  cbn [JS.split]. destruct (decide (c = separator)) as [->|Hc].
  - rewrite join_cons by done. simpl. by rewrite IH.
  - destruct (JS.split separator rest) as [|piece pieces]; [done|].
    destruct pieces as [|next more].
    + simpl in *. by rewrite IH.
    + rewrite join_cons by done. rewrite join_cons in IH by done.
      simpl. f_equal. exact IH.
Qed.

Lemma split_free (separator : Z) (s : CodeUnits) :
  Forall (fun piece => separator ∉ piece) (JS.split separator s).
Proof.
  induction s as [|c rest IH]; simpl.
  - constructor; [apply not_elem_of_nil|constructor].
  - destruct (decide (c = separator)) as [->|Hc].
    + constructor; [apply not_elem_of_nil|done].
    + destruct (JS.split separator rest) as [|piece pieces].
      * constructor; [|constructor].
        apply not_elem_of_cons. split; [done|apply not_elem_of_nil].
      * inversion IH as [|? ? Hpiece Hpieces]; subst.
        constructor; [|done]. apply not_elem_of_cons. by split.
Qed.

Lemma split_count (separator : Z) (s : list Z) :
  length (JS.split separator s) =
  S (length (filter (fun c => c = separator) s)).
Proof.
  induction s as [|c rest IH]; [done|].
  rewrite filter_cons. simpl.
  destruct (decide (c = separator)); simpl; [by rewrite IH|].
  destruct (JS.split separator rest) as [|piece pieces]; [done|].
  exact IH.
Qed.

Lemma trimStart_stripped (s : CodeUnits) :
  exists before,
    s = before ++ JS.trimStart s /\ Forall white before /\
    (forall c, head (JS.trimStart s) = Some c -> ~ white c).
Proof.
  induction s as [|c rest (before & Hrest & Hbefore & Hhead)].
  - exists []. split; [done|]. split; [constructor|done].
  - simpl. destruct (JS.isWhiteSpace c) eqn:Hc.
    + exists (c :: before). split; [simpl; by f_equal|].
      split; [|done]. constructor; [|done].
      by apply bool_decide_eq_true in Hc.
    + exists []. split; [done|]. split; [constructor|].
      intros d [= <-]. by apply bool_decide_eq_false in Hc.
Qed.

Lemma trimEnd_stripped (s : CodeUnits) :
  exists after,
    s = JS.trimEnd s ++ after /\ Forall white after /\
    (forall c, last (JS.trimEnd s) = Some c -> ~ white c).
Proof.
  unfold JS.trimEnd.
  destruct (trimStart_stripped (reverse s)) as (before & Hs & Hbefore & Hhead).
  exists (reverse before). split; [|split].
  - by rewrite <- reverse_app, <- Hs, reverse_involutive.
  - by apply Forall_reverse.
  - intros c Hc. rewrite last_reverse in Hc. by apply Hhead.
Qed.

(** [trim] takes white space off both ends, and all of it. *)
Lemma trim_stripped (s : CodeUnits) : trimmedOf s (JS.trim s).
Proof.
  unfold JS.trim.
  destruct (trimStart_stripped s) as (before & Hs & Hbefore & Hhead).
  destruct (trimEnd_stripped (JS.trimStart s)) as (after & Ht & Hafter & Hlast).
  exists before, after. split; [by rewrite <- Ht|].
  split; [done|]. split; [done|]. split; [|done].
  intros c Hc. apply Hhead. rewrite Ht.
  by destruct (JS.trimEnd (JS.trimStart s)).
Qed.

Lemma trim_each (pieces : list CodeUnits) :
  Forall2 trimmedOf pieces (map JS.trim pieces).
Proof.
  induction pieces as [|piece rest IH]; constructor; [|done].
  apply trim_stripped.
Qed.

End TextFacts.

Section DocumentInfo.
Context `{lib : Library} `{access : PageAccess}.

(** X1.  For a document that loads, [loadPdfInfo] reports one entry per
    page, in page order: the entry at position [i] carries [pageIndex] [i]
    and the width, height and rotation of page [i], and [pageCount] is
    the number of entries. *)
Theorem loadPdfInfo_pages (bytes : Uint8Array) (doc : PDFDocument) :
  parse bytes = Resolved doc ->
  exists info,
    loadPdfInfo bytes = Resolved info /\
    PdfDocumentInfo.pageCount info =
      Z.of_nat (length (PdfDocumentInfo.pages info)) /\
    length (PdfDocumentInfo.pages info) = length (pages doc) /\
    forall (i : nat) (page : PDFPage),
      pages doc !! i = Some page ->
      PdfDocumentInfo.pages info !! i =
      Some (PdfPageInfo.make (Z.of_nat i) (PdfLib.width page)
              (PdfLib.height page) (PdfLib.rotation page)).
Proof.
  intros Hdoc. unfold loadPdfInfo. rewrite (load_parsed _ _ _ Hdoc).
  eexists. split; [done|]. simpl. unfold getPageCount. simpl.
  rewrite length_imap. repeat split.
  intros i page Hpage. rewrite list_lookup_imap, Hpage. done.
Qed.

(** X2.  [loadPdfInfo] passes title, author and subject on as the file has
    them, but never the producer or the modification date of the file:
    the load has replaced them by the library's name and the time of the
    load; creator and creation date are the file's when it has such an
    entry, an empty one included. *)
Theorem loadPdfInfo_metadata (bytes : Uint8Array) (doc : PDFDocument) :
  parse bytes = Resolved doc ->
  exists info,
    loadPdfInfo bytes = Resolved info /\
    PdfDocumentInfo.title info = PdfLib.title doc /\
    PdfDocumentInfo.author info = PdfLib.author doc /\
    PdfDocumentInfo.subject info = PdfLib.subject doc /\
    PdfDocumentInfo.producer info = Some producerName /\
    PdfDocumentInfo.modificationDate info = Some now /\
    PdfDocumentInfo.creator info =
      (match PdfLib.creator doc with
       | None => Some producerName
       | given => given
       end) /\
    PdfDocumentInfo.creationDate info =
      (match PdfLib.creationDate doc with
       | None => Some now
       | given => given
       end).
Proof.
  intros Hdoc. unfold loadPdfInfo. rewrite (load_parsed _ _ _ Hdoc).
  eexists. split; [done|]. simpl. by repeat split.
Qed.

(** X3.  The keywords [loadPdfInfo] reports are the pieces of the keywords
    entry between its commas, each without the white space at its ends:
    the pieces hold no comma and give the entry back when they are joined
    by commas, there is one more of them than there are commas, and each
    keyword is its piece with white space, and only white space, taken
    off both ends until none is left there.  No entry gives no list. *)
Theorem loadPdfInfo_keywords (bytes : Uint8Array) (doc : PDFDocument) :
  parse bytes = Resolved doc ->
  exists info,
    loadPdfInfo bytes = Resolved info /\
    match PdfLib.keywords doc with
    | None => PdfDocumentInfo.keywords info = None
    | Some entry =>
        exists pieces words,
          PdfDocumentInfo.keywords info = Some words /\
          JS.join [44] pieces = entry /\
          Forall (fun piece => 44 ∉ piece) pieces /\
          length pieces = S (length (filter (fun c => c = 44) entry)) /\
          Forall2 trimmedOf pieces words
    end.
Proof.
  intros Hdoc. unfold loadPdfInfo. rewrite (load_parsed _ _ _ Hdoc).
  eexists. split; [done|]. simpl.
  destruct (PdfLib.keywords doc) as [entry|]; [|done].
  exists (JS.split 44 entry), (map JS.trim (JS.split 44 entry)).
  split; [done|]. split; [apply join_split|]. split; [apply split_free|].
  split; [apply split_count|apply trim_each].
Qed.

End DocumentInfo.

Lemma loadPdfInfo_pages_example :
  exists info,
    loadPdfInfo Sample.reportBytes = Resolved info /\
    PdfDocumentInfo.pageCount info =
      Z.of_nat (length (PdfDocumentInfo.pages info)) /\
    length (PdfDocumentInfo.pages info) = length (pages Sample.report) /\
    forall (i : nat) (page : PDFPage),
      pages Sample.report !! i = Some page ->
      PdfDocumentInfo.pages info !! i =
      Some (PdfPageInfo.make (Z.of_nat i) (PdfLib.width page)
              (PdfLib.height page) (PdfLib.rotation page)).
Proof.
  apply (loadPdfInfo_pages (lib := Sample.library)
           Sample.reportBytes Sample.report).
  reflexivity.
Defined.

Lemma loadPdfInfo_metadata_example :
  exists info,
    loadPdfInfo Sample.reportBytes = Resolved info /\
    PdfDocumentInfo.title info = Some "Report" /\
    PdfDocumentInfo.author info = Some "A. Writer" /\
    PdfDocumentInfo.subject info = None /\
    PdfDocumentInfo.producer info = Some producerName /\
    PdfDocumentInfo.modificationDate info = Some 1767225600 /\
    PdfDocumentInfo.creator info = Some "Editor" /\
    PdfDocumentInfo.creationDate info = Some 1700000000.
Proof.
  apply (loadPdfInfo_metadata (lib := Sample.library)
           Sample.reportBytes Sample.report).
  reflexivity.
Defined.

(** The entry [" alpha, beta gamma ,,"] is reported as the four keywords
    ["alpha"], ["beta gamma"], [""] and [""]. *)
Lemma loadPdfInfo_keywords_example :
  (exists info,
     loadPdfInfo (Sample.Written true Sample.tagged) = Resolved info /\
     exists pieces words,
       PdfDocumentInfo.keywords info = Some words /\
       JS.join [44] pieces = JS.unitsOf " alpha, beta gamma ,," /\
       Forall (fun piece => 44 ∉ piece) pieces /\
       length pieces = 4%nat /\
       Forall2 trimmedOf pieces words) /\
  option_map PdfDocumentInfo.keywords
    (match loadPdfInfo (Sample.Written true Sample.tagged) with
     | Resolved info => Some info
     | Rejected _ => None
     end) =
  Some (Some [JS.unitsOf "alpha"; JS.unitsOf "beta gamma"; []; []]).
Proof.
  split; [|reflexivity].
  apply (loadPdfInfo_keywords (lib := Sample.library)
           (Sample.Written true Sample.tagged) Sample.tagged).
  reflexivity.
Defined.

(* ===================================================================== *)
(** * Rotation and empty documents *)
(* ===================================================================== *)

Section Rotation.
Context `{lib : Library} `{access : PageAccess}.

Lemma save_with_pages (doc : PDFDocument) :
  pages doc <> [] -> save doc noOptions = serialize true doc.
Proof.
  intros Hpages. unfold save, prepareForSave, getPageCount. simpl.
  destruct (pages doc); [done|]. done.
Qed.


(** X5.  On an index that is no page index, negative ones included,
    [rotatePage] rejects and writes nothing; on a document without pages
    it rejects whatever the index. *)
Theorem rotatePage_out_of_range (bytes : Uint8Array) (doc : PDFDocument)
    (pageIndex : Z) (rotationDegrees : RotationDegrees) :
  parse bytes = Resolved doc ->
  ~ inRange doc pageIndex ->
  rotatePage bytes pageIndex rotationDegrees =
  Rejected (noSuchPage pageIndex (getPageCount doc)).
Proof.
  intros Hdoc Hout. unfold rotatePage, getPage.
  rewrite (load_parsed _ _ _ Hdoc). simpl. unfold getPages. simpl.
  by rewrite (index_out_of_range _ _ Hout).
Qed.

(** X6.  With a parser that reads back what the writer wrote, the info of
    the document [createEmptyPdf] makes shows exactly one page, of the size
    asked for (612 by 792 when none is) and not rotated: the blank page of
    [save] is not added to it. *)
Theorem createEmptyPdf_info (width height : option Q) :
  readsBack ->
  exists info,
    loadPdfInfo (createEmptyPdf width height) = Resolved info /\
    PdfDocumentInfo.pageCount info = 1 /\
    PdfDocumentInfo.pages info =
      [PdfPageInfo.make 0 (default 612%Q width) (default 792%Q height) 0].
Proof.
  intros Hreads. unfold createEmptyPdf, addBlankPage.
  rewrite save_with_pages by done.
  unfold loadPdfInfo, load. rewrite Hreads. by eexists.
Qed.

End Rotation.


Lemma rotatePage_out_of_range_example :
  rotatePage Sample.reportBytes (-1) Degrees90 =
  Rejected (noSuchPage (-1) (getPageCount Sample.report)).
Proof.
  apply (rotatePage_out_of_range (lib := Sample.library)
           Sample.reportBytes Sample.report (-1) Degrees90).
  - reflexivity.
  - intros [Hlow _]. vm_compute in Hlow. by apply Hlow.
Defined.

Lemma createEmptyPdf_info_example :
  exists info,
    loadPdfInfo (createEmptyPdf (lib := Sample.library) None (Some 500%Q)) =
      Resolved info /\
    PdfDocumentInfo.pageCount info = 1 /\
    PdfDocumentInfo.pages info = [PdfPageInfo.make 0 612 500 0].
Proof.
  apply (createEmptyPdf_info (lib := Sample.library) None (Some 500%Q)).
  intros objectStreams doc. reflexivity.
Defined.

(* ===================================================================== *)
(** * What baking does to a document *)
(* ===================================================================== *)

Section Baking.
Context `{lib : Library} `{utils : Utils}.

Lemma draw_appends (page drawn : PDFPage) (call : DrawCall) :
  draw page call = Resolved drawn -> drawn = drawnOn page [call].
Proof.
  unfold draw. destruct (checkDraw call); [done|]. by intros [= <-].
Qed.

Lemma bake_appends (pdfDoc : PDFDocument) (page drawn : PDFPage)
    (annotation : Annotation.t) :
  bake pdfDoc page annotation = Resolved drawn ->
  exists calls, drawn = drawnOn page calls.
Proof.
  unfold bake. destruct (hexToRgb _) as [color|error]; [|done]. simpl.
  assert (page = drawnOn page []) as Hsame.
  { unfold drawnOn. rewrite app_nil_r. by destruct page. }
  destruct (Annotation.type annotation);
    unfold drawHighlight, drawUnderline, drawStrikeout, drawRectangle,
      drawTextAnnotation;
    try (destruct (Annotation.content annotation) as [[|letter words]|]);
    intros Hdrawn;
    first [ apply draw_appends in Hdrawn; by eexists
          | injection Hdrawn as <-; by exists [] ].
Qed.

Lemma drawnOn_twice (page : PDFPage) (first second : list DrawCall) :
  drawnOn (drawnOn page first) second = drawnOn page (first ++ second).
Proof. unfold drawnOn. simpl. by rewrite app_assoc. Qed.

Lemma bakeAll_appends (doc out : PDFDocument)
    (annotations : list Annotation.t) :
  bakeAll doc annotations = Resolved out ->
  length (pages out) = length (pages doc) /\
  forall (i : nat) (page : PDFPage),
    pages doc !! i = Some page ->
    exists calls,
      pages out !! i = Some (drawnOn page calls) /\
      ((forall annotation, annotation ∈ annotations ->
          Annotation.pageIndex annotation <> Z.of_nat i) ->
       calls = []).
Proof.
  revert doc. induction annotations as [|annotation rest IH]; intros doc Hout.
  - injection Hout as <-. split; [done|]. intros i page Hpage.
    exists []. split; [|done]. rewrite Hpage. f_equal.
    unfold drawnOn. rewrite app_nil_r. by destruct page.
  - simpl in Hout.
    destruct (JS.index (getPages doc) (Annotation.pageIndex annotation))
      as [target|] eqn:Htarget.
    + destruct (bake doc target annotation) as [drawn|error] eqn:Hbake;
        [|done].
      simpl in Hout. apply bake_appends in Hbake as [first ->].
      apply IH in Hout as [Hlength Hpages].
      unfold setPage in Hlength, Hpages. simpl in Hlength, Hpages.
      rewrite length_insert in Hlength. split; [done|].
      unfold JS.index, getPages in Htarget.
      destruct (decide (0 <= Annotation.pageIndex annotation)) as [Hlow|];
        [|done].
      intros i page Hpage.
      destruct (decide (i = Z.to_nat (Annotation.pageIndex annotation)))
        as [->|Hother].
      * assert (page = target) as -> by congruence.
        destruct (Hpages (Z.to_nat (Annotation.pageIndex annotation))
                    (drawnOn target first)) as (second & Hfinal & _).
        { apply list_lookup_insert_eq. by eapply lookup_lt_Some. }
        exists (first ++ second). rewrite <- drawnOn_twice. split; [done|].
        intros Hnone. exfalso. apply (Hnone annotation); [by left|]. lia.
      * destruct (Hpages i page) as (calls & Hfinal & Hnone).
        { by rewrite list_lookup_insert_ne. }
        exists calls. split; [done|]. intros Huntouched. apply Hnone.
        intros other Hin. apply Huntouched. by right.
    + apply IH in Hout as [Hlength Hpages]. split; [done|].
      intros i page Hpage. destruct (Hpages i page Hpage) as (calls & ? & Hnone).
      exists calls. split; [done|]. intros Huntouched. apply Hnone.
      intros other Hin. apply Huntouched. by right.
Qed.

(** X7.  When [applyAnnotations] succeeds on a document with pages, what it
    writes has the same number of pages, each with the size and rotation
    it had and with its content followed by what was drawn on it; a page
    that no annotation names is written as it was loaded. *)
Theorem applyAnnotations_only_adds (bytes result : Uint8Array)
    (doc : PDFDocument) (annotations : list Annotation.t) :
  parse bytes = Resolved doc ->
  pages doc <> [] ->
  applyAnnotations bytes annotations = Resolved result ->
  exists out,
    result = serialize true out /\
    length (pages out) = length (pages doc) /\
    forall (i : nat) (page : PDFPage),
      pages doc !! i = Some page ->
      exists calls,
        pages out !! i = Some (drawnOn page calls) /\
        ((forall annotation, annotation ∈ annotations ->
            Annotation.pageIndex annotation <> Z.of_nat i) ->
         calls = []).
Proof.
  intros Hdoc Hpages. unfold applyAnnotations.
  rewrite (load_parsed _ _ _ Hdoc). cbn [JS.bind].
  destruct (bakeAll (updateInfoDict doc) annotations) as [out|error] eqn:Hbaked;
    [|done].
  cbn [JS.bind]. intros [= <-].
  apply bakeAll_appends in Hbaked as [Hlength Hout]. simpl in Hlength, Hout.
  exists out. split; [|done].
  apply save_with_pages. intros Hnil. rewrite Hnil in Hlength.
  by destruct (pages doc).
Qed.

Lemma bakeAll_bad_colour (doc : PDFDocument) (annotations : list Annotation.t)
    (annotation : Annotation.t) (thrown : Thrown) :
  annotation ∈ annotations ->
  inRange doc (Annotation.pageIndex annotation) ->
  hexToRgb (Annotation.color annotation) = Rejected thrown ->
  exists error, bakeAll doc annotations = Rejected error.
Proof.
  intros Hin Hrange Hcolour. revert doc Hrange.
  induction annotations as [|first rest IH]; intros doc Hrange.
  { by apply elem_of_nil in Hin. }
  simpl. apply elem_of_cons in Hin as [<-|Hin].
  - destruct (index_in_range _ _ Hrange) as [page Hpage].
    unfold getPages. rewrite Hpage. unfold bake. rewrite Hcolour.
    by eexists.
  - destruct (JS.index _ _) as [page|]; [|by apply IH].
    destruct (bake doc page first) as [drawn|error]; [|by eexists].
    simpl. apply IH; [done|]. by apply inRange_setPage.
Qed.

(** X8.  One annotation on an existing page whose colour [hexToRgb]
    refuses makes the whole of [applyAnnotations] reject, whatever its
    type, also a type for which nothing is drawn, and whatever the other
    annotations are. *)
Theorem applyAnnotations_bad_colour (bytes : Uint8Array) (doc : PDFDocument)
    (annotations : list Annotation.t) (annotation : Annotation.t)
    (thrown : Thrown) :
  parse bytes = Resolved doc ->
  annotation ∈ annotations ->
  inRange doc (Annotation.pageIndex annotation) ->
  hexToRgb (Annotation.color annotation) = Rejected thrown ->
  exists error, applyAnnotations bytes annotations = Rejected error.
Proof.
  intros Hdoc Hin Hrange Hcolour. unfold applyAnnotations.
  rewrite (load_parsed _ _ _ Hdoc). cbn [JS.bind].
  destruct (bakeAll_bad_colour (updateInfoDict doc) annotations annotation
              thrown) as [error ->]; [done..|].
  by eexists.
Qed.

End Baking.

Lemma applyAnnotations_only_adds_example :
  exists out,
    Sample.Written true
      (setPage (updateInfoDict Sample.report) 0
         (Sample.letter
            [Sample.mark "one";
             DrawRectangle 10 742 100 30 (Some (rgb 1 1 0)) None None (1 # 2)]))
    = serialize true out /\
    length (pages out) = length (pages Sample.report) /\
    forall (i : nat) (page : PDFPage),
      pages Sample.report !! i = Some page ->
      exists calls,
        pages out !! i = Some (drawnOn page calls) /\
        ((forall annotation,
            annotation ∈ [Sample.marker highlight 0; Sample.marker arrow 7] ->
            Annotation.pageIndex annotation <> Z.of_nat i) ->
         calls = []).
Proof.
  apply (applyAnnotations_only_adds (lib := Sample.library)
           (utils := Sample.utils) Sample.reportBytes _ Sample.report
           [Sample.marker highlight 0; Sample.marker arrow 7]).
  - reflexivity.
  - discriminate.
  - reflexivity.
Defined.

Lemma applyAnnotations_bad_colour_example :
  exists error,
    applyAnnotations (utils := Sample.strict) Sample.reportBytes
      (EditorState.annotations Sample.editing) = Rejected error.
Proof.
  apply (applyAnnotations_bad_colour (lib := Sample.library)
           (utils := Sample.strict) Sample.reportBytes Sample.report
           (EditorState.annotations Sample.editing)
           (Annotation.make "n2" freeform 1 (Rect.make 0 0 10 10) "red" 1 0 0
              None None)
           (ErrorObject "Invalid hex color")).
  - reflexivity.
  - apply list_elem_of_In. cbn. tauto.
  - unfold inRange, getPageCount. simpl. lia.
  - reflexivity.
Defined.

(* ===================================================================== *)
(** * How page set operations relate *)
(* ===================================================================== *)

Section Relations.
Context `{lib : Library}.

Lemma mergeSources_unreadable (sources : list MergeSource.t)
    (mergedPdf : PDFDocument) (source : MergeSource.t) (thrown : Thrown) :
  source ∈ sources ->
  parse (MergeSource.bytes source) = Rejected thrown ->
  exists error, mergeSources mergedPdf sources = Rejected error.
Proof.
  intros Hin Hbad. revert mergedPdf.
  induction sources as [|first rest IH]; intros mergedPdf.
  { by apply elem_of_nil in Hin. }
  simpl. apply elem_of_cons in Hin as [<-|Hin].
  - unfold load. rewrite Hbad. by eexists.
  - destruct (load (MergeSource.bytes first) true) as [firstPdf|error];
      [|by eexists].
    simpl. destruct (copyPages firstPdf _) as [copied|error]; [|by eexists].
    simpl. by apply IH.
Qed.

(** X9.  One source whose bytes do not parse makes the whole merge fail:
    [mergePdfs] answers with [success] false, a message and no bytes,
    wherever the source stands in the list and whatever the others are. *)
Theorem mergePdfs_unreadable_source (sources : list MergeSource.t)
    (source : MergeSource.t) (thrown : Thrown) :
  source ∈ sources ->
  parse (MergeSource.bytes source) = Rejected thrown ->
  exists message, mergePdfs sources = MergeResult.make false None (Some message).
Proof.
  intros Hin Hbad. unfold mergePdfs.
  destruct (mergeSources_unreadable sources create source thrown)
    as [error ->]; [done..|].
  by eexists.
Qed.

Lemma pagesAt_all (doc : PDFDocument) :
  pagesAt doc (seqZ 0 (getPageCount doc)) = pages doc.
Proof.
  apply list_eq. intros k.
  rewrite pagesAt_lookup by apply range_in_range.
  unfold getPageCount.
  destruct (decide (k < length (pages doc))%nat) as [Hlt|Hge].
  - rewrite lookup_seqZ_lt by lia. simpl. unfold JS.index.
    rewrite decide_True by lia. f_equal. lia.
  - rewrite lookup_seqZ_ge by lia. simpl. symmetry.
    apply lookup_ge_None. lia.
Qed.

(** X10.  Merging a single source and extracting its selection from its
    bytes write the same pages when the selection lists at least one page.
    With an empty selection they part: the merge writes every page of the
    document, the extraction none of them. *)
Theorem mergePdfs_single_source (source : MergeSource.t) (doc : PDFDocument) :
  parse (MergeSource.bytes source) = Resolved doc ->
  Forall (inRange doc) (MergeSource.selectedPages source) ->
  match MergeSource.selectedPages source with
  | [] =>
      mergePdfs [source] =
        MergeResult.make true (Some (written (pages doc))) None /\
      extractPages (MergeSource.bytes source) [] = Resolved (written [])
  | selected =>
      mergePdfs [source] =
        MergeResult.make true (Some (written (pagesAt doc selected))) None /\
      extractPages (MergeSource.bytes source) selected =
        Resolved (written (pagesAt doc selected))
  end.
Proof.
  intros Hdoc Hvalid.
  assert (mergePdfs [source] =
          MergeResult.make true
            (Some (written
                     (pagesAt doc
                        (resolved (MergeSource.selectedPages source) doc))))
            None) as Hmerge.
  { unfold mergePdfs. rewrite create_fresh.
    rewrite (mergeSources_selected [source] [doc] []) by by repeat constructor.
    simpl. by rewrite save_fresh, app_nil_r. }
  pose proof (extractPages_in_range _ _ _ Hdoc Hvalid) as Hextract.
  destruct (MergeSource.selectedPages source) as [|i rest].
  - simpl in Hmerge. by rewrite pagesAt_all in Hmerge.
  - simpl in Hmerge. by split.
Qed.

Lemma index_pagesAt (doc : PDFDocument) (indices : list Z) (j : Z) :
  Forall (inRange doc) indices ->
  JS.index (pagesAt doc indices) j =
  JS.index indices j ≫= JS.index (pages doc).
Proof.
  intros Hvalid.
  assert (forall A (l : list A),
            JS.index l j = if decide (0 <= j) then l !! Z.to_nat j else None)
    as Hindex by done.
  rewrite !Hindex. destruct (decide (0 <= j)); [|done].
  by apply pagesAt_lookup.
Qed.

Lemma omap_bind {A B C} (f : A -> option B) (g : B -> option C) (l : list A) :
  omap (fun a => f a ≫= g) l = omap g (omap f l).
Proof.
  induction l as [|a l IH]; [done|].
  cbn. destruct (f a) as [b|]; cbn; [|done].
  destruct (g b); cbn; by rewrite IH.
Qed.

Lemma composed_in_range (doc : PDFDocument) (first second : list Z) :
  Forall (inRange doc) first -> Forall (inRange doc) (composed first second).
Proof.
  intros Hvalid. apply Forall_forall. intros i Hi.
  apply list_elem_of_omap in Hi as (j & _ & Hj).
  unfold JS.index in Hj. destruct (decide (0 <= j)); [|done].
  eapply Forall_forall; [done|]. by eapply list_elem_of_lookup_2.
Qed.

(** X11.  With a parser that reads back what the writer wrote, extracting
    from an extract is extracting once with the composed list: taking the
    pages [second] of the pages [first] of a document gives the pages
    found under the entries of [first] that [second] names, provided
    [first] lists at least one page and [second] stays within [first]. *)
Theorem extractPages_twice (bytes : Uint8Array) (doc : PDFDocument)
    (first second : list Z) :
  readsBack ->
  parse bytes = Resolved doc ->
  Forall (inRange doc) first ->
  first <> [] ->
  Forall (fun j => 0 <= j < Z.of_nat (length first)) second ->
  exists middle,
    extractPages bytes first = Resolved middle /\
    extractPages middle second =
      Resolved (written (pagesAt doc (composed first second))) /\
    extractPages bytes (composed first second) =
      Resolved (written (pagesAt doc (composed first second))).
Proof.
  intros Hreads Hdoc Hfirst Hsome Hsecond.
  exists (written (pagesAt doc first)).
  split; [by apply extractPages_in_range|]. split.
  - assert (written (pagesAt doc first) = serialize true (fresh (pagesAt doc first)))
      as Hwritten.
    { unfold written. destruct (pagesAt doc first) eqn:Hnone; [|done].
      apply (f_equal length) in Hnone. rewrite length_pagesAt in Hnone by done.
      by destruct first. }
    rewrite (extractPages_in_range _ (fresh (pagesAt doc first))).
    + do 2 f_equal. unfold pagesAt at 1. simpl.
      rewrite (list_omap_ext _ (fun j => JS.index first j ≫= JS.index (pages doc))
                 second second); [by rewrite omap_bind|].
      apply Forall_Forall2_diag, Forall_forall. intros j _.
      by apply index_pagesAt.
    + by rewrite Hwritten, Hreads.
    + eapply Forall_impl; [exact Hsecond|]. intros j Hj.
      unfold inRange, getPageCount. simpl. by rewrite length_pagesAt.
  - apply extractPages_in_range; [done|]. by apply composed_in_range.
Qed.

End Relations.

Lemma mergePdfs_unreadable_source_example :
  exists message,
    mergePdfs [Sample.sourceA;
               @MergeSource.make Sample.library "x" "notes.txt" (Sample.Other 12) 0 [];
               Sample.sourceB] =
    @MergeResult.make Sample.library false None (Some message).
Proof.
  apply (mergePdfs_unreadable_source (lib := Sample.library) _
           (@MergeSource.make Sample.library "x" "notes.txt" (Sample.Other 12) 0 [])
           (ErrorObject "Failed to parse PDF document")).
  - apply list_elem_of_In. cbn. tauto.
  - reflexivity.
Defined.

Lemma mergePdfs_single_source_example :
  mergePdfs [@MergeSource.make Sample.library "a" "report.pdf" Sample.reportBytes 3 []] =
    @MergeResult.make Sample.library true
      (Some (written (pages Sample.report))) None /\
  extractPages Sample.reportBytes [] = Resolved (written []).
Proof.
  apply (mergePdfs_single_source (lib := Sample.library)
           (@MergeSource.make Sample.library "a" "report.pdf" Sample.reportBytes 3 [])
           Sample.report).
  - reflexivity.
  - constructor.
Defined.

Lemma extractPages_twice_example :
  exists middle,
    extractPages Sample.reportBytes [2; 0; 1] = Resolved middle /\
    extractPages middle [1; 1; 0] =
      Resolved (written (pagesAt Sample.report (composed [2; 0; 1] [1; 1; 0]))) /\
    extractPages Sample.reportBytes (composed [2; 0; 1] [1; 1; 0]) =
      Resolved (written (pagesAt Sample.report (composed [2; 0; 1] [1; 1; 0]))).
Proof.
  apply (extractPages_twice (lib := Sample.library)
           Sample.reportBytes Sample.report [2; 0; 1] [1; 1; 0]).
  - intros objectStreams doc. reflexivity.
  - reflexivity.
  - repeat constructor; unfold inRange; cbn; lia.
  - discriminate.
  - repeat constructor; cbn; lia.
Defined.

(* ===================================================================== *)
(** * The compression handler at work *)
(* ===================================================================== *)

Section HandlerAtWork.
Context `{lib : Library} `{machine : !Machine}.

Lemma findGs_none_answers (paths : list string) (gsPath : string)
    (calls : list SysCall) :
  Forall (fun path => exists error,
            execFile path ["--version"] = Rejected error) paths ->
  findGs paths gsPath calls = (Resolved gsPath, calls ++ map probe paths).
Proof.
  intros Hnone. revert calls.
  induction Hnone as [|path rest [error Hpath] _ IH]; intros calls.
  - simpl. by rewrite app_nil_r.
  - simpl. unfold sys. rewrite Hpath, IH. by rewrite <- app_assoc.
Qed.

(** X12.  The search for Ghostscript asks the candidates in order and
    stops at the first whose version check runs: that one is chosen and
    none after it is asked.  When no candidate answers, every one has been
    asked once and the initial [gsPath] is kept. *)
Theorem findGs_first_answer (before after : list string)
    (found gsPath : string) (calls : list SysCall) :
  Forall (fun path => exists error,
            execFile path ["--version"] = Rejected error) before ->
  (execFile found ["--version"] = Resolved tt ->
   findGs (before ++ found :: after) gsPath calls =
   (Resolved found, calls ++ map probe before ++ [probe found])) /\
  ((exists error, execFile found ["--version"] = Rejected error) ->
   Forall (fun path => exists error,
             execFile path ["--version"] = Rejected error) after ->
   findGs (before ++ found :: after) gsPath calls =
   (Resolved gsPath, calls ++ map probe (before ++ found :: after))).
Proof.
  intros Hbefore. split.
  - intros Hfound. revert calls.
    induction Hbefore as [|path rest [error Hpath] _ IH]; intros calls.
    + simpl. unfold sys. by rewrite Hfound.
    + simpl. unfold sys. rewrite Hpath, IH. by rewrite <- app_assoc.
  - intros Hfound Hafter. apply findGs_none_answers.
    apply Forall_app. split; [done|]. by constructor.
Qed.

Ltac works :=
  repeat first
    [ assumption
    | exact I
    | apply Forall_nil_2
    | apply Forall_cons_2
    | apply Forall_app_2 ].

Lemma findGs_calls (paths : list string) (gsPath : string)
    (calls : list SysCall) :
  exists path made,
    findGs paths gsPath calls = (Resolved path, calls ++ made) /\
    Forall fileWork made /\ (path = gsPath \/ path ∈ paths).
Proof.
  revert calls. induction paths as [|candidate rest IH]; intros calls.
  - exists gsPath, []. rewrite app_nil_r. split; [done|].
    split; [works|by left].
  - simpl. unfold sys. destruct (execFile candidate ["--version"]) as [[]|error].
    + eexists _, [_]. split; [done|]. split; [works|]. right. by left.
    + destruct (IH (calls ++ [ExecFile candidate ["--version"]]))
        as (path & made & -> & Hmade & Hpath).
      exists path, (ExecFile candidate ["--version"] :: made).
      rewrite <- app_assoc. split; [done|]. split; [works|].
      destruct Hpath; [by left|right; by right].
Qed.

Lemma compressIn_calls (tempDir : string) (bytes : Uint8Array)
    (level : CompressionLevel) (calls : list SysCall) :
  exists outcome made,
    compressIn tempDir bytes level calls = (outcome, calls ++ made) /\
    Forall fileWork made /\
    (forall compressed, outcome = Resolved compressed ->
       writeFile (join tempDir "input.pdf") bytes = Resolved tt /\
       readFile (join tempDir "output.pdf") = Resolved compressed /\
       exists gsPath,
         gsPath ∈ gsPaths /\
         execFile gsPath
           (gsArgs (settingsMap level) (join tempDir "output.pdf")
                   (join tempDir "input.pdf")) = Resolved tt).
Proof.
  unfold compressIn, andThen, sys.
  destruct (writeFile (join tempDir "input.pdf") bytes) as [[]|error].
  2: { eexists _, [_]. split; [done|]. split; [works|]. by intros ? [=]. }
  destruct (findGs_calls gsPaths "gs"
              (calls ++ [WriteFile (join tempDir "input.pdf") bytes]))
    as (gsPath & probes & -> & Hprobes & Hpath).
  assert (gsPath ∈ gsPaths) as Hlisted.
  { destruct Hpath as [->|]; [|done]. unfold gsPaths. do 3 right. by left. }
  destruct (execFile gsPath _) as [[]|error] eqn:Hrun.
  2: { eexists _, (_ :: probes ++ [_]). rewrite <- !app_assoc.
       split; [done|]. split; [works|]. by intros ? [=]. }
  destruct (readFile (join tempDir "output.pdf")) as [compressed|error] eqn:Hread.
  - eexists _, (_ :: probes ++ [_; _]). unfold pure. rewrite <- !app_assoc.
    split; [done|]. split; [works|].
    intros ? [= <-]. repeat split. by exists gsPath.
  - eexists _, (_ :: probes ++ [_; _]). rewrite <- !app_assoc.
    split; [done|]. split; [works|]. by intros ? [=].
Qed.

(** X13.  The handler removes the temporary directory it made, as the last
    thing it does and once, whether the compression worked or failed and
    whatever the removal answers; between making and removing it only
    works on files and runs programs.  When the directory could not be
    made it touches nothing else: it logs the error and removes
    nothing. *)
Theorem compressHandler_temporary_directory (bytes : Uint8Array)
    (level : CompressionLevel) (calls : list SysCall) :
  let prefix := join tmpdir "pdf-compress-" in
  match mkdtemp prefix with
  | Resolved tempDir =>
      exists result work logged,
        compressHandler bytes level calls =
        (Resolved result,
         calls ++ [Mkdtemp prefix] ++ work ++ logged ++ [Rm tempDir]) /\
        Forall fileWork work /\
        (logged = [] \/ exists error, logged = [ConsoleError error])
  | Rejected error =>
      compressHandler bytes level calls =
      (Resolved
         (failedWith
            "Failed to compress PDF. Make sure Ghostscript is installed."
            bytes error),
       calls ++ [Mkdtemp prefix; ConsoleError error])
  end.
Proof.
  intros prefix. unfold compressHandler, attempt, sys. fold prefix.
  destruct (mkdtemp prefix) as [tempDir|error].
  - destruct (compressIn_calls tempDir bytes level (calls ++ [Mkdtemp prefix]))
      as (outcome & work & -> & Hwork & _).
    destruct outcome as [compressed|error]; simpl; unfold sys; simpl.
    + eexists _, work, []. rewrite <- !app_assoc. simpl.
      split; [done|]. split; [done|by left].
    + eexists _, work, [_]. rewrite <- !app_assoc. simpl.
      split; [done|]. split; [done|]. right. by eexists.
  - simpl. by rewrite <- app_assoc.
Qed.

(** X14.  The handler reports [success] only when the directory was made,
    the input was written into it, a Ghostscript of the candidate list ran
    to its end on that input with the preset of the level, and the output
    file was read: the bytes of the result are the bytes read. *)
Theorem compressHandler_success (bytes : Uint8Array) (level : CompressionLevel)
    (calls calls' : list SysCall) (result : CompressionResult.t) :
  compressHandler bytes level calls = (Resolved result, calls') ->
  CompressionResult.success result = true ->
  exists tempDir gsPath compressed,
    mkdtemp (join tmpdir "pdf-compress-") = Resolved tempDir /\
    writeFile (join tempDir "input.pdf") bytes = Resolved tt /\
    gsPath ∈ gsPaths /\
    execFile gsPath
      (gsArgs (settingsMap level) (join tempDir "output.pdf")
              (join tempDir "input.pdf")) = Resolved tt /\
    readFile (join tempDir "output.pdf") = Resolved compressed /\
    CompressionResult.bytes result = Some compressed.
Proof.
  unfold compressHandler, attempt, sys.
  destruct (mkdtemp (join tmpdir "pdf-compress-")) as [tempDir|error];
    [|by intros [= <- _] ?].
  destruct (compressIn_calls tempDir bytes level
              (calls ++ [Mkdtemp (join tmpdir "pdf-compress-")]))
    as (outcome & work & -> & _ & Hdone).
  destruct outcome as [compressed|error]; [|by intros [= <- _] ?].
  intros [= <- _] _.
  destruct (Hdone compressed eq_refl) as (Hwrite & Hread & gsPath & ? & Hrun).
  by exists tempDir, gsPath, compressed.
Qed.

End HandlerAtWork.

Lemma findGs_first_answer_example :
  findGs (machine := Sample.equipped (Sample.Written true Sample.memo))
    (["/opt/homebrew/bin/gs"; "/usr/local/bin/gs"] ++ "/usr/bin/gs" :: ["gs"])
    "gs" [] =
  (Resolved "/usr/bin/gs",
   [] ++ map probe ["/opt/homebrew/bin/gs"; "/usr/local/bin/gs"] ++
   [probe "/usr/bin/gs"]).
Proof.
  apply (findGs_first_answer (lib := Sample.library)
           (machine := Sample.equipped (Sample.Written true Sample.memo))
           ["/opt/homebrew/bin/gs"; "/usr/local/bin/gs"] ["gs"]
           "/usr/bin/gs" "gs" []).
  - repeat constructor; by eexists.
  - reflexivity.
Defined.

Lemma compressHandler_success_example :
  exists tempDir gsPath compressed,
    mkdtemp (Machine := Sample.equipped (Sample.Written true Sample.memo))
      (join (Machine := Sample.equipped (Sample.Written true Sample.memo))
         "/tmp" "pdf-compress-") = Resolved tempDir /\
    writeFile (Machine := Sample.equipped (Sample.Written true Sample.memo))
      (tempDir +:+ "/" +:+ "input.pdf") Sample.reportBytes = Resolved tt /\
    gsPath ∈ gsPaths /\
    execFile (Machine := Sample.equipped (Sample.Written true Sample.memo))
      gsPath
      (gsArgs (settingsMap Level50) (tempDir +:+ "/" +:+ "output.pdf")
              (tempDir +:+ "/" +:+ "input.pdf")) = Resolved tt /\
    readFile (Machine := Sample.equipped (Sample.Written true Sample.memo))
      (tempDir +:+ "/" +:+ "output.pdf") = Resolved compressed /\
    Some (Sample.Written true Sample.memo) = Some compressed.
Proof.
  eapply (compressHandler_success (lib := Sample.library)
            (machine := Sample.equipped (Sample.Written true Sample.memo))
            Sample.reportBytes Level50 [] _
            (@CompressionResult.make Sample.library true
               (Some (Sample.Written true Sample.memo)) 850 600 (JS.ofZ 29)
               None)).
  - reflexivity.
  - reflexivity.
Defined.

(* ===================================================================== *)
(** * The merge state of the store *)
(* ===================================================================== *)

Section MergeState.
Context `{lib : Library} `{utils : Utils}.

Lemma pagesOf_app (id : string) (first second : list MergePageItem.t) :
  pagesOf id (first ++ second) = pagesOf id first ++ pagesOf id second.
Proof. unfold pagesOf. by rewrite filter_app, map_app. Qed.

Lemma pagesOf_built (build : nat -> Z -> MergePageItem.t)
    (id sourceId : string) (selected : list Z) :
  (forall k i, MergePageItem.sourceId (build k i) = sourceId) ->
  (forall k i, MergePageItem.pageIndex (build k i) = i) ->
  pagesOf id (imap build selected) =
  if decide (sourceId = id) then selected else [].
Proof.
  revert build. induction selected as [|i rest IH]; intros build Hsource Hindex.
  - by destruct (decide (sourceId = id)).
  - rewrite imap_cons. unfold pagesOf in *. rewrite filter_cons.
    specialize (IH (build ∘ S) (fun k => Hsource (S k)) (fun k => Hindex (S k))).
    rewrite Hsource.
    destruct (decide (sourceId = id)); simpl; rewrite IH; [|done].
    by rewrite Hindex.
Qed.

Lemma pagesOf_new (generated : nat -> string) (id sourceId name : string)
    (selected : list Z) :
  pagesOf id
    (imap (fun k pageIndex =>
             MergePageItem.make (generated k) sourceId name pageIndex None)
          selected) =
  if decide (sourceId = id) then selected else [].
Proof. by apply pagesOf_built. Qed.

Lemma pagesOf_foreign (id : string) (mergePages : list MergePageItem.t) :
  (forall p, p ∈ mergePages -> MergePageItem.sourceId p <> id) ->
  pagesOf id mergePages = [].
Proof.
  intros Hforeign. unfold pagesOf.
  induction mergePages as [|p rest IH]; [done|].
  rewrite filter_cons. destruct (decide (MergePageItem.sourceId p = id)) as [Hp|].
  - exfalso. by apply (Hforeign p); [left|].
  - apply IH. intros q Hq. apply Hforeign. by right.
Qed.

Lemma pagesOf_filter_other (id removed : string)
    (mergePages : list MergePageItem.t) :
  id <> removed ->
  pagesOf id (filter (fun p => MergePageItem.sourceId p <> removed) mergePages) =
  pagesOf id mergePages.
Proof.
  intros Hother. unfold pagesOf. f_equal. rewrite list_filter_filter.
  apply list_filter_iff. intros p. split; [tauto|]. intros Hp. split; congruence.
Qed.

Lemma sourceIds_filter (removed : string) (sources : list MergeSource.t) :
  sourceIds (filter (fun s => MergeSource.id s <> removed) sources) =
  filter (fun id => id <> removed) (sourceIds sources).
Proof.
  induction sources as [|s rest IH]; [done|].
  simpl. rewrite !filter_cons. simpl.
  destruct (decide (MergeSource.id s <> removed)); simpl; by rewrite IH.
Qed.

Lemma elem_of_sourceIds (sources : list MergeSource.t) (source : MergeSource.t) :
  source ∈ sources -> MergeSource.id source ∈ sourceIds sources.
Proof.
  intros Hin. unfold sourceIds. apply list_elem_of_In, in_map.
  by apply list_elem_of_In.
Qed.

Lemma orderedSources_kept (sources : list MergeSource.t)
    (mergePages : list MergePageItem.t) :
  (forall source, source ∈ sources ->
     pagesOf (MergeSource.id source) mergePages =
     MergeSource.selectedPages source) ->
  orderedSources sources mergePages = sources.
Proof.
  intros Hkept. unfold orderedSources.
  induction sources as [|s rest IH]; [done|].
  simpl. rewrite IH by (intros source Hin; apply Hkept; by right).
  f_equal. fold (pagesOf (MergeSource.id s) mergePages).
  rewrite (Hkept s) by by left. by destruct s.
Qed.

(** X15.  The store keeps the merge state in step as long as pages are not
    dragged: starting from an empty state, adding sources under fresh ids
    and removing sources by id, the sources have distinct ids, every page of
    the list belongs to a listed source, and the list holds for each
    source exactly its selection, in order.  In such a state the sources
    [executeMerge] sends are the sources as they were added. *)
Theorem merge_state_kept :
  mergeKept initialState /\
  (forall generated state source,
     mergeKept state ->
     MergeSource.id source ∉ sourceIds (EditorState.mergeSources state) ->
     mergeKept (addMergeSource generated state source)) /\
  (forall state id, mergeKept state -> mergeKept (removeMergeSource state id)) /\
  (forall state, mergeKept (clearMerge state)) /\
  (forall state,
     mergeKept state ->
     orderedSources (EditorState.mergeSources state)
                    (EditorState.mergePages state) =
     EditorState.mergeSources state).
Proof.
  assert (mergeKept initialState) as Hinitial.
  { split; [constructor|]. split; intros ? Hin; by apply elem_of_nil in Hin. }
  split; [done|]. split; [|split; [|split]].
  - intros generated state source (Hids & Hbelong & Hkept) Hfresh.
    unfold mergeKept, addMergeSource. simpl.
    assert (sourceIds (EditorState.mergeSources state ++ [source]) =
            sourceIds (EditorState.mergeSources state) ++ [MergeSource.id source])
      as Hnew by apply map_app.
    rewrite Hnew. split; [|split].
    + apply NoDup_app. split; [done|]. split; [|apply NoDup_singleton].
      intros id Hid [->|Hnil%elem_of_nil]%elem_of_cons; done.
    + intros p [Hp|Hp]%elem_of_app; apply elem_of_app.
      * left. by apply Hbelong.
      * right. apply list_elem_of_lookup in Hp as [k Hp].
        rewrite list_lookup_imap in Hp.
        destruct (MergeSource.selectedPages source !! k); [|done].
        injection Hp as <-. by left.
    + intros other Hother. rewrite pagesOf_app, pagesOf_new.
      apply elem_of_app in Hother as [Hold|[->|Hnil%elem_of_nil]%elem_of_cons];
        [| |done].
      * rewrite decide_False, app_nil_r; [by apply Hkept|].
        intros Hsame. apply Hfresh. rewrite Hsame. by apply elem_of_sourceIds.
      * rewrite decide_True by done.
        rewrite pagesOf_foreign; [done|].
        intros p Hp Hsame. apply Hfresh. rewrite <- Hsame. by apply Hbelong.
  - intros state id (Hids & Hbelong & Hkept).
    unfold mergeKept, removeMergeSource. simpl.
    rewrite sourceIds_filter. split; [by apply NoDup_filter|]. split.
    + intros p [Hp Hin]%list_elem_of_filter.
      apply list_elem_of_filter. split; [done|]. by apply Hbelong.
    + intros source [Hother Hin]%list_elem_of_filter.
      rewrite pagesOf_filter_other by done. by apply Hkept.
  - intros state. unfold mergeKept, clearMerge. simpl.
    split; [constructor|]. split; intros ? Hin; by apply elem_of_nil in Hin.
  - intros state (_ & _ & Hkept). by apply orderedSources_kept.
Qed.

Lemma sent_ordered (sources : list MergeSource.t)
    (mergePages : list MergePageItem.t) :
  sent (orderedSources sources mergePages) =
  flat_map (fun source =>
              filter (fun q => q.1 = MergeSource.id source) (listed mergePages))
           sources.
Proof.
  unfold sent, orderedSources.
  induction sources as [|s rest IH]; [done|].
  simpl. rewrite IH. f_equal. clear IH.
  induction mergePages as [|p pages IH]; [done|].
  simpl. rewrite !filter_cons. simpl.
  destruct (decide (MergePageItem.sourceId p = MergeSource.id s)) as [Hp|Hp];
    simpl; rewrite IH; [by rewrite Hp|done].
Qed.

Lemma grouped_permutation (ids : list string) (pairs : list (string * Z)) :
  NoDup ids ->
  (forall q, q ∈ pairs -> q.1 ∈ ids) ->
  flat_map (fun id => filter (fun q => q.1 = id) pairs) ids ≡ₚ pairs.
Proof.
  intros Hids. revert pairs.
  induction Hids as [|id rest Hfresh _ IH]; intros pairs Hbelong.
  - destruct pairs as [|q pairs]; [done|].
    exfalso. eapply elem_of_nil, (Hbelong q). by left.
  - simpl.
    transitivity (filter (fun q => q.1 = id) pairs ++
                  filter (fun q => q.1 <> id) pairs);
      [|apply filter_app_complement].
    apply Permutation_app; [done|].
    rewrite <- (IH (filter (fun q => q.1 <> id) pairs)).
    + assert (forall l l' : list (string * Z), l = l' -> l ≡ₚ l') as Hsame
        by (by intros ? ? ->).
      apply Hsame. clear IH Hbelong Hsame.
      induction rest as [|other rest IH]; [done|].
      simpl. rewrite IH by (intros Hin; apply Hfresh; by right).
      f_equal. rewrite list_filter_filter. apply list_filter_iff.
      intros q. split; [|tauto]. intros Hq. split; [done|].
      intros Hsame. apply Hfresh. rewrite <- Hsame, Hq. by left.
    + intros q [Hq Hin]%list_elem_of_filter.
      apply Hbelong, elem_of_cons in Hin as [Hsame|]; done.
Qed.

(** X16.  With sources of distinct ids and a page list whose pages all
    belong to listed sources, [executeMerge] sends every page of the list
    exactly once: what it sends is a rearrangement of the list.  The
    rearrangement groups the pages by source, in the order of the sources,
    keeping the order of the list within each source only. *)
Theorem executeMerge_sends_listed (sources : list MergeSource.t)
    (mergePages : list MergePageItem.t) :
  NoDup (sourceIds sources) ->
  (forall p, p ∈ mergePages -> MergePageItem.sourceId p ∈ sourceIds sources) ->
  sent (orderedSources sources mergePages) ≡ₚ listed mergePages /\
  sent (orderedSources sources mergePages) =
    flat_map (fun source =>
                filter (fun q => q.1 = MergeSource.id source) (listed mergePages))
             sources.
Proof.
  intros Hids Hbelong. split; [|apply sent_ordered].
  rewrite sent_ordered.
  transitivity (flat_map (fun id => filter (fun q => q.1 = id) (listed mergePages))
                         (sourceIds sources)).
  - assert (forall l l' : list (string * Z), l = l' -> l ≡ₚ l') as Hsame
      by (by intros ? ? ->).
    apply Hsame. unfold sourceIds. clear.
    induction sources as [|s rest IH]; [done|]. simpl. by rewrite IH.
  - apply grouped_permutation; [done|].
    intros q Hq. unfold listed in Hq.
    apply list_elem_of_In, in_map_iff in Hq as (p & <- & Hp).
    simpl. by apply Hbelong, list_elem_of_In.
Qed.

(** X17.  A source for which the page list holds no page is sent with an
    empty selection, and [mergePdfs] takes an empty selection for the
    whole document: merging such a source alone writes every page of it. *)
Theorem executeMerge_source_without_pages (source : MergeSource.t)
    (doc : PDFDocument) (mergePages : list MergePageItem.t) :
  parse (MergeSource.bytes source) = Resolved doc ->
  (forall p, p ∈ mergePages ->
     MergePageItem.sourceId p <> MergeSource.id source) ->
  MergeSource.selectedPages <$> orderedSources [source] mergePages = [[]] /\
  pdfMerge (orderedSources [source] mergePages) =
    MergeResult.make true (Some (written (pages doc))) None.
Proof.
  intros Hdoc Hforeign.
  pose proof (pagesOf_foreign _ _ Hforeign) as Hnone. unfold pagesOf in Hnone.
  unfold orderedSources. simpl. rewrite Hnone. split; [done|].
  unfold pdfMerge, mergePdfs. rewrite create_fresh.
  rewrite (mergeSources_selected _ [doc] []) by by repeat constructor.
  simpl. by rewrite save_fresh, app_nil_r, pagesAt_all.
Qed.

End MergeState.

Lemma merge_state_kept_example :
  orderedSources
    (EditorState.mergeSources
       (addMergeSource (fun k => "id") (removeMergeSource
          (addMergeSource (fun k => "id") initialState Sample.sourceA) "zz")
          Sample.sourceB))
    (EditorState.mergePages
       (addMergeSource (fun k => "id") (removeMergeSource
          (addMergeSource (fun k => "id") initialState Sample.sourceA) "zz")
          Sample.sourceB)) =
  [Sample.sourceA; Sample.sourceB].
Proof.
  destruct (merge_state_kept (lib := Sample.library))
    as (Hinitial & Hadd & Hremove & _ & Hsame).
  apply (Hsame (addMergeSource (fun k => "id") (removeMergeSource
          (addMergeSource (fun k => "id") initialState Sample.sourceA) "zz")
          Sample.sourceB)).
  apply Hadd; [apply Hremove, Hadd; [exact Hinitial|]|].
  - intros Hin. by apply elem_of_nil in Hin.
  - intros Hin. apply list_elem_of_In in Hin. cbn in Hin.
    destruct Hin as [Hin|[]]. discriminate Hin.
Defined.

Lemma executeMerge_sends_listed_example :
  sent (orderedSources (EditorState.mergeSources Sample.merging)
                       (EditorState.mergePages Sample.merging))
    ≡ₚ [("a", 0); ("b", 1); ("a", 2)] /\
  sent (orderedSources (EditorState.mergeSources Sample.merging)
                       (EditorState.mergePages Sample.merging)) =
    [("a", 0); ("a", 2); ("b", 1)].
Proof.
  apply (executeMerge_sends_listed (lib := Sample.library)
           (EditorState.mergeSources Sample.merging)
           (EditorState.mergePages Sample.merging)).
  - apply NoDup_ListNoDup. repeat constructor; cbn; intuition discriminate.
  - intros p Hp. apply list_elem_of_In in Hp. apply list_elem_of_In.
    cbn in Hp. cbn. intuition (subst; cbn; tauto).
Defined.

Lemma executeMerge_source_without_pages_example :
  MergeSource.selectedPages <$>
    orderedSources [Sample.sourceA] [Sample.item "p2" "b" 1] = [[]] /\
  pdfMerge (orderedSources [Sample.sourceA] [Sample.item "p2" "b" 1]) =
    @MergeResult.make Sample.library true
      (Some (written (pages Sample.report))) None.
Proof.
  apply (executeMerge_source_without_pages (lib := Sample.library)
           Sample.sourceA Sample.report [Sample.item "p2" "b" 1]).
  - reflexivity.
  - intros p Hp. apply list_elem_of_In in Hp. cbn in Hp.
    destruct Hp as [<-|[]]. discriminate.
Defined.

(* ===================================================================== *)
(** * The actions of the store *)
(* ===================================================================== *)

Section StoreFacts.
Context `{lib : Library} `{utils : Utils} `{access : PageAccess}
        `{machine : !Machine} `{desktop : Desktop}.

Lemma orElse_filled (text : option string) (fallback : string) :
  fallback <> EmptyString -> orElse text fallback <> EmptyString.
Proof. intros Hfilled. by destruct text as [[|c rest]|]. Qed.

Lemma orElse_given (given fallback : string) :
  given <> EmptyString -> orElse (Some given) fallback = given.
Proof. intros Hgiven. by destruct given. Qed.

Lemma mergePdfs_selected (sources : list MergeSource.t)
    (docs : list PDFDocument) :
  Forall2 (fun source doc =>
             parse (MergeSource.bytes source) = Resolved doc /\
             Forall (inRange doc) (MergeSource.selectedPages source))
          sources docs ->
  mergePdfs sources =
  MergeResult.make true
    (Some (written
             (concat (zip_with pagesAt docs
                (zip_with (fun source doc =>
                             resolved (MergeSource.selectedPages source) doc)
                          sources docs)))))
    None.
Proof.
  intros Hall. unfold mergePdfs. rewrite create_fresh.
  rewrite (mergeSources_selected _ _ _ Hall). simpl. by rewrite save_fresh.
Qed.

Lemma orderedSources_loaded (sources : list MergeSource.t)
    (docs : list PDFDocument) (mergePages : list MergePageItem.t) :
  Forall2 (fun source doc =>
             parse (MergeSource.bytes source) = Resolved doc /\
             Forall (inRange doc) (pagesOf (MergeSource.id source) mergePages))
          sources docs ->
  Forall2 (fun source doc =>
             parse (MergeSource.bytes source) = Resolved doc /\
             Forall (inRange doc) (MergeSource.selectedPages source))
          (orderedSources sources mergePages) docs /\
  zip_with (fun source doc => resolved (MergeSource.selectedPages source) doc)
           (orderedSources sources mergePages) docs =
  zip_with (fun source doc =>
              resolved (pagesOf (MergeSource.id source) mergePages) doc)
           sources docs.
Proof.
  induction 1 as [|source doc sources docs [Hdoc Hvalid] _ [IHall IHsame]];
    [done|].
  unfold orderedSources in *. simpl. split.
  - by constructor.
  - by rewrite IHsame.
Qed.

Lemma saveResult_chosen (fallback path : string) (state : EditorState.t)
    (bytes : Uint8Array) (calls : list SysCall) :
  showSaveDialog = Resolved (SaveDialogReturn.make false (Some path)) ->
  path <> EmptyString ->
  saveResult fallback state bytes calls =
  (setLoadingError state false None, calls ++ [WriteFile path bytes]).
Proof.
  intros Hdialog Hpath. unfold saveResult, dialogSavePdf. rewrite Hdialog.
  destruct path as [|c rest]; [done|]. simpl.
  unfold pdfWrite, sys. by destruct (writeFile (String c rest) bytes).
Qed.

(** X18.  [executeMerge] on sources that load, with a page list that asks
    each source only for pages it has, and a path chosen in the dialog:
    one file is written, at that path, and it holds the pages of the page
    list grouped by source in the order of the sources (every page of a
    source the list holds no page for); no error is reported, whatever
    became of the write. *)
Theorem executeMerge_writes_by_source (state : EditorState.t)
    (docs : list PDFDocument) (path : string) (calls : list SysCall) :
  EditorState.mergeSources state <> [] ->
  Forall2 (fun source doc =>
             parse (MergeSource.bytes source) = Resolved doc /\
             Forall (inRange doc)
               (pagesOf (MergeSource.id source) (EditorState.mergePages state)))
          (EditorState.mergeSources state) docs ->
  showSaveDialog = Resolved (SaveDialogReturn.make false (Some path)) ->
  path <> EmptyString ->
  executeMerge state calls =
  (setLoadingError state false None,
   calls ++
   [WriteFile path
      (written
         (concat (zip_with pagesAt docs
            (zip_with (fun source doc =>
                         resolved (pagesOf (MergeSource.id source)
                                     (EditorState.mergePages state)) doc)
                      (EditorState.mergeSources state) docs))))]).
Proof.
  intros Hsome Hall Hdialog Hpath. unfold executeMerge, pdfMerge.
  destruct (orderedSources_loaded _ _ _ Hall) as [Hloaded Hsame].
  rewrite (mergePdfs_selected _ _ Hloaded), Hsame.
  destruct (EditorState.mergeSources state) as [|source rest] eqn:Hsources;
    [done|].
  simpl. by apply saveResult_chosen.
Qed.

(** X19.  When the merge fails, [executeMerge] writes no file and makes
    no other call; the state changes only in that loading has stopped and
    an error is set, which is never the empty text. *)
Theorem executeMerge_reports_failure (state : EditorState.t)
    (calls : list SysCall) :
  MergeResult.success
    (pdfMerge (orderedSources (EditorState.mergeSources state)
                              (EditorState.mergePages state))) = false ->
  exists message,
    message <> EmptyString /\
    executeMerge state calls =
    (setLoadingError state false (Some message), calls).
Proof.
  unfold executeMerge.
  destruct (EditorState.mergeSources state) as [|source rest] eqn:Hsources.
  { unfold pdfMerge, mergePdfs. rewrite create_fresh. simpl. done. }
  intros Hfailed. rewrite Hfailed.
  eexists. split; [|done]. by apply orElse_filled.
Qed.

(** X20.  [savePdf] with a document open and a path chosen writes one file,
    at that path, and reports no error whatever happens: the file holds
    the annotated document when there are annotations and they could be
    baked, and the bytes as they were opened when there is no annotation
    or baking failed; a write that fails goes unnoticed.  The state
    changes only in that loading has stopped and the error is cleared. *)
Theorem savePdf_outcome (state : EditorState.t) (pdf : CurrentPdf.t)
    (path : string) (calls : list SysCall) :
  EditorState.currentPdf state = Some pdf ->
  showSaveDialog = Resolved (SaveDialogReturn.make false (Some path)) ->
  path <> EmptyString ->
  exists data,
    savePdf state calls =
    (setLoadingError state false None, calls ++ [WriteFile path data]) /\
    (EditorState.annotations state = [] -> data = CurrentPdf.bytes pdf) /\
    (forall baked,
       EditorState.annotations state <> [] ->
       applyAnnotations (CurrentPdf.bytes pdf) (EditorState.annotations state) =
         Resolved baked ->
       data = baked) /\
    (forall error,
       applyAnnotations (CurrentPdf.bytes pdf) (EditorState.annotations state) =
         Rejected error ->
       data = CurrentPdf.bytes pdf).
Proof.
  intros Hpdf Hdialog Hpath. unfold savePdf, dialogSavePdf.
  rewrite Hpdf, Hdialog. destruct path as [|c rest]; [done|]. simpl.
  unfold pdfWrite, sys, pdfApplyAnnotations.
  destruct (EditorState.annotations state) as [|annotation others].
  - simpl. eexists. split; [done|]. split; [done|]. by split.
  - simpl (0 <? _)%nat. cbv iota.
    destruct (applyAnnotations _ _) as [baked|error]; simpl;
      eexists; (split; [done|]); (split; [done|]); split; congruence.
Qed.

(** X21.  The compression action of the store, with a document open.  When
    the handler's work fails, the error shown is never the empty text (a
    failure without a text is shown as [Compression failed]) and is the
    text of the failure when that says something; no call is made but
    those of the handler, so no file is saved.  When it succeeds and a path is
    chosen, the compressed bytes are written there after the temporary
    directory is removed.  In both cases the open document stays as it
    is. *)
Theorem storeCompressPdf_outcome (state : EditorState.t) (pdf : CurrentPdf.t)
    (level : CompressionLevel) (calls calls' : list SysCall)
    (tempDir : option string) (outcome : Result Uint8Array) :
  EditorState.currentPdf state = Some pdf ->
  attempt (CurrentPdf.bytes pdf) level calls = (tempDir, outcome, calls') ->
  (forall error,
     outcome = Rejected error ->
     exists message,
       message <> EmptyString /\
       (described error ->
        message =
        JS.messageOr
          "Failed to compress PDF. Make sure Ghostscript is installed." error) /\
       storeCompressPdf state level calls =
       (setLoadingError state false (Some message),
        cleanup tempDir (calls' ++ [ConsoleError error]))) /\
  (forall compressed path,
     outcome = Resolved compressed ->
     showSaveDialog = Resolved (SaveDialogReturn.make false (Some path)) ->
     path <> EmptyString ->
     storeCompressPdf state level calls =
     (setLoadingError state false None,
      cleanup tempDir calls' ++ [WriteFile path compressed])).
Proof.
  intros Hpdf Hattempt. unfold storeCompressPdf, compressHandler.
  rewrite Hpdf, Hattempt. split.
  - intros error ->. cbn -[orElse JS.messageOr cleanup].
    exists (orElse
              (Some (JS.messageOr
                 "Failed to compress PDF. Make sure Ghostscript is installed."
                 error))
              "Compression failed").
    split; [by apply orElse_filled|].
    split; [|done]. intros Hdescribed.
    destruct error as [[|c rest]|]; [by destruct Hdescribed|done|done].
  - intros compressed path -> Hdialog Hpath. simpl.
    by apply saveResult_chosen.
Qed.

(** X22.  What [openPdf] does, case by case.  When the dialog is
    rejected, the message of the error (or a fixed text for what is no
    [Error]) becomes the error of the store and no file is read.  When
    the dialog was cancelled or returned no path, no file is read and
    there is no error.  Otherwise the first chosen path is read, and
    nothing else.  When the read fails or the bytes are no document, the
    error of the store is the message of what was thrown, or one of two
    fixed texts when there is no [Error] or no message: it is never
    empty.  When the bytes are a document, it becomes the open document,
    under the name [fileNameOf] gives it, without annotations and with
    the first page in view; the tool, the thumbnails and the merge state
    are kept.  In all failing cases the open document, its annotations
    and the view stay as they were. *)
Theorem openPdf_outcome (state : EditorState.t) (calls : list SysCall) :
  (forall error,
     showOpenDialog = Rejected error ->
     openPdf state calls =
     (setLoadingError state false
        (Some (JS.messageOr "Failed to open PDF" error)),
      calls)) /\
  (forall result,
     showOpenDialog = Resolved result ->
     OpenDialogReturn.canceled result = true \/
     OpenDialogReturn.filePaths result = [] ->
     openPdf state calls = (setLoadingError state false None, calls)) /\
  (forall filePath others,
     showOpenDialog =
       Resolved (OpenDialogReturn.make false (filePath :: others)) ->
     (forall error,
        readFile filePath = Rejected error ->
        exists message,
          message <> EmptyString /\
          message =
            match error with
            | ErrorObject EmptyString => "Failed to read PDF"
            | ErrorObject given => given
            | NonError => "Failed to read file"
            end /\
          openPdf state calls =
          (setLoadingError state false (Some message),
           calls ++ [ReadFile filePath])) /\
     (forall bytes error,
        readFile filePath = Resolved bytes ->
        loadPdfInfo bytes = Rejected error ->
        exists message,
          message <> EmptyString /\
          message =
            match error with
            | ErrorObject EmptyString => "Failed to get PDF info"
            | ErrorObject given => given
            | NonError => "Failed to load PDF info"
            end /\
          openPdf state calls =
          (setLoadingError state false (Some message),
           calls ++ [ReadFile filePath])) /\
     (forall bytes info,
        readFile filePath = Resolved bytes ->
        loadPdfInfo bytes = Resolved info ->
        openPdf state calls =
        (EditorState.make
           (Some (CurrentPdf.make (fileNameOf filePath) filePath bytes info))
           [] (EditorState.currentTool state) initialViewport
           (EditorState.thumbnails state) (EditorState.mergeSources state)
           (EditorState.mergePages state) false None,
         calls ++ [ReadFile filePath]))).
Proof.
  unfold openPdf, dialogOpenPdf. split; [|split].
  - by intros error ->.
  - intros [canceled paths] -> [Hcanceled|Hpaths]; simpl in *; subst.
    + done.
    + by destruct canceled.
  - intros filePath others ->. simpl.
    unfold pdfRead, sys, reply, pdfGetInfo, reply.
    split; [|split].
    + intros error ->. eexists. split; [|split; [|reflexivity]].
      * by destruct error as [[|c rest]|].
      * by destruct error as [[|c rest]|].
    + intros bytes error -> Hinfo. cbn -[orElse JS.messageOr].
      rewrite Hinfo. eexists. split; [|split; [|reflexivity]].
      * by destruct error as [[|c rest]|].
      * by destruct error as [[|c rest]|].
    + intros bytes info -> Hinfo. cbn -[orElse JS.messageOr].
      by rewrite Hinfo.
Qed.

End StoreFacts.

Section FileNames.

Lemma split_whole (separator : Ascii.ascii) (s : string) :
  ~ Text.occurs separator s -> Text.split separator s = [s].
Proof.
  induction s as [|c rest IH]; [done|].
  simpl. intros Hnone.
  rewrite bool_decide_eq_false_2 by tauto.
  rewrite IH by tauto. done.
Qed.

Lemma split_append (separator : Ascii.ascii) (before after : string) :
  Text.split separator (before +:+ String separator after) =
  Text.split separator before ++ Text.split separator after.
Proof.
  induction before as [|c rest IH]; simpl.
  - by rewrite bool_decide_eq_true_2.
  - change (String.append rest (String separator after))
      with (rest +:+ String separator after).
    rewrite IH. destruct (bool_decide (c = separator)); [done|].
    pose proof (split_length separator rest) as Hlength.
    by destruct (Text.split separator rest).
Qed.

Lemma split_last (separator : Ascii.ascii) (s : string) :
  exists piece, Text.pop (Text.split separator s) = Some piece /\
                ~ Text.occurs separator piece.
Proof.
  pose proof (split_length separator s) as Hlength.
  pose proof (split_pieces separator s) as Hpieces.
  unfold Text.pop.
  destruct (last (Text.split separator s)) as [piece|] eqn:Hlast.
  - exists piece. split; [done|].
    apply last_Some_elem_of in Hlast.
    by apply (proj1 (Forall_forall _ _) Hpieces).
  - apply last_None in Hlast. by rewrite Hlast in Hlength.
Qed.

(** X23.  The name [openPdf] gives a document is never empty and holds no
    slash.  It is what follows the last slash of the path; a path without
    slash (a path written with backslashes, say) is the name as a whole,
    and a path that ends in a slash gives [document.pdf]. *)
Theorem fileNameOf_last_segment :
  (forall filePath,
     fileNameOf filePath <> EmptyString /\
     ~ Text.occurs "/"%char (fileNameOf filePath)) /\
  (forall directory name,
     ~ Text.occurs "/"%char name -> name <> EmptyString ->
     fileNameOf (directory +:+ String "/"%char name) = name) /\
  (forall name,
     ~ Text.occurs "/"%char name -> name <> EmptyString ->
     fileNameOf name = name) /\
  (forall directory,
     fileNameOf (directory +:+ "/") = "document.pdf").
Proof.
  split; [|split; [|split]].
  - intros filePath. unfold fileNameOf.
    destruct (split_last "/"%char filePath) as (piece & -> & Hpiece).
    split; [by apply orElse_filled|].
    destruct piece as [|c rest]; [|done].
    simpl. intros Hin. repeat destruct Hin as [Hin|Hin]; try discriminate Hin.
    done.
  - intros directory name Hname Hfilled. unfold fileNameOf, Text.pop.
    rewrite split_append, (split_whole _ name Hname), last_snoc.
    by apply orElse_given.
  - intros name Hname Hfilled. unfold fileNameOf, Text.pop.
    rewrite (split_whole _ name Hname). by apply orElse_given.
  - intros directory. unfold fileNameOf, Text.pop.
    change (directory +:+ "/") with (directory +:+ String "/"%char EmptyString).
    rewrite split_append.
    change (Text.split "/"%char EmptyString) with [EmptyString].
    by rewrite last_snoc.
Qed.

End FileNames.

Lemma executeMerge_writes_by_source_example :
  executeMerge (machine := Sample.readOnly Sample.memoBytes)
    (desktop := Sample.picking "/home/user/merged.pdf") Sample.merging [] =
  (setLoadingError Sample.merging false None,
   [] ++
   [WriteFile "/home/user/merged.pdf"
      (written
         (concat (zip_with pagesAt [Sample.report; Sample.memo]
            (zip_with (fun source doc =>
                         resolved (pagesOf (MergeSource.id source)
                                     (EditorState.mergePages Sample.merging))
                                  doc)
                      (EditorState.mergeSources Sample.merging)
                      [Sample.report; Sample.memo]))))]).
Proof.
  apply (executeMerge_writes_by_source (lib := Sample.library)
           (machine := Sample.readOnly Sample.memoBytes)
           (desktop := Sample.picking "/home/user/merged.pdf")
           Sample.merging [Sample.report; Sample.memo]
           "/home/user/merged.pdf" []).
  - discriminate.
  - repeat constructor; unfold inRange, getPageCount; simpl; lia.
  - reflexivity.
  - discriminate.
Defined.

Lemma executeMerge_reports_failure_example :
  exists message,
    message <> EmptyString /\
    executeMerge (machine := Sample.bare)
      (desktop := Sample.picking "/home/user/merged.pdf")
      (addMergeSource (fun k => "id") initialState Sample.sourceC) [] =
    (setLoadingError
       (addMergeSource (fun k => "id") initialState Sample.sourceC)
       false (Some message),
     []).
Proof.
  apply (executeMerge_reports_failure (lib := Sample.library)
           (machine := Sample.bare)
           (desktop := Sample.picking "/home/user/merged.pdf")
           (addMergeSource (fun k => "id") initialState Sample.sourceC) []).
  reflexivity.
Defined.

(** While the merge list is on show, the user opens the report. *)
Lemma openPdf_outcome_example :
  exists info,
    openPdf (lib := Sample.library)
      (machine := Sample.readOnly Sample.reportBytes)
      (desktop := Sample.picking "/home/user/report.pdf") Sample.merging [] =
    (EditorState.make
       (Some (@CurrentPdf.make Sample.library "report.pdf"
                "/home/user/report.pdf" Sample.reportBytes info))
       [] (EditorTool.make ToolSelect None None) (ViewportState.make 1 0 0 0)
       [] [Sample.sourceA; Sample.sourceB]
       [Sample.item "p1" "a" 0; Sample.item "p2" "b" 1; Sample.item "p3" "a" 2]
       false None,
     [@ReadFile Sample.library "/home/user/report.pdf"]) /\
    PdfDocumentInfo.title info = Some "Report" /\
    PdfDocumentInfo.pageCount info = 3.
Proof.
  destruct (openPdf_outcome (lib := Sample.library)
              (machine := Sample.readOnly Sample.reportBytes)
              (desktop := Sample.picking "/home/user/report.pdf")
              Sample.merging []) as (_ & _ & Hchosen).
  destruct (Hchosen "/home/user/report.pdf" [] eq_refl) as (_ & _ & Hopened).
  eexists. split; [|split].
  - apply (Hopened Sample.reportBytes _ eq_refl eq_refl).
  - reflexivity.
  - reflexivity.
Defined.

Lemma savePdf_outcome_example :
  exists data : Sample.Buffer,
    savePdf (lib := Sample.library) (utils := Sample.strict)
      (machine := Sample.readOnly Sample.memoBytes)
      (desktop := Sample.picking "/home/user/out.pdf") Sample.editing [] =
    (setLoadingError Sample.editing false None,
     [] ++ [WriteFile "/home/user/out.pdf" data]) /\
    (EditorState.annotations Sample.editing = [] -> data = Sample.reportBytes) /\
    (forall baked,
       EditorState.annotations Sample.editing <> [] ->
       applyAnnotations (utils := Sample.strict) Sample.reportBytes
         (EditorState.annotations Sample.editing) = Resolved baked ->
       data = baked) /\
    (forall error,
       applyAnnotations (utils := Sample.strict) Sample.reportBytes
         (EditorState.annotations Sample.editing) = Rejected error ->
       data = Sample.reportBytes).
Proof.
  apply (savePdf_outcome (lib := Sample.library) (utils := Sample.strict)
           (machine := Sample.readOnly Sample.memoBytes)
           (desktop := Sample.picking "/home/user/out.pdf")
           Sample.editing
           (@CurrentPdf.make Sample.library "report.pdf" "/home/user/report.pdf"
              Sample.reportBytes
              (PdfDocumentInfo.make None None None None None None None None 3 []))
           "/home/user/out.pdf" []).
  - reflexivity.
  - reflexivity.
  - discriminate.
Defined.

Lemma storeCompressPdf_outcome_example :
  (forall error,
     @Rejected Sample.Buffer (ErrorObject "spawn gs ENOENT") = Rejected error ->
     exists message,
       message <> EmptyString /\
       (described error ->
        message =
        JS.messageOr
          "Failed to compress PDF. Make sure Ghostscript is installed." error) /\
       storeCompressPdf (machine := Sample.bare)
         (desktop := Sample.picking "/home/user/small.pdf")
         Sample.editing Level50 [] =
       (setLoadingError Sample.editing false (Some message),
        cleanup (machine := Sample.bare) (Some "/tmp/pdf-compress-a1b2c3")
          (([Mkdtemp "/tmp/pdf-compress-";
             WriteFile "/tmp/pdf-compress-a1b2c3/input.pdf" Sample.reportBytes]
            ++ map probe gsPaths ++
            [ExecFile "gs"
               (gsArgs "/ebook" "/tmp/pdf-compress-a1b2c3/output.pdf"
                  "/tmp/pdf-compress-a1b2c3/input.pdf")])
           ++ [ConsoleError error]))) /\
  (forall compressed path,
     @Rejected Sample.Buffer (ErrorObject "spawn gs ENOENT") = Resolved compressed ->
     showSaveDialog (Desktop := Sample.picking "/home/user/small.pdf") =
       Resolved (SaveDialogReturn.make false (Some path)) ->
     path <> EmptyString ->
     storeCompressPdf (machine := Sample.bare)
       (desktop := Sample.picking "/home/user/small.pdf")
       Sample.editing Level50 [] =
     (setLoadingError Sample.editing false None,
      cleanup (machine := Sample.bare) (Some "/tmp/pdf-compress-a1b2c3")
        ([Mkdtemp "/tmp/pdf-compress-";
          WriteFile "/tmp/pdf-compress-a1b2c3/input.pdf" Sample.reportBytes]
         ++ map probe gsPaths ++
         [ExecFile "gs"
            (gsArgs "/ebook" "/tmp/pdf-compress-a1b2c3/output.pdf"
               "/tmp/pdf-compress-a1b2c3/input.pdf")])
      ++ [WriteFile path compressed])).
Proof.
  apply (storeCompressPdf_outcome (lib := Sample.library)
           (machine := Sample.bare)
           (desktop := Sample.picking "/home/user/small.pdf")
           Sample.editing
           (@CurrentPdf.make Sample.library "report.pdf" "/home/user/report.pdf"
              Sample.reportBytes
              (PdfDocumentInfo.make None None None None None None None None 3 []))
           Level50 []).
  - reflexivity.
  - reflexivity.
Defined.

(* ===================================================================== *)
(** * The toolbar and the annotation layer at work *)
(* ===================================================================== *)

Section ComponentFacts.
Context `{lib : Library} `{utils : Utils}.

Ltac compare :=
  unfold zoomIn, zoomOut, dragRect, mathMin, mathMax, mathAbs; simpl;
  repeat match goal with
         | |- context [Qle_bool ?a ?b] =>
             lazymatch a with context [Qle_bool _ _] => fail | _ => idtac end;
             lazymatch b with context [Qle_bool _ _] => fail | _ => idtac end;
             let H := fresh "Hle" in
             destruct (Qle_bool a b) eqn:H;
             [apply Qle_bool_iff in H
             |apply not_true_iff_false in H; rewrite Qle_bool_iff in H;
              apply Qnot_le_lt in H]
         end;
  simpl.

Lemma mathAbs_abs (a : Q) : (mathAbs a == Qabs a)%Q.
Proof.
  unfold mathAbs. destruct (Qle_bool 0 a) eqn:Hle.
  - apply Qle_bool_iff in Hle. by rewrite Qabs_pos.
  - apply not_true_iff_false in Hle. rewrite Qle_bool_iff in Hle.
    apply Qnot_le_lt in Hle. rewrite Qabs_neg by lra. reflexivity.
Qed.

Lemma abs_close (a b : Q) : (Qabs (Qabs a - Qabs b) <= Qabs (a - b))%Q.
Proof.
  apply Qabs_Qle_condition. split.
  - pose proof (Qabs_triangle_reverse b a) as Hreverse.
    rewrite (Qabs_Qminus b a) in Hreverse. lra.
  - apply Qabs_triangle_reverse.
Qed.

(** One side of the dragged rectangle, from the coordinate [origin] of the
    start to the coordinate [target] of the mouse. *)
Lemma dragged_extent (origin target : Q) :
  let extent := mathAbs (Double.sub target origin) in
  (0 <= extent)%Q /\
  (Qabs (extent - Qabs (target - origin)) <= roundingOf (target - origin))%Q /\
  (mathAbs (Double.sub origin target) == extent)%Q /\
  (whole origin -> whole target -> (extent == Qabs (target - origin))%Q).
Proof.
  cbn zeta. unfold Double.sub. split; [|split; [|split]].
  - rewrite mathAbs_abs. apply Qabs_nonneg.
  - rewrite mathAbs_abs. eapply Qle_trans; [apply abs_close|].
    apply nearest_rounding.
  - rewrite !mathAbs_abs.
    assert (origin - target == - (target - origin))%Q as Hopp by ring.
    rewrite (nearest_proper _ _ Hopp), nearest_opp, Qabs_opp. reflexivity.
  - intros (m & Hm & Horigin) (n & Hn & Htarget).
    rewrite mathAbs_abs.
    assert (target - origin == inject_Z (n - m))%Q as Hwhole.
    { rewrite inject_Z_minus, Horigin, Htarget. reflexivity. }
    rewrite (nearest_whole _ (n - m)) by (lia || done).
    by rewrite Hwhole.
Qed.

(** X24.  The rectangle kept while the mouse is dragged.  Its width and
    height are never negative; each is the distance between the two
    points along its axis, rounded once as a difference of doubles is.
    Its corner is the lesser of the two coordinates on either axis.  For
    points at whole coordinates nothing is rounded: width and height are
    the distances, and corner plus width, or height, is the greater
    coordinate.  Dragging back from the end to the start gives the same
    rectangle. *)
Theorem dragRect_normalised (startPoint coords : Point.t) :
  let rect := dragRect startPoint coords in
  let back := dragRect coords startPoint in
  let across := (Point.x coords - Point.x startPoint)%Q in
  let down := (Point.y coords - Point.y startPoint)%Q in
  ((0 <= Rect.width rect)%Q /\ (0 <= Rect.height rect)%Q) /\
  ((Qabs (Rect.width rect - Qabs across) <= roundingOf across)%Q /\
   (Qabs (Rect.height rect - Qabs down) <= roundingOf down)%Q) /\
  ((Rect.x rect <= Point.x startPoint)%Q /\
   (Rect.x rect <= Point.x coords)%Q /\
   ((Rect.x rect == Point.x startPoint)%Q \/
    (Rect.x rect == Point.x coords)%Q) /\
   (Rect.y rect <= Point.y startPoint)%Q /\
   (Rect.y rect <= Point.y coords)%Q /\
   ((Rect.y rect == Point.y startPoint)%Q \/
    (Rect.y rect == Point.y coords)%Q)) /\
  (whole (Point.x startPoint) -> whole (Point.x coords) ->
   (Rect.width rect == Qabs across)%Q /\
   (Rect.x rect + Rect.width rect ==
      mathMax (Point.x startPoint) (Point.x coords))%Q) /\
  (whole (Point.y startPoint) -> whole (Point.y coords) ->
   (Rect.height rect == Qabs down)%Q /\
   (Rect.y rect + Rect.height rect ==
      mathMax (Point.y startPoint) (Point.y coords))%Q) /\
  ((Rect.x back == Rect.x rect)%Q /\ (Rect.y back == Rect.y rect)%Q /\
   (Rect.width back == Rect.width rect)%Q /\
   (Rect.height back == Rect.height rect)%Q).
Proof.
  destruct startPoint as [sx sy], coords as [cx cy]. cbn zeta.
  unfold dragRect. cbn [Point.x Point.y Rect.x Rect.y Rect.width Rect.height].
  destruct (dragged_extent sx cx) as (Hwide & Hacross & Hback & Hexact).
  destruct (dragged_extent sy cy) as (Hhigh & Hdown & Hback' & Hexact').
  cbn zeta in *.
  assert (forall origin target extent : Q,
            (extent == Qabs (target - origin))%Q ->
            (mathMin origin target + extent == mathMax origin target)%Q)
    as Hcorner.
  { intros origin target extent ->. unfold mathMin, mathMax.
    destruct (Qle_bool origin target) eqn:Hle.
    - apply Qle_bool_iff in Hle. rewrite Qabs_pos by lra. ring.
    - apply not_true_iff_false in Hle. rewrite Qle_bool_iff in Hle.
      apply Qnot_le_lt in Hle. rewrite Qabs_neg by lra. ring. }
  split; [done|]. split; [done|].
  split; [repeat split; compare; (lra || (left; lra) || (right; lra))|].
  split; [intros Hsx Hcx; split; [|apply Hcorner]; by apply Hexact|].
  split; [intros Hsy Hcy; split; [|apply Hcorner]; by apply Hexact'|].
  split; [compare; lra|]. split; [compare; lra|]. done.
Qed.


End ComponentFacts.

(** A drag from (0.2, 10) to (0.9, 40), the doubles nearest to these
    numbers being meant: the height is 30 and the rectangle ends at 40,
    but the difference 0.9 - 0.2 is rounded down to 0.7 less one unit in
    the last place, and the rectangle ends short of the mouse. *)
Lemma dragRect_normalised_example :
  let startPoint := Point.make (Double.nearest (1 # 5)) 10 in
  let coords := Point.make (Double.nearest (9 # 10)) 40 in
  let rect := dragRect startPoint coords in
  (Rect.y rect + Rect.height rect == 40)%Q /\
  (Qabs (Rect.width rect - Qabs (Point.x coords - Point.x startPoint)) <=
   roundingOf (Point.x coords - Point.x startPoint))%Q /\
  (Rect.x rect + Rect.width rect < Point.x coords)%Q.
Proof.
  cbn zeta.
  destruct (dragRect_normalised
              (Point.make (Double.nearest (1 # 5)) 10)
              (Point.make (Double.nearest (9 # 10)) 40))
    as (_ & [Hclose _] & _ & _ & Hwhole & _).
  split; [|split; [exact Hclose|by vm_compute]].
  apply Hwhole; [exists 10|exists 40]; (split; [lia|reflexivity]).
Defined.

(* ===================================================================== *)
(** * Operations one after the other *)
(* ===================================================================== *)

Section Compositions.
Context `{lib : Library} `{access : PageAccess}.

Lemma stripMetadata_twice (doc : PDFDocument) :
  stripMetadata (stripMetadata doc) = stripMetadata doc.
Proof. done. Qed.

Lemma length_complement (doc : PDFDocument) (indices : list Z) :
  (length (complement doc indices) +
   length (filter (fun i => i ∈ indices) (seqZ 0 (getPageCount doc))))%nat =
  length (pages doc).
Proof.
  unfold complement.
  pose proof (filter_app_complement (fun i => i ∈ indices)
                (seqZ 0 (getPageCount doc))) as Hboth.
  apply Permutation_length in Hboth.
  rewrite length_app, length_seqZ in Hboth. unfold getPageCount in *.
  lia.
Qed.

(** X27.  [reorderPages] with an order that lists every page index once
    loses no page and repeats none: the document written holds the pages
    of the input, each once, in the order asked for. *)
Theorem reorderPages_permutation (bytes : Uint8Array) (doc : PDFDocument)
    (newOrder : list Z) :
  parse bytes = Resolved doc ->
  newOrder ≡ₚ seqZ 0 (getPageCount doc) ->
  reorderPages bytes newOrder = Resolved (written (pagesAt doc newOrder)) /\
  pagesAt doc newOrder ≡ₚ pages doc.
Proof.
  intros Hdoc Horder. split.
  - rewrite reorderPages_is_extractPages.
    apply extractPages_in_range; [done|].
    apply Forall_forall. intros i Hi. rewrite Horder in Hi.
    apply elem_of_seqZ in Hi. unfold inRange. lia.
  - transitivity (pagesAt doc (seqZ 0 (getPageCount doc)));
      [unfold pagesAt; by rewrite Horder|by rewrite pagesAt_all].
Qed.

(** X28.  With a parser that reads back what the writer wrote, compressing
    at level 50 what level 50 has compressed changes nothing: the second
    pass returns the bytes it was given, and reports a reduction of 0 for
    them unless they are no byte at all. *)
Theorem compressPdf_medium_twice (bytes : Uint8Array) (doc : PDFDocument) :
  readsBack ->
  parse bytes = Resolved doc ->
  exists once first second,
    compressPdf bytes Level50 = Resolved first /\
    CompressionResult.bytes first = Some once /\
    compressPdf once Level50 = Resolved second /\
    CompressionResult.success second = true /\
    CompressionResult.bytes second = Some once /\
    CompressionResult.compressedSize second =
      CompressionResult.originalSize second /\
    ((0 < byteLength once)%nat ->
     CompressionResult.reductionPercent second = JS.ofZ 0).
Proof.
  intros Hreads Hdoc.
  pose proof (compressPdf_outcome bytes Level50) as Hfirst.
  rewrite (compressedBytesOf_parsed _ _ _ Hdoc) in Hfirst.
  pose proof (compressPdf_outcome (serialize true (stripMetadata doc)) Level50)
    as Hsecond.
  rewrite (compressedBytesOf_parsed _ _ _ (Hreads _ _)) in Hsecond.
  rewrite stripMetadata_twice in Hsecond.
  eexists _, _, _. split; [exact Hfirst|]. split; [done|].
  split; [exact Hsecond|]. simpl. repeat split.
  intros Hsome. by apply reduction_accounted.
Qed.

(** X29.  With a parser that reads back what the writer wrote, the
    document [deletePages] writes shows as many pages as the input has
    without the listed ones, an index listed twice or the index of no
    page counting for nothing; it shows one page, the blank one, when
    every page was listed. *)
Theorem deletePages_page_count (bytes : Uint8Array) (doc : PDFDocument)
    (toDelete : list Z) :
  readsBack ->
  parse bytes = Resolved doc ->
  exists out info,
    deletePages bytes toDelete = Resolved out /\
    loadPdfInfo out = Resolved info /\
    PdfDocumentInfo.pageCount info =
      Z.max 1
        (getPageCount doc -
         Z.of_nat (length (filter (fun i => i ∈ toDelete)
                                  (seqZ 0 (getPageCount doc))))).
Proof.
  intros Hreads Hdoc.
  rewrite (deletePages_complement _ _ _ Hdoc).
  rewrite (extractPages_in_range _ _ _ Hdoc) by apply complement_in_range.
  pose proof (length_complement doc toDelete) as Hsum.
  pose proof (length_pagesAt doc _ (complement_in_range doc toDelete)) as Hkept.
  eexists _, _. split; [done|].
  unfold loadPdfInfo, load, written. rewrite Hreads. simpl.
  split; [done|]. simpl. unfold getPageCount. simpl.
  unfold getPageCount in Hsum.
  destruct (pagesAt doc (complement doc toDelete)) as [|page rest];
    simpl in *; lia.
Qed.

End Compositions.

Lemma reorderPages_permutation_example :
  reorderPages Sample.reportBytes [2; 0; 1] =
    Resolved (written (pagesAt Sample.report [2; 0; 1])) /\
  pagesAt Sample.report [2; 0; 1] ≡ₚ pages Sample.report.
Proof.
  apply (reorderPages_permutation (lib := Sample.library)
           Sample.reportBytes Sample.report [2; 0; 1]).
  - reflexivity.
  - change (seqZ 0 (getPageCount Sample.report)) with [0; 1; 2].
    etrans; [apply Permutation_swap|]. apply perm_skip, Permutation_swap.
Defined.

Lemma compressPdf_medium_twice_example :
  exists once first second,
    compressPdf Sample.memoBytes Level50 = Resolved first /\
    CompressionResult.bytes first = Some once /\
    compressPdf once Level50 = Resolved second /\
    CompressionResult.success second = true /\
    CompressionResult.bytes second = Some once /\
    CompressionResult.compressedSize second =
      CompressionResult.originalSize second /\
    ((0 < byteLength once)%nat ->
     CompressionResult.reductionPercent second = JS.ofZ 0).
Proof.
  apply (compressPdf_medium_twice (lib := Sample.library)
           Sample.memoBytes Sample.memo).
  - intros objectStreams doc. reflexivity.
  - reflexivity.
Defined.

Lemma deletePages_page_count_example :
  exists out info,
    deletePages Sample.reportBytes [1; 1; 7; -2] = Resolved out /\
    loadPdfInfo out = Resolved info /\
    PdfDocumentInfo.pageCount info =
      Z.max 1
        (getPageCount Sample.report -
         Z.of_nat (length (filter (fun i => i ∈ [1; 1; 7; -2])
                                  (seqZ 0 (getPageCount Sample.report))))).
Proof.
  apply (deletePages_page_count (lib := Sample.library)
           Sample.reportBytes Sample.report [1; 1; 7; -2]).
  - intros objectStreams doc. reflexivity.
  - reflexivity.
Defined.
